(** * dwm: tag algebra, size hints, layouts, focus stack and fullscreen

    A shallow embedding of the window-management core of [dwm.c] and
    [config.h].

    The source carries two back ends behind [#if USE_XLIB] / [#elif
    USE_WINAPI].  Several of the functions studied here have a body only in
    the [USE_XLIB] branch ([setfullscreen], [resizeclient], [clearurgent],
    [restack], [unfocus]), and [resize] calls [applysizehints] only there;
    these are the branches the specification describes, and the embedding
    follows the [USE_XLIB] configuration throughout.

    Conventions.
    - [int] values are integers of [Z]; signed overflow is undefined in C
      and lies outside the model.  [unsigned int] arithmetic wraps modulo
      [2^32] ([to_uint]); storing an [unsigned int] into an [int] goes
      through [to_int].
    - [float] is IEEE-754 binary32 and [double] binary64, both carried by
      [spec_float] with the operations of the [SpecFloat] library; every
      operation is rounded to the format of its C type.
    - A [Client *] is the window id of the client; the records live in a
      finite map from window ids to [Client] (the heap).  The two intrusive
      lists ([next], [snext]) are the lists of window ids [m_clients] and
      [m_stack] of the owning monitor, head first.  A [Monitor *] is the
      position of the monitor in [mons].  The pointers of the program always
      refer to live records; in the model a window id without a record
      reads as the zeroed record, a position outside [mons] as the zeroed
      monitor, and a write through such a position is lost.
    - Requests sent to the X server (XConfigureWindow, XSetInputFocus,
      XMoveWindow, drawing ...) do not write the fields of the model and are
      left out; values read from the server are function arguments. *)

From Stdlib Require Import ZArith Bool String Ascii List Lia.
From Stdlib Require Import Floats.SpecFloat.
From stdpp Require Import base decidable option list gmap pretty.

Local Open Scope Z_scope.

(** ** Machine integers *)

Definition to_uint (z : Z) : Z := z mod 2 ^ 32.

Definition to_int (z : Z) : Z :=
  let u := z mod 2 ^ 32 in if u <? 2 ^ 31 then u else u - 2 ^ 32.

(** Modelled from the spec: util.h, which defines the macros [MAX] and
    [MIN], is not among the sources; the spec's "clamp [w,h >= 1]", "clamp to
    [[min, max]]" and "[min(n, nmaster)]" fix them as the maximum and the
    minimum of their two arguments. *)
Definition MAX (a b : Z) : Z := if a >? b then a else b.
Definition MIN (a b : Z) : Z := if a <? b then a else b.

(** C truth value of an integer. *)
Definition nonzero (z : Z) : bool := negb (z =? 0).

(** ** Floating point *)

Definition float_of_int (z : Z) : spec_float := binary_normalize 24 128 z 0 false.
Definition double_of_int (z : Z) : spec_float := binary_normalize 53 1024 z 0 false.

(** Widening [float] to [double] is exact, narrowing rounds to nearest. *)
Definition double_of_float (f : spec_float) : spec_float :=
  match f with
  | S754_finite s m e => binary_round 53 1024 s m e
  | _ => f
  end.

Definition float_of_double (d : spec_float) : spec_float :=
  match d with
  | S754_finite s m e => binary_round 24 128 s m e
  | _ => d
  end.

(** Conversion of a floating value to an integer type discards the
    fractional part.  NaN and the infinities have no converted value in C;
    the model gives [0]. *)
Definition float_trunc (f : spec_float) : Z :=
  match f with
  | S754_finite s m e =>
      let q := match e with
               | Z0 => Zpos m
               | Zpos _ => Zpos m * 2 ^ e
               | Zneg _ => Zpos m / 2 ^ (- e)
               end in
      if s then - q else q
  | _ => 0
  end.

Definition fmul (a b : spec_float) : spec_float := SFmul 24 128 a b.
Definition fdiv (a b : spec_float) : spec_float := SFdiv 24 128 a b.
Definition fadd (a b : spec_float) : spec_float := SFadd 24 128 a b.
Definition dadd (a b : spec_float) : spec_float := SFadd 53 1024 a b.
Definition dsub (a b : spec_float) : spec_float := SFsub 53 1024 a b.

(** A decimal literal [p/q] of type [double]. *)
Definition double_lit (p q : Z) : spec_float :=
  SFdiv 53 1024 (double_of_int p) (double_of_int q).

Definition d_0_1 : spec_float := Eval vm_compute in double_lit 1 10.
Definition d_0_5 : spec_float := Eval vm_compute in double_lit 1 2.
Definition d_0_9 : spec_float := Eval vm_compute in double_lit 9 10.
Definition d_1_0 : spec_float := Eval vm_compute in double_lit 1 1.
Definition f_zero : spec_float := S754_zero false.

(** ** Data model (dwm.c, typedefs) *)

Abbreviation Window := Z.

Inductive ArrangeFn := Tile | Monocle.

Record Layout := {
  l_symbol : string;
  l_arrange : option ArrangeFn
}.

Record Rule := {
  r_class : option string;
  r_instance : option string;
  r_title : option string;
  r_tags : Z;
  r_isfloating : bool;
  r_monitor : Z
}.

Record Client := {
  c_name : string;
  c_mina : spec_float; c_maxa : spec_float;
  c_x : Z; c_y : Z; c_w : Z; c_h : Z;
  c_oldx : Z; c_oldy : Z; c_oldw : Z; c_oldh : Z;
  c_basew : Z; c_baseh : Z; c_incw : Z; c_inch : Z;
  c_maxw : Z; c_maxh : Z; c_minw : Z; c_minh : Z;
  c_bw : Z; c_oldbw : Z;
  c_tags : Z;
  c_isfixed : bool; c_isfloating : bool; c_isurgent : bool;
  c_neverfocus : bool; c_oldstate : bool; c_isfullscreen : bool;
  c_mon : nat;
  c_win : Window
}.

Record Monitor := {
  m_ltsymbol : string;
  m_mfact : spec_float;
  m_nmaster : Z;
  m_num : Z;
  m_by : Z;
  m_mx : Z; m_my : Z; m_mw : Z; m_mh : Z;
  m_wx : Z; m_wy : Z; m_ww : Z; m_wh : Z;
  m_seltags : Z;
  m_sellt : Z;
  m_tagset0 : Z; m_tagset1 : Z;
  m_showbar : bool;
  m_topbar : bool;
  m_clients : list Window;
  m_sel : option Window;
  m_stack : list Window;
  m_lt0 : Layout; m_lt1 : Layout
}.

(** The global variables of dwm.c that the model reads or writes. *)
Record WM := {
  heap : gmap Z Client;
  mons : list Monitor;
  selmon : nat;
  sw : Z; sh : Z;
  bh : Z
}.

(** A record as [calloc] returns it. *)
Definition zero_client : Client :=
  {| c_name := EmptyString; c_mina := f_zero; c_maxa := f_zero;
     c_x := 0; c_y := 0; c_w := 0; c_h := 0;
     c_oldx := 0; c_oldy := 0; c_oldw := 0; c_oldh := 0;
     c_basew := 0; c_baseh := 0; c_incw := 0; c_inch := 0;
     c_maxw := 0; c_maxh := 0; c_minw := 0; c_minh := 0;
     c_bw := 0; c_oldbw := 0; c_tags := 0;
     c_isfixed := false; c_isfloating := false; c_isurgent := false;
     c_neverfocus := false; c_oldstate := false; c_isfullscreen := false;
     c_mon := 0%nat; c_win := 0 |}.

Definition zero_layout : Layout := {| l_symbol := EmptyString; l_arrange := None |}.

Definition zero_monitor : Monitor :=
  {| m_ltsymbol := EmptyString; m_mfact := f_zero; m_nmaster := 0; m_num := 0;
     m_by := 0; m_mx := 0; m_my := 0; m_mw := 0; m_mh := 0;
     m_wx := 0; m_wy := 0; m_ww := 0; m_wh := 0;
     m_seltags := 0; m_sellt := 0; m_tagset0 := 0; m_tagset1 := 0;
     m_showbar := false; m_topbar := false;
     m_clients := []; m_sel := None; m_stack := [];
     m_lt0 := zero_layout; m_lt1 := zero_layout |}.

#[global] Instance Rule_inhabited : Inhabited Rule :=
  populate {| r_class := None; r_instance := None; r_title := None;
              r_tags := 0; r_isfloating := false; r_monitor := 0 |}.
#[global] Instance Layout_inhabited : Inhabited Layout := populate zero_layout.
#[global] Instance Client_inhabited : Inhabited Client := populate zero_client.
#[global] Instance Monitor_inhabited : Inhabited Monitor := populate zero_monitor.

(** Field assignments. *)

Definition set_c_geom (x y w h : Z) (c : Client) : Client :=
  {| c_name := c_name c; c_mina := c_mina c; c_maxa := c_maxa c;
     c_x := x; c_y := y; c_w := w; c_h := h;
     c_oldx := c_oldx c; c_oldy := c_oldy c; c_oldw := c_oldw c; c_oldh := c_oldh c;
     c_basew := c_basew c; c_baseh := c_baseh c; c_incw := c_incw c; c_inch := c_inch c;
     c_maxw := c_maxw c; c_maxh := c_maxh c; c_minw := c_minw c; c_minh := c_minh c;
     c_bw := c_bw c; c_oldbw := c_oldbw c; c_tags := c_tags c;
     c_isfixed := c_isfixed c; c_isfloating := c_isfloating c; c_isurgent := c_isurgent c;
     c_neverfocus := c_neverfocus c; c_oldstate := c_oldstate c;
     c_isfullscreen := c_isfullscreen c;
     c_mon := c_mon c; c_win := c_win c |}.

Definition set_c_old (x y w h : Z) (c : Client) : Client :=
  {| c_name := c_name c; c_mina := c_mina c; c_maxa := c_maxa c;
     c_x := c_x c; c_y := c_y c; c_w := c_w c; c_h := c_h c;
     c_oldx := x; c_oldy := y; c_oldw := w; c_oldh := h;
     c_basew := c_basew c; c_baseh := c_baseh c; c_incw := c_incw c; c_inch := c_inch c;
     c_maxw := c_maxw c; c_maxh := c_maxh c; c_minw := c_minw c; c_minh := c_minh c;
     c_bw := c_bw c; c_oldbw := c_oldbw c; c_tags := c_tags c;
     c_isfixed := c_isfixed c; c_isfloating := c_isfloating c; c_isurgent := c_isurgent c;
     c_neverfocus := c_neverfocus c; c_oldstate := c_oldstate c;
     c_isfullscreen := c_isfullscreen c;
     c_mon := c_mon c; c_win := c_win c |}.

Definition set_c_bw (bw oldbw : Z) (c : Client) : Client :=
  {| c_name := c_name c; c_mina := c_mina c; c_maxa := c_maxa c;
     c_x := c_x c; c_y := c_y c; c_w := c_w c; c_h := c_h c;
     c_oldx := c_oldx c; c_oldy := c_oldy c; c_oldw := c_oldw c; c_oldh := c_oldh c;
     c_basew := c_basew c; c_baseh := c_baseh c; c_incw := c_incw c; c_inch := c_inch c;
     c_maxw := c_maxw c; c_maxh := c_maxh c; c_minw := c_minw c; c_minh := c_minh c;
     c_bw := bw; c_oldbw := oldbw; c_tags := c_tags c;
     c_isfixed := c_isfixed c; c_isfloating := c_isfloating c; c_isurgent := c_isurgent c;
     c_neverfocus := c_neverfocus c; c_oldstate := c_oldstate c;
     c_isfullscreen := c_isfullscreen c;
     c_mon := c_mon c; c_win := c_win c |}.

Definition set_c_tags (t : Z) (c : Client) : Client :=
  {| c_name := c_name c; c_mina := c_mina c; c_maxa := c_maxa c;
     c_x := c_x c; c_y := c_y c; c_w := c_w c; c_h := c_h c;
     c_oldx := c_oldx c; c_oldy := c_oldy c; c_oldw := c_oldw c; c_oldh := c_oldh c;
     c_basew := c_basew c; c_baseh := c_baseh c; c_incw := c_incw c; c_inch := c_inch c;
     c_maxw := c_maxw c; c_maxh := c_maxh c; c_minw := c_minw c; c_minh := c_minh c;
     c_bw := c_bw c; c_oldbw := c_oldbw c; c_tags := t;
     c_isfixed := c_isfixed c; c_isfloating := c_isfloating c; c_isurgent := c_isurgent c;
     c_neverfocus := c_neverfocus c; c_oldstate := c_oldstate c;
     c_isfullscreen := c_isfullscreen c;
     c_mon := c_mon c; c_win := c_win c |}.

(** [isfloating], [isurgent], [oldstate], [isfullscreen] in one assignment. *)
Definition set_c_flags (isfloating isurgent oldstate isfullscreen : bool)
    (c : Client) : Client :=
  {| c_name := c_name c; c_mina := c_mina c; c_maxa := c_maxa c;
     c_x := c_x c; c_y := c_y c; c_w := c_w c; c_h := c_h c;
     c_oldx := c_oldx c; c_oldy := c_oldy c; c_oldw := c_oldw c; c_oldh := c_oldh c;
     c_basew := c_basew c; c_baseh := c_baseh c; c_incw := c_incw c; c_inch := c_inch c;
     c_maxw := c_maxw c; c_maxh := c_maxh c; c_minw := c_minw c; c_minh := c_minh c;
     c_bw := c_bw c; c_oldbw := c_oldbw c; c_tags := c_tags c;
     c_isfixed := c_isfixed c; c_isfloating := isfloating; c_isurgent := isurgent;
     c_neverfocus := c_neverfocus c; c_oldstate := oldstate;
     c_isfullscreen := isfullscreen;
     c_mon := c_mon c; c_win := c_win c |}.

Definition set_c_isfloating (b : bool) (c : Client) : Client :=
  set_c_flags b (c_isurgent c) (c_oldstate c) (c_isfullscreen c) c.

Definition set_c_isurgent (b : bool) (c : Client) : Client :=
  set_c_flags (c_isfloating c) b (c_oldstate c) (c_isfullscreen c) c.

Definition set_c_mon (i : nat) (c : Client) : Client :=
  {| c_name := c_name c; c_mina := c_mina c; c_maxa := c_maxa c;
     c_x := c_x c; c_y := c_y c; c_w := c_w c; c_h := c_h c;
     c_oldx := c_oldx c; c_oldy := c_oldy c; c_oldw := c_oldw c; c_oldh := c_oldh c;
     c_basew := c_basew c; c_baseh := c_baseh c; c_incw := c_incw c; c_inch := c_inch c;
     c_maxw := c_maxw c; c_maxh := c_maxh c; c_minw := c_minw c; c_minh := c_minh c;
     c_bw := c_bw c; c_oldbw := c_oldbw c; c_tags := c_tags c;
     c_isfixed := c_isfixed c; c_isfloating := c_isfloating c; c_isurgent := c_isurgent c;
     c_neverfocus := c_neverfocus c; c_oldstate := c_oldstate c;
     c_isfullscreen := c_isfullscreen c;
     c_mon := i; c_win := c_win c |}.

(** The fields of a monitor that the modelled functions write:
    [ltsymbol], [mfact], [seltags], the two [tagset] slots, [sel] and
    [stack]. *)
Definition set_m_view (seltags ts0 ts1 : Z) (m : Monitor) : Monitor :=
  {| m_ltsymbol := m_ltsymbol m; m_mfact := m_mfact m; m_nmaster := m_nmaster m;
     m_num := m_num m; m_by := m_by m;
     m_mx := m_mx m; m_my := m_my m; m_mw := m_mw m; m_mh := m_mh m;
     m_wx := m_wx m; m_wy := m_wy m; m_ww := m_ww m; m_wh := m_wh m;
     m_seltags := seltags; m_sellt := m_sellt m;
     m_tagset0 := ts0; m_tagset1 := ts1;
     m_showbar := m_showbar m; m_topbar := m_topbar m;
     m_clients := m_clients m; m_sel := m_sel m; m_stack := m_stack m;
     m_lt0 := m_lt0 m; m_lt1 := m_lt1 m |}.

Definition set_m_focus (sel : option Window) (stack : list Window)
    (m : Monitor) : Monitor :=
  {| m_ltsymbol := m_ltsymbol m; m_mfact := m_mfact m; m_nmaster := m_nmaster m;
     m_num := m_num m; m_by := m_by m;
     m_mx := m_mx m; m_my := m_my m; m_mw := m_mw m; m_mh := m_mh m;
     m_wx := m_wx m; m_wy := m_wy m; m_ww := m_ww m; m_wh := m_wh m;
     m_seltags := m_seltags m; m_sellt := m_sellt m;
     m_tagset0 := m_tagset0 m; m_tagset1 := m_tagset1 m;
     m_showbar := m_showbar m; m_topbar := m_topbar m;
     m_clients := m_clients m; m_sel := sel; m_stack := stack;
     m_lt0 := m_lt0 m; m_lt1 := m_lt1 m |}.

Definition set_m_sel (sel : option Window) (m : Monitor) : Monitor :=
  set_m_focus sel (m_stack m) m.

Definition set_m_stack (stack : list Window) (m : Monitor) : Monitor :=
  set_m_focus (m_sel m) stack m.

Definition set_m_clients (cl : list Window) (m : Monitor) : Monitor :=
  {| m_ltsymbol := m_ltsymbol m; m_mfact := m_mfact m; m_nmaster := m_nmaster m;
     m_num := m_num m; m_by := m_by m;
     m_mx := m_mx m; m_my := m_my m; m_mw := m_mw m; m_mh := m_mh m;
     m_wx := m_wx m; m_wy := m_wy m; m_ww := m_ww m; m_wh := m_wh m;
     m_seltags := m_seltags m; m_sellt := m_sellt m;
     m_tagset0 := m_tagset0 m; m_tagset1 := m_tagset1 m;
     m_showbar := m_showbar m; m_topbar := m_topbar m;
     m_clients := cl; m_sel := m_sel m; m_stack := m_stack m;
     m_lt0 := m_lt0 m; m_lt1 := m_lt1 m |}.

Definition set_m_ltsymbol (s : string) (m : Monitor) : Monitor :=
  {| m_ltsymbol := s; m_mfact := m_mfact m; m_nmaster := m_nmaster m;
     m_num := m_num m; m_by := m_by m;
     m_mx := m_mx m; m_my := m_my m; m_mw := m_mw m; m_mh := m_mh m;
     m_wx := m_wx m; m_wy := m_wy m; m_ww := m_ww m; m_wh := m_wh m;
     m_seltags := m_seltags m; m_sellt := m_sellt m;
     m_tagset0 := m_tagset0 m; m_tagset1 := m_tagset1 m;
     m_showbar := m_showbar m; m_topbar := m_topbar m;
     m_clients := m_clients m; m_sel := m_sel m; m_stack := m_stack m;
     m_lt0 := m_lt0 m; m_lt1 := m_lt1 m |}.

Definition set_m_mfact (f : spec_float) (m : Monitor) : Monitor :=
  {| m_ltsymbol := m_ltsymbol m; m_mfact := f; m_nmaster := m_nmaster m;
     m_num := m_num m; m_by := m_by m;
     m_mx := m_mx m; m_my := m_my m; m_mw := m_mw m; m_mh := m_mh m;
     m_wx := m_wx m; m_wy := m_wy m; m_ww := m_ww m; m_wh := m_wh m;
     m_seltags := m_seltags m; m_sellt := m_sellt m;
     m_tagset0 := m_tagset0 m; m_tagset1 := m_tagset1 m;
     m_showbar := m_showbar m; m_topbar := m_topbar m;
     m_clients := m_clients m; m_sel := m_sel m; m_stack := m_stack m;
     m_lt0 := m_lt0 m; m_lt1 := m_lt1 m |}.

Definition set_heap (hp : gmap Z Client) (wm : WM) : WM :=
  {| heap := hp; mons := mons wm; selmon := selmon wm;
     sw := sw wm; sh := sh wm; bh := bh wm |}.

Definition set_mons (ms : list Monitor) (wm : WM) : WM :=
  {| heap := heap wm; mons := ms; selmon := selmon wm;
     sw := sw wm; sh := sh wm; bh := bh wm |}.

Definition set_selmon (i : nat) (wm : WM) : WM :=
  {| heap := heap wm; mons := mons wm; selmon := i;
     sw := sw wm; sh := sh wm; bh := bh wm |}.

(** Dereferencing and writing through a [Client *] / [Monitor *]. *)
Definition client (wm : WM) (c : Window) : Client := heap wm !!! c.
Definition monitor (wm : WM) (i : nat) : Monitor := mons wm !!! i.

Definition upd_client (c : Window) (f : Client -> Client) (wm : WM) : WM :=
  set_heap (<[c := f (client wm c)]> (heap wm)) wm.

Definition upd_monitor (i : nat) (f : Monitor -> Monitor) (wm : WM) : WM :=
  set_mons (<[i := f (monitor wm i)]> (mons wm)) wm.

(** [m->tagset[i]] and [m->lt[i]]; the indices are [seltags] and [sellt],
    which only ever hold 0 or 1. *)
Definition m_tagset (m : Monitor) (i : Z) : Z :=
  if i =? 0 then m_tagset0 m else m_tagset1 m.

Definition m_lt (m : Monitor) (i : Z) : Layout :=
  if i =? 0 then m_lt0 m else m_lt1 m.

Definition set_m_tagset (i v : Z) (m : Monitor) : Monitor :=
  if i =? 0 then set_m_view (m_seltags m) v (m_tagset1 m) m
  else set_m_view (m_seltags m) (m_tagset0 m) v m.

(** ** config.h *)

Definition borderpx : Z := 1.
Definition snap : Z := 32.
Definition showbar : bool := true.
Definition topbar : bool := true.

Definition tags : list string :=
  ["1"; "2"; "3"; "4"; "5"; "6"; "7"; "8"; "9"]%string.

Definition rules : list Rule :=
  [ {| r_class := Some "Gimp"%string; r_instance := None; r_title := None;
       r_tags := 0; r_isfloating := true; r_monitor := -1 |};
    {| r_class := Some "Firefox"%string; r_instance := None; r_title := None;
       r_tags := Z.shiftl 1 8; r_isfloating := false; r_monitor := -1 |} ].

Definition mfact : spec_float := Eval vm_compute in float_of_double (double_lit 55 100).
Definition nmaster : Z := 1.
Definition resizehints : bool := true.

Definition layouts : list Layout :=
  [ {| l_symbol := "[]="; l_arrange := Some Tile |};
    {| l_symbol := "><>"; l_arrange := None |};
    {| l_symbol := "[M]"; l_arrange := Some Monocle |} ].

(** ** Macros of dwm.c *)

Definition TAGMASK : Z := Z.shiftl 1 (Z.of_nat (length tags)) - 1.

Definition ISVISIBLE (wm : WM) (c : Window) : bool :=
  let m := monitor wm (c_mon (client wm c)) in
  nonzero (Z.land (c_tags (client wm c)) (m_tagset m (m_seltags m))).

Definition WIDTH (c : Client) : Z := c_w c + 2 * c_bw c.
Definition HEIGHT (c : Client) : Z := c_h c + 2 * c_bw c.

(** ** Rules (applyrules) *)

(** [strstr(h, n) != NULL]: [n] occurs in [h]. *)
Fixpoint strstr (h n : string) : bool :=
  String.prefix n h ||
  match h with
  | EmptyString => false
  | String _ h' => strstr h' n
  end.

(** [!r->field || strstr(s, r->field)] *)
Definition rule_field_matches (pat : option string) (s : string) : bool :=
  match pat with
  | None => true
  | Some p => strstr s p
  end.

(** [for(m = mons; m && m->num != r->monitor; m = m->next);] as the
    position of the monitor found. *)
Fixpoint find_mon_num (ms : list Monitor) (num : Z) (i : nat) : option nat :=
  match ms with
  | [] => None
  | m :: ms' => if m_num m =? num then Some i else find_mon_num ms' num (S i)
  end.

(** The body of the loop over [rules] for one rule. *)
Definition applyrule (wm : WM) (class instance : string) (c : Client) (r : Rule)
    : Client :=
  if rule_field_matches (r_title r) (c_name c)
     && rule_field_matches (r_class r) class
     && rule_field_matches (r_instance r) instance
  then
    let c1 := set_c_isfloating (r_isfloating r) c in
    let c2 := set_c_tags (Z.lor (c_tags c1) (r_tags r)) c1 in
    match find_mon_num (mons wm) (r_monitor r) 0 with
    | Some i => set_c_mon i c2
    | None => c2
    end
  else c.

(** [applyrules(c)] for a client record that is not linked into a monitor
    yet ([manage] calls it before [attach]).  [class] and [instance] are
    what XGetClassHint returned, already defaulted to ["broken"]. *)
Definition applyrules_on (rs : list Rule) (wm : WM) (class instance : string)
    (c : Client) : Client :=
  let c0 := set_c_tags 0 (set_c_isfloating false c) in
  let c1 := fold_left (applyrule wm class instance) rs c0 in
  let view := let m := monitor wm (c_mon c1) in m_tagset m (m_seltags m) in
  let c2 := set_c_tags view c1 in
  set_c_tags (if nonzero (Z.land (c_tags c2) TAGMASK)
              then Z.land (c_tags c2) TAGMASK else view) c2.

Definition applyrules : WM -> string -> string -> Client -> Client :=
  applyrules_on rules.

(** ** Size hints and resizing *)

(** The aspect adjustment of [applysizehints], on [( *w, *h)]. *)
Definition aspect_adjust (c : Client) (w h : Z) : Z * Z :=
  if SFltb f_zero (c_mina c) && SFltb f_zero (c_maxa c) then
    if SFltb (c_maxa c) (fdiv (float_of_int w) (float_of_int h)) then
      (float_trunc (dadd (double_of_float (fmul (float_of_int h) (c_maxa c))) d_0_5), h)
    else if SFltb (c_mina c) (fdiv (float_of_int h) (float_of_int w)) then
      (w, float_trunc (dadd (double_of_float (fmul (float_of_int w) (c_mina c))) d_0_5))
    else (w, h)
  else (w, h).

(** The block guarded by [resizehints || c->isfloating || !arrange]. *)
Definition hints_adjust (c : Client) (w h : Z) : Z * Z :=
  let baseismin := (c_basew c =? c_minw c) && (c_baseh c =? c_minh c) in
  let '(w, h) := if negb baseismin then (w - c_basew c, h - c_baseh c) else (w, h) in
  let '(w, h) := aspect_adjust c w h in
  let '(w, h) := if baseismin then (w - c_basew c, h - c_baseh c) else (w, h) in
  let w := if nonzero (c_incw c) then w - Z.rem w (c_incw c) else w in
  let h := if nonzero (c_inch c) then h - Z.rem h (c_inch c) else h in
  let w := MAX (w + c_basew c) (c_minw c) in
  let h := MAX (h + c_baseh c) (c_minh c) in
  let w := if nonzero (c_maxw c) then MIN w (c_maxw c) else w in
  let h := if nonzero (c_maxh c) then MIN h (c_maxh c) else h in
  (w, h).

Definition Rect : Type := Z * Z * Z * Z.

Definition c_rect (c : Client) : Rect := (c_x c, c_y c, c_w c, c_h c).

(** [applysizehints(c, &x, &y, &w, &h, interact)]: the returned flag and
    the values left in [*x, *y, *w, *h]. *)
Definition applysizehints (wm : WM) (c : Client) (r : Rect) (interact : bool)
    : bool * Rect :=
  let '(x, y, w, h) := r in
  let m := monitor wm (c_mon c) in
  let w := MAX 1 w in
  let h := MAX 1 h in
  let '(x, y) :=
    if interact then
      let x := if x >? sw wm then sw wm - WIDTH c else x in
      let y := if y >? sh wm then sh wm - HEIGHT c else y in
      let x := if x + w + 2 * c_bw c <? 0 then 0 else x in
      let y := if y + h + 2 * c_bw c <? 0 then 0 else y in
      (x, y)
    else
      let x := if x >=? m_wx m + m_ww m then m_wx m + m_ww m - WIDTH c else x in
      let y := if y >=? m_wy m + m_wh m then m_wy m + m_wh m - HEIGHT c else y in
      let x := if x + w + 2 * c_bw c <=? m_wx m then m_wx m else x in
      let y := if y + h + 2 * c_bw c <=? m_wy m then m_wy m else y in
      (x, y) in
  let h := if h <? bh wm then bh wm else h in
  let w := if w <? bh wm then bh wm else w in
  let '(w, h) :=
    if resizehints || c_isfloating c
       || negb (bool_decide (is_Some (l_arrange (m_lt m (m_sellt m)))))
    then hints_adjust c w h else (w, h) in
  (negb ((x =? c_x c) && (y =? c_y c) && (w =? c_w c) && (h =? c_h c)),
   (x, y, w, h)).

(** [resizeclient(c, x, y, w, h)] *)
Definition resizeclient (c : Window) (r : Rect) (wm : WM) : WM :=
  let '(x, y, w, h) := r in
  upd_client c (fun cl => set_c_geom x y w h
                            (set_c_old (c_x cl) (c_y cl) (c_w cl) (c_h cl) cl)) wm.

(** [resize(c, x, y, w, h, interact)] *)
Definition resize (c : Window) (r : Rect) (interact : bool) (wm : WM) : WM :=
  let '(dirty, r') := applysizehints wm (client wm c) r interact in
  if dirty then resizeclient c r' wm else wm.

(** ** Client list and focus stack *)

(** [for(tc = &head; *tc && *tc != c; tc = &( *tc)->next); *tc = c->next;]
    unlinks the first node equal to [c].  Every caller passes a member of
    the list; for a [c] outside the list the C loop stops at the final null
    link and stores [c->next] there, the model leaves the list as it is. *)
Fixpoint unlink (c : Window) (l : list Window) : list Window :=
  match l with
  | [] => []
  | t :: l' => if t =? c then l' else t :: unlink c l'
  end.

(** [for(t = head; t && !ISVISIBLE(t); t = t->snext);] *)
Fixpoint first_visible (wm : WM) (l : list Window) : option Window :=
  match l with
  | [] => None
  | t :: l' => if ISVISIBLE wm t then Some t else first_visible wm l'
  end.

Definition attach (c : Window) (wm : WM) : WM :=
  upd_monitor (c_mon (client wm c)) (fun m => set_m_clients (c :: m_clients m) m) wm.

Definition attachstack (c : Window) (wm : WM) : WM :=
  upd_monitor (c_mon (client wm c)) (fun m => set_m_stack (c :: m_stack m) m) wm.

Definition detach (c : Window) (wm : WM) : WM :=
  upd_monitor (c_mon (client wm c)) (fun m => set_m_clients (unlink c (m_clients m)) m) wm.

Definition detachstack (c : Window) (wm : WM) : WM :=
  let i := c_mon (client wm c) in
  let wm1 := upd_monitor i (fun m => set_m_stack (unlink c (m_stack m)) m) wm in
  if bool_decide (m_sel (monitor wm1 i) = Some c) then
    upd_monitor i (set_m_sel (first_visible wm1 (m_stack (monitor wm1 i)))) wm1
  else wm1.

(** [clearurgent(c)]; the WM hints are rewritten on the server. *)
Definition clearurgent (c : Window) (wm : WM) : WM :=
  upd_client c (set_c_isurgent false) wm.

(** [unfocus(c, setfocus)] releases grabs, repaints the border and may
    move the input focus: nothing of the model is written. *)
Definition unfocus (c : option Window) (setfocus : bool) (wm : WM) : WM := wm.

(** [focus(c)] *)
Definition focus (c : option Window) (wm : WM) : WM :=
  let c := match c with
           | Some w => if ISVISIBLE wm w then Some w
                       else first_visible wm (m_stack (monitor wm (selmon wm)))
           | None => first_visible wm (m_stack (monitor wm (selmon wm)))
           end in
  let wm :=
    match m_sel (monitor wm (selmon wm)) with
    | Some s => if bool_decide (Some s = c) then wm else unfocus (Some s) false wm
    | None => wm
    end in
  let wm :=
    match c with
    | Some w =>
        let wm := if bool_decide (c_mon (client wm w) = selmon wm) then wm
                  else set_selmon (c_mon (client wm w)) wm in
        let wm := if c_isurgent (client wm w) then clearurgent w wm else wm in
        attachstack w (detachstack w wm)
    | None => wm
    end in
  upd_monitor (selmon wm) (set_m_sel c) wm.

(** ** Layouts *)

(** The test of [nexttiled]: the client is kept, not skipped. *)
Definition istiled (wm : WM) (c : Window) : bool :=
  negb (c_isfloating (client wm c) || negb (ISVISIBLE wm c)).

(** [nexttiled(c)], on the rest of the client list starting at [c]. *)
Fixpoint nexttiled (wm : WM) (l : list Window) : list Window :=
  match l with
  | [] => []
  | c :: l' => if istiled wm c then l else nexttiled wm l'
  end.

(** [for(n = 0, c = nexttiled(m->clients); c; c = nexttiled(c->next), n++);] *)
Fixpoint count_tiled (wm : WM) (l : list Window) : Z :=
  match l with
  | [] => 0
  | c :: l' => (if istiled wm c then 1 else 0) + count_tiled wm l'
  end.

(** The second loop of [tile]; [l] is the part of the client list still to
    be walked, [nexttiled] is applied by skipping the clients that are not
    tiled.  [i], [n], [mw], [my], [ty] are the [unsigned int] locals. *)
Fixpoint tile_loop (mi : nat) (n mw : Z) (l : list Window) (i my ty : Z) (wm : WM)
    : WM :=
  match l with
  | [] => wm
  | c :: l' =>
      if istiled wm c then
        let m := monitor wm mi in
        if i <? to_uint (m_nmaster m) then
          let h := to_uint (to_uint (m_wh m) - my)
                   / to_uint (MIN n (to_uint (m_nmaster m)) - i) in
          let bw2 := to_uint (2 * c_bw (client wm c)) in
          let wm' := resize c (m_wx m, to_int (to_uint (m_wy m) + my),
                               to_int (mw - bw2), to_int (h - bw2)) false wm in
          tile_loop mi n mw l' (to_uint (i + 1))
                    (to_uint (my + to_uint (HEIGHT (client wm' c)))) ty wm'
        else
          let h := to_uint (to_uint (m_wh m) - ty) / to_uint (n - i) in
          let bw2 := to_uint (2 * c_bw (client wm c)) in
          let wm' := resize c (to_int (to_uint (m_wx m) + mw),
                               to_int (to_uint (m_wy m) + ty),
                               to_int (to_uint (m_ww m) - mw - bw2),
                               to_int (h - bw2)) false wm in
          tile_loop mi n mw l' (to_uint (i + 1)) my
                    (to_uint (ty + to_uint (HEIGHT (client wm' c)))) wm'
      else tile_loop mi n mw l' i my ty wm
  end.

(** [tile(m)] *)
Definition tile (mi : nat) (wm : WM) : WM :=
  let m := monitor wm mi in
  let n := to_uint (count_tiled wm (m_clients m)) in
  if n =? 0 then wm
  else
    let mw :=
      if n >? to_uint (m_nmaster m) then
        if nonzero (m_nmaster m)
        then to_uint (float_trunc (fmul (float_of_int (m_ww m)) (m_mfact m)))
        else 0
      else to_uint (m_ww m) in
    tile_loop mi n mw (m_clients m) 0 0 0 wm.

(** [for(c = m->clients; c; c = c->next) if(ISVISIBLE(c)) n++;] *)
Fixpoint count_visible (wm : WM) (l : list Window) : Z :=
  match l with
  | [] => 0
  | c :: l' => (if ISVISIBLE wm c then 1 else 0) + count_visible wm l'
  end.

(** [snprintf(buf, 16, "[%d]", n)] with [n] an [unsigned int]. *)
Definition monocle_symbol (n : Z) : string :=
  String.substring 0 15 ("[" ++ pretty (to_int n) ++ "]")%string.

(** The resize loop of [monocle]. *)
Fixpoint monocle_loop (mi : nat) (l : list Window) (wm : WM) : WM :=
  match l with
  | [] => wm
  | c :: l' =>
      if istiled wm c then
        let m := monitor wm mi in
        monocle_loop mi l'
          (resize c (m_wx m, m_wy m, m_ww m - 2 * c_bw (client wm c),
                     m_wh m - 2 * c_bw (client wm c)) false wm)
      else monocle_loop mi l' wm
  end.

(** [monocle(m)] *)
Definition monocle (mi : nat) (wm : WM) : WM :=
  let n := to_uint (count_visible wm (m_clients (monitor wm mi))) in
  let wm := if n >? 0 then upd_monitor mi (set_m_ltsymbol (monocle_symbol n)) wm
            else wm in
  monocle_loop mi (m_clients (monitor wm mi)) wm.

(** [strncpy(dst, src, 16)] into a [char[16]]. *)
Definition strncpy16 (s : string) : string := String.substring 0 16 s.

(** [arrangemon(m)] *)
Definition arrangemon (mi : nat) (wm : WM) : WM :=
  let m := monitor wm mi in
  let wm := upd_monitor mi (set_m_ltsymbol (strncpy16 (l_symbol (m_lt m (m_sellt m))))) wm in
  match l_arrange (m_lt m (m_sellt m)) with
  | Some Tile => tile mi wm
  | Some Monocle => monocle mi wm
  | None => wm
  end.

(** [showhide(c)], on the rest of the focus stack starting at [c]. *)
Fixpoint showhide (l : list Window) (wm : WM) : WM :=
  match l with
  | [] => wm
  | c :: l' =>
      if ISVISIBLE wm c then
        let cl := client wm c in
        let m := monitor wm (c_mon cl) in
        let wm :=
          if (negb (bool_decide (is_Some (l_arrange (m_lt m (m_sellt m)))))
              || c_isfloating cl) && negb (c_isfullscreen cl)
          then resize c (c_rect cl) false wm else wm in
        showhide l' wm
      else showhide l' wm
  end.

(** [restack(m)] redraws the bar and reorders windows on the server. *)
Definition restack (mi : nat) (wm : WM) : WM := wm.

(** [arrange(m)]; [None] is the call [arrange(NULL)]. *)
Definition arrange (m : option nat) (wm : WM) : WM :=
  match m with
  | Some mi =>
      let wm := showhide (m_stack (monitor wm mi)) wm in
      restack mi (arrangemon mi wm)
  | None =>
      let all := seq 0 (length (mons wm)) in
      let wm := fold_left (fun wm mi => showhide (m_stack (monitor wm mi)) wm) all wm in
      fold_left (fun wm mi => arrangemon mi wm) all wm
  end.

(** ** Views and tags *)

(** [view(arg)] with [arg->ui = ui] *)
Definition view (ui : Z) (wm : WM) : WM :=
  let m := monitor wm (selmon wm) in
  if Z.land ui TAGMASK =? m_tagset m (m_seltags m) then wm
  else
    let wm := upd_monitor (selmon wm)
                (fun m => set_m_view (Z.lxor (m_seltags m) 1)
                                     (m_tagset0 m) (m_tagset1 m) m) wm in
    let wm := if nonzero (Z.land ui TAGMASK)
              then upd_monitor (selmon wm)
                     (fun m => set_m_tagset (m_seltags m) (Z.land ui TAGMASK) m) wm
              else wm in
    let wm := focus None wm in arrange (Some (selmon wm)) wm.

(** [toggleview(arg)] *)
Definition toggleview (ui : Z) (wm : WM) : WM :=
  let m := monitor wm (selmon wm) in
  let newtagset := Z.lxor (m_tagset m (m_seltags m)) (Z.land ui TAGMASK) in
  if nonzero newtagset then
    let wm := upd_monitor (selmon wm)
                (fun m => set_m_tagset (m_seltags m) newtagset m) wm in
    let wm := focus None wm in arrange (Some (selmon wm)) wm
  else wm.

(** [tag(arg)] *)
Definition tag (ui : Z) (wm : WM) : WM :=
  match m_sel (monitor wm (selmon wm)) with
  | Some s =>
      if nonzero (Z.land ui TAGMASK) then
        let wm := upd_client s (set_c_tags (Z.land ui TAGMASK)) wm in
        let wm := focus None wm in arrange (Some (selmon wm)) wm
      else wm
  | None => wm
  end.

(** [toggletag(arg)] *)
Definition toggletag (ui : Z) (wm : WM) : WM :=
  match m_sel (monitor wm (selmon wm)) with
  | None => wm
  | Some s =>
      let newtags := Z.lxor (c_tags (client wm s)) (Z.land ui TAGMASK) in
      if nonzero newtags then
        let wm := upd_client s (set_c_tags newtags) wm in
        let wm := focus None wm in arrange (Some (selmon wm)) wm
      else wm
  end.

(** ** Master factor *)

(** The value [f] that [setmfact] computes from [arg->f] and the current
    factor.  The conditional expression has type [double]; the assignment
    to the [float] local rounds it. *)
Definition setmfact_target (af cur : spec_float) : spec_float :=
  float_of_double
    (if SFltb (double_of_float af) d_1_0
     then double_of_float (fadd af cur)
     else dsub (double_of_float af) d_1_0).

(** [f < 0.1 || f > 0.9] *)
Definition mfact_out_of_range (f : spec_float) : bool :=
  SFltb (double_of_float f) d_0_1 || SFltb d_0_9 (double_of_float f).

(** [setmfact(arg)] with [arg->f = af] *)
Definition setmfact (af : spec_float) (wm : WM) : WM :=
  let m := monitor wm (selmon wm) in
  if negb (bool_decide (is_Some (l_arrange (m_lt m (m_sellt m))))) then wm
  else
    let f := setmfact_target af (m_mfact m) in
    if mfact_out_of_range f then wm
    else arrange (Some (selmon wm)) (upd_monitor (selmon wm) (set_m_mfact f) wm).

(** ** Fullscreen *)

(** [setfullscreen(c, fullscreen)] *)
Definition setfullscreen (c : Window) (fullscreen : bool) (wm : WM) : WM :=
  if fullscreen then
    let wm := upd_client c
                (fun cl => set_c_bw 0 (c_bw cl)
                             (set_c_flags true (c_isurgent cl) (c_isfloating cl) true cl))
                wm in
    let m := monitor wm (c_mon (client wm c)) in
    resizeclient c (m_mx m, m_my m, m_mw m, m_mh m) wm
  else
    let wm := upd_client c
                (fun cl => set_c_geom (c_oldx cl) (c_oldy cl) (c_oldw cl) (c_oldh cl)
                             (set_c_bw (c_oldbw cl) (c_oldbw cl)
                                (set_c_flags (c_oldstate cl) (c_isurgent cl)
                                             (c_oldstate cl) false cl)))
                wm in
    let wm := resizeclient c (c_rect (client wm c)) wm in
    arrange (Some (c_mon (client wm c))) wm.

(** [createmon()], with the geometry still zero. *)
Definition createmon : Monitor :=
  {| m_ltsymbol := strncpy16 (l_symbol (layouts !!! 0%nat));
     m_mfact := mfact; m_nmaster := nmaster; m_num := 0;
     m_by := 0; m_mx := 0; m_my := 0; m_mw := 0; m_mh := 0;
     m_wx := 0; m_wy := 0; m_ww := 0; m_wh := 0;
     m_seltags := 0; m_sellt := 0; m_tagset0 := 1; m_tagset1 := 1;
     m_showbar := showbar; m_topbar := topbar;
     m_clients := []; m_sel := None; m_stack := [];
     m_lt0 := layouts !!! 0%nat;
     m_lt1 := layouts !!! (1 mod length layouts)%nat |}.

(** * Auxiliary definitions *)

(** ** What the operations leave alone

    Three views of a state forget what a group of functions may write:
    resizing writes client rectangles; arranging also writes the layout
    symbol; focusing writes [sel], [stack], [selmon] and [isurgent]. *)

Definition erase_geom (c : Client) : Client :=
  set_c_geom 0 0 0 0 (set_c_old 0 0 0 0 c).

Definition erase_urgent (c : Client) : Client := set_c_isurgent false c.

Definition erase_ltsymbol (m : Monitor) : Monitor := set_m_ltsymbol EmptyString m.

Definition erase_focus (m : Monitor) : Monitor := set_m_focus None [] m.

(** Only client rectangles differ. *)
Record heap_frame (wm wm' : WM) : Prop := {
  hf_mons : mons wm' = mons wm;
  hf_selmon : selmon wm' = selmon wm;
  hf_sw : sw wm' = sw wm;
  hf_sh : sh wm' = sh wm;
  hf_bh : bh wm' = bh wm;
  hf_client : forall c, erase_geom (client wm' c) = erase_geom (client wm c)
}.

(** Only client rectangles and layout symbols differ. *)
Record layout_frame (wm wm' : WM) : Prop := {
  lf_length : length (mons wm') = length (mons wm);
  lf_monitor : forall i, erase_ltsymbol (monitor wm' i) = erase_ltsymbol (monitor wm i);
  lf_selmon : selmon wm' = selmon wm;
  lf_sw : sw wm' = sw wm;
  lf_sh : sh wm' = sh wm;
  lf_bh : bh wm' = bh wm;
  lf_client : forall c, erase_geom (client wm' c) = erase_geom (client wm c)
}.

(** Tags, views, hints, monitor geometry and layout selection agree. *)
Record static_frame (wm wm' : WM) : Prop := {
  sf_length : length (mons wm') = length (mons wm);
  sf_monitor : forall i, erase_focus (erase_ltsymbol (monitor wm' i))
                         = erase_focus (erase_ltsymbol (monitor wm i));
  sf_sw : sw wm' = sw wm;
  sf_sh : sh wm' = sh wm;
  sf_bh : bh wm' = bh wm;
  sf_client : forall c, erase_urgent (erase_geom (client wm' c))
                        = erase_urgent (erase_geom (client wm c))
}.

(** [focus] once the client to focus is chosen. *)
Definition focus_chosen (c : option Window) (wm : WM) : WM :=
  match c with
  | Some w =>
      let wm1 := if bool_decide (c_mon (client wm w) = selmon wm) then wm
                 else set_selmon (c_mon (client wm w)) wm in
      let wm2 := if c_isurgent (client wm1 w) then clearurgent w wm1 else wm1 in
      let wm3 := attachstack w (detachstack w wm2) in
      upd_monitor (selmon wm3) (set_m_sel (Some w)) wm3
  | None => upd_monitor (selmon wm) (set_m_sel None) wm
  end.

(** Every client on the focus stack of the selected monitor belongs to
    that monitor (data-model invariant 1 for [selmon]). *)
Definition stack_owned (wm : WM) : Prop :=
  Forall (fun c => c_mon (client wm c) = selmon wm) (m_stack (monitor wm (selmon wm))).

(** ** The value the spec asks of [setmfact] *)

(** The spec's reading of [setmfact]: the target clamped into [0.1, 0.9].
    This follows the spec's sentence, not the source; [setmfact] above is
    the source. *)
Definition spec_clamped_mfact (f : spec_float) : spec_float :=
  if SFltb (double_of_float f) d_0_1 then float_of_double d_0_1
  else if SFltb d_0_9 (double_of_float f) then float_of_double d_0_9
  else f.

(** ** Example states *)

(** A client with the given tags, border and rectangle and no size hints. *)
Definition ex_client (tags bw : Z) (r : Rect) (isfloating : bool) : Client :=
  let '(x, y, w, h) := r in
  set_c_isfloating isfloating
    (set_c_geom x y w h (set_c_bw bw bw (set_c_tags tags zero_client))).

(** A monitor of 1000x700 at the origin without a bar: the monitor of the
    spec's scenarios. *)
Definition ex_monitor (mf : spec_float) (lt : Layout) (seltags ts0 ts1 : Z)
    (cl st : list Window) (sel : option Window) : Monitor :=
  {| m_ltsymbol := l_symbol lt; m_mfact := mf; m_nmaster := 1; m_num := 0;
     m_by := 0; m_mx := 0; m_my := 0; m_mw := 1000; m_mh := 700;
     m_wx := 0; m_wy := 0; m_ww := 1000; m_wh := 700;
     m_seltags := seltags; m_sellt := 0; m_tagset0 := ts0; m_tagset1 := ts1;
     m_showbar := false; m_topbar := true;
     m_clients := cl; m_sel := sel; m_stack := st;
     m_lt0 := lt; m_lt1 := layouts !!! 1%nat |}.

Definition ex_wm (hp : gmap Z Client) (m : Monitor) : WM :=
  {| heap := hp; mons := [m]; selmon := 0%nat; sw := 1000; sh := 700; bh := 0 |}.

Definition tile_layout : Layout := layouts !!! 0%nat.
Definition floating_layout : Layout := layouts !!! 1%nat.
Definition monocle_layout : Layout := layouts !!! 2%nat.

Definition f_0_5 : spec_float := Eval vm_compute in float_of_double d_0_5.

(** Two tiled clients: window 1 on tag 1, window 2 on tag 2; the monitor
    shows tag 1 and remembers tag 2 as the previous view. *)
Definition ex_two_views : WM :=
  ex_wm {[ 1 := ex_client 1 1 (0, 0, 998, 698) false;
           2 := ex_client 2 1 (0, 0, 998, 698) false ]}
        (ex_monitor mfact tile_layout 0 1 2 [1; 2] [1; 2] (Some 1)).

(** Two tiled clients, both on tag 1, window 1 selected. *)
Definition ex_two_tiled : WM :=
  ex_wm {[ 1 := ex_client 1 1 (0, 0, 498, 698) false;
           2 := ex_client 1 1 (500, 0, 498, 698) false ]}
        (ex_monitor mfact tile_layout 0 1 1 [1; 2] [1; 2] (Some 1)).

Definition f_0_55 : spec_float := mfact.

(** [arg->f] of the key bindings and of an absolute request. *)
Definition f_plus_0_5 : spec_float := Eval vm_compute in float_of_double (double_lit 1 2).

(** The spec's monitor with the configured [mfact] and the tile layout. *)
Definition ex_default_mfact : WM :=
  ex_wm {[ 1 := ex_client 1 1 (0, 0, 998, 698) false ]}
        (ex_monitor mfact tile_layout 0 1 1 [1] [1] (Some 1)).

(** A Firefox window about to be managed on a monitor that shows tag 1. *)
Definition ex_firefox : Client :=
  {| c_name := "Mozilla Firefox"; c_mina := f_zero; c_maxa := f_zero;
     c_x := 10; c_y := 10; c_w := 800; c_h := 600;
     c_oldx := 10; c_oldy := 10; c_oldw := 800; c_oldh := 600;
     c_basew := 0; c_baseh := 0; c_incw := 0; c_inch := 0;
     c_maxw := 0; c_maxh := 0; c_minw := 0; c_minh := 0;
     c_bw := 0; c_oldbw := 0; c_tags := 0;
     c_isfixed := false; c_isfloating := false; c_isurgent := false;
     c_neverfocus := false; c_oldstate := false; c_isfullscreen := false;
     c_mon := 0%nat; c_win := 7 |}.

(** ** Size hints that can only enlarge a request *)

(** No aspect limits, no maximum size and no resize increments (an
    increment of 1 is none): what remains are the base and minimum sizes. *)
Definition hints_only_grow (c : Client) : Prop :=
  SFltb f_zero (c_mina c) && SFltb f_zero (c_maxa c) = false
  /\ (c_incw c = 0 \/ c_incw c = 1) /\ (c_inch c = 0 \/ c_inch c = 1)
  /\ c_maxw c = 0 /\ c_maxh c = 0.

(** The guard of the hint block of [applysizehints]. *)
Definition hints_apply (wm : WM) (c : Client) : bool :=
  let m := monitor wm (c_mon c) in
  resizehints || c_isfloating c
  || negb (bool_decide (is_Some (l_arrange (m_lt m (m_sellt m))))).

(** One dimension of [applysizehints] under [hints_only_grow]: the size
    along an axis, and the position along it. *)
Definition size1 (bar : Z) (hints : bool) (min v : Z) : Z :=
  let v1 := MAX 1 v in
  let vb := if v1 <? bar then bar else v1 in
  if hints then MAX vb min else vb.

Definition pos1 (interact : bool) (lo len scr outer bw p v : Z) : Z :=
  let v1 := MAX 1 v in
  if interact then
    let p := if p >? scr then scr - outer else p in
    if p + v1 + 2 * bw <? 0 then 0 else p
  else
    let p := if p >=? lo + len then lo + len - outer else p in
    if p + v1 + 2 * bw <=? lo then lo else p.

(** The rectangle [monocle] asks for client [c] of monitor [mi]. *)
Definition monocle_request (wm : WM) (mi : nat) (c : Window) : Rect :=
  let m := monitor wm mi in
  (m_wx m, m_wy m, m_ww m - 2 * c_bw (client wm c), m_wh m - 2 * c_bw (client wm c)).

(** A terminal-like client: tiled, visible, with resize increments 7x14. *)
Definition ex_terminal : Client :=
  {| c_name := "st"; c_mina := f_zero; c_maxa := f_zero;
     c_x := 0; c_y := 0; c_w := 500; c_h := 300;
     c_oldx := 0; c_oldy := 0; c_oldw := 500; c_oldh := 300;
     c_basew := 0; c_baseh := 0; c_incw := 7; c_inch := 14;
     c_maxw := 0; c_maxh := 0; c_minw := 0; c_minh := 0;
     c_bw := 1; c_oldbw := 1; c_tags := 1;
     c_isfixed := false; c_isfloating := false; c_isurgent := false;
     c_neverfocus := false; c_oldstate := false; c_isfullscreen := false;
     c_mon := 0%nat; c_win := 1 |}.

(** The monocle layout over the terminal alone. *)
Definition ex_monocle_terminal : WM :=
  ex_wm {[ 1 := ex_terminal ]}
        (ex_monitor mfact monocle_layout 0 1 1 [1] [1] (Some 1)).

(** The monocle layout over three hint-free clients (scenario 2). *)
Definition ex_monocle_three : WM :=
  ex_wm {[ 1 := ex_client 1 1 (0, 0, 100, 100) false;
           2 := ex_client 1 1 (10, 10, 200, 100) false;
           3 := ex_client 1 1 (20, 20, 300, 100) false ]}
        (ex_monitor mfact monocle_layout 0 1 1 [1; 2; 3] [1; 2; 3] (Some 1)).

(** A tiled client with resize increments 7x14 and a maximum size of
    500x400, and one whose only hint is a fixed aspect ratio of 1. *)
Definition ex_inc_max : Client :=
  {| c_name := "xterm"; c_mina := f_zero; c_maxa := f_zero;
     c_x := 0; c_y := 0; c_w := 300; c_h := 200;
     c_oldx := 0; c_oldy := 0; c_oldw := 300; c_oldh := 200;
     c_basew := 0; c_baseh := 0; c_incw := 7; c_inch := 14;
     c_maxw := 500; c_maxh := 400; c_minw := 0; c_minh := 0;
     c_bw := 1; c_oldbw := 1; c_tags := 1;
     c_isfixed := false; c_isfloating := false; c_isurgent := false;
     c_neverfocus := false; c_oldstate := false; c_isfullscreen := false;
     c_mon := 0%nat; c_win := 1 |}.

Definition f_1_0 : spec_float := Eval vm_compute in float_of_int 1.

Definition ex_square : Client :=
  {| c_name := "clock"; c_mina := f_1_0; c_maxa := f_1_0;
     c_x := 0; c_y := 0; c_w := 300; c_h := 300;
     c_oldx := 0; c_oldy := 0; c_oldw := 300; c_oldh := 300;
     c_basew := 0; c_baseh := 0; c_incw := 0; c_inch := 0;
     c_maxw := 0; c_maxh := 0; c_minw := 0; c_minh := 0;
     c_bw := 1; c_oldbw := 1; c_tags := 1;
     c_isfixed := false; c_isfloating := false; c_isurgent := false;
     c_neverfocus := false; c_oldstate := false; c_isfullscreen := false;
     c_mon := 0%nat; c_win := 1 |}.

(** A client with a minimum size of 200x100 and base size 20x10 only. *)
Definition ex_min_only : Client :=
  {| c_name := "dialog"; c_mina := f_zero; c_maxa := f_zero;
     c_x := 0; c_y := 0; c_w := 300; c_h := 200;
     c_oldx := 0; c_oldy := 0; c_oldw := 300; c_oldh := 200;
     c_basew := 20; c_baseh := 10; c_incw := 1; c_inch := 1;
     c_maxw := 0; c_maxh := 0; c_minw := 200; c_minh := 100;
     c_bw := 1; c_oldbw := 1; c_tags := 1;
     c_isfixed := false; c_isfloating := false; c_isurgent := false;
     c_neverfocus := false; c_oldstate := false; c_isfullscreen := false;
     c_mon := 0%nat; c_win := 1 |}.

(** A client without size-hint constraints. *)
Definition no_size_hints (c : Client) : Prop :=
  hints_only_grow c
  /\ c_basew c = 0 /\ c_baseh c = 0 /\ c_minw c = 0 /\ c_minh c = 0.

(** A visible tiled client of monitor 0 with border 1 and no hints: the
    clients of scenario 1. *)
Definition plain_tiled (wm : WM) (c : Window) : Prop :=
  ISVISIBLE wm c = true
  /\ c_isfloating (client wm c) = false
  /\ c_bw (client wm c) = 1
  /\ c_mon (client wm c) = 0%nat
  /\ no_size_hints (client wm c).

(** Scenario 1: the 1000x700 monitor with [mfact = 0.5], [nmaster = 1],
    the tile layout, and clients A (window 1) and B (window 2) in list
    order, both with border 1, wherever they were before. *)
Definition ex_tile_scenario : WM :=
  ex_wm {[ 1 := ex_client 1 1 (10, 10, 300, 200) false;
           2 := ex_client 1 1 (40, 40, 640, 480) false ]}
        (ex_monitor f_0_5 tile_layout 0 1 1 [1; 2] [2; 1] (Some 2)).

(** ** Clients that an arrange leaves in place *)

(** The rectangle of the client already is what [applysizehints] makes of
    it, so that [resize] to the own rectangle writes nothing. *)
Definition settled (wm : WM) (c : Window) : Prop :=
  snd (applysizehints wm (client wm c) (c_rect (client wm c)) false)
  = c_rect (client wm c).

(** What the layout pass does not read: the saved rectangle, [oldbw],
    [oldstate] and [isurgent]. *)
Definition erase_saved (c : Client) : Client :=
  set_c_old 0 0 0 0
    (set_c_bw (c_bw c) 0
       (set_c_flags (c_isfloating c) false false (c_isfullscreen c) c)).

(** Two states that differ in those fields only. *)
Record same_live (wm wm' : WM) : Prop := {
  sl_mons : mons wm' = mons wm;
  sl_sw : sw wm' = sw wm;
  sl_sh : sh wm' = sh wm;
  sl_bh : bh wm' = bh wm;
  sl_client : forall c, erase_saved (client wm' c) = erase_saved (client wm c)
}.

(** Scenario 4: client A at (100,100,400,300) with border 1, not floating,
    alone on the 1000x700 monitor, under the given layout. *)
Definition ex_fullscreen_scenario (lt : Layout) : WM :=
  ex_wm {[ 1 := ex_client 1 1 (100, 100, 400, 300) false ]}
        (ex_monitor mfact lt 0 1 1 [1] [1] (Some 1)).

(** * Further functions *)

(** ** Further field assignments *)

Definition set_m_nmaster (n : Z) (m : Monitor) : Monitor :=
  {| m_ltsymbol := m_ltsymbol m; m_mfact := m_mfact m; m_nmaster := n;
     m_num := m_num m; m_by := m_by m; m_mx := m_mx m; m_my := m_my m; m_mw := m_mw m;
     m_mh := m_mh m; m_wx := m_wx m; m_wy := m_wy m; m_ww := m_ww m; m_wh := m_wh m;
     m_seltags := m_seltags m; m_sellt := m_sellt m; m_tagset0 := m_tagset0 m;
     m_tagset1 := m_tagset1 m; m_showbar := m_showbar m; m_topbar := m_topbar m;
     m_clients := m_clients m; m_sel := m_sel m; m_stack := m_stack m;
     m_lt0 := m_lt0 m; m_lt1 := m_lt1 m |}.

Definition set_m_bar (showbar : bool) (by_ wy wh : Z) (m : Monitor) : Monitor :=
  {| m_ltsymbol := m_ltsymbol m; m_mfact := m_mfact m; m_nmaster := m_nmaster m;
     m_num := m_num m; m_by := by_; m_mx := m_mx m; m_my := m_my m; m_mw := m_mw m;
     m_mh := m_mh m; m_wx := m_wx m; m_wy := wy; m_ww := m_ww m; m_wh := wh;
     m_seltags := m_seltags m; m_sellt := m_sellt m; m_tagset0 := m_tagset0 m;
     m_tagset1 := m_tagset1 m; m_showbar := showbar; m_topbar := m_topbar m;
     m_clients := m_clients m; m_sel := m_sel m; m_stack := m_stack m;
     m_lt0 := m_lt0 m; m_lt1 := m_lt1 m |}.

Definition set_m_layout (sellt : Z) (lt0 lt1 : Layout) (m : Monitor) : Monitor :=
  {| m_ltsymbol := m_ltsymbol m; m_mfact := m_mfact m; m_nmaster := m_nmaster m;
     m_num := m_num m; m_by := m_by m; m_mx := m_mx m; m_my := m_my m; m_mw := m_mw m;
     m_mh := m_mh m; m_wx := m_wx m; m_wy := m_wy m; m_ww := m_ww m; m_wh := m_wh m;
     m_seltags := m_seltags m; m_sellt := sellt; m_tagset0 := m_tagset0 m;
     m_tagset1 := m_tagset1 m; m_showbar := m_showbar m; m_topbar := m_topbar m;
     m_clients := m_clients m; m_sel := m_sel m; m_stack := m_stack m; m_lt0 := lt0;
     m_lt1 := lt1 |}.

(** [m->lt[i] = l] *)
Definition set_m_lt (i : Z) (l : Layout) (m : Monitor) : Monitor :=
  if i =? 0 then set_m_layout (m_sellt m) l (m_lt1 m) m
  else set_m_layout (m_sellt m) (m_lt0 m) l m.

#[global] Instance ArrangeFn_eq_dec : EqDecision ArrangeFn.
Proof. solve_decision. Defined.

#[global] Instance Layout_eq_dec : EqDecision Layout.
Proof. solve_decision. Defined.

(** ** Master count, bar and layout selection *)

(** [incnmaster(arg)] with [arg->i = i] *)
Definition incnmaster (i : Z) (wm : WM) : WM :=
  let wm := upd_monitor (selmon wm)
              (fun m => set_m_nmaster (MAX (m_nmaster m + i) 0) m) wm in
  arrange (Some (selmon wm)) wm.

(** [updatebarpos(m)]; [bh] is the global bar height. *)
Definition updatebarpos (bh : Z) (m : Monitor) : Monitor :=
  let wy := m_my m in
  let wh := m_mh m in
  if m_showbar m then
    let wh := wh - bh in
    let by_ := if m_topbar m then wy else wy + wh in
    let wy := if m_topbar m then wy + bh else wy in
    set_m_bar (m_showbar m) by_ wy wh m
  else set_m_bar (m_showbar m) (- bh) wy wh m.

(** [togglebar(arg)]; the bar window is moved on the server. *)
Definition togglebar (wm : WM) : WM :=
  let wm := upd_monitor (selmon wm)
              (fun m => set_m_bar (negb (m_showbar m)) (m_by m) (m_wy m) (m_wh m) m)
              wm in
  let wm := upd_monitor (selmon wm) (updatebarpos (bh wm)) wm in
  arrange (Some (selmon wm)) wm.

(** [setlayout(arg)]; [v] is [arg->v], [None] for a null [arg] or a null
    [arg->v].  A layout pointer is the table entry it points to: the
    entries of [layouts] are pairwise different, so that comparing entries
    is comparing pointers.  Without a selected client the function only
    redraws the bar. *)
Definition setlayout (v : option Layout) (wm : WM) : WM :=
  let wm :=
    upd_monitor (selmon wm)
      (fun m =>
         let same := match v with
                     | Some l => bool_decide (l = m_lt m (m_sellt m))
                     | None => false
                     end in
         if same then m
         else set_m_layout (Z.lxor (m_sellt m) 1) (m_lt0 m) (m_lt1 m) m)
      wm in
  let wm := match v with
            | Some l => upd_monitor (selmon wm) (fun m => set_m_lt (m_sellt m) l m) wm
            | None => wm
            end in
  let wm := upd_monitor (selmon wm)
              (fun m => set_m_ltsymbol (strncpy16 (l_symbol (m_lt m (m_sellt m)))) m)
              wm in
  match m_sel (monitor wm (selmon wm)) with
  | Some _ => arrange (Some (selmon wm)) wm
  | None => wm
  end.

(** [togglefloating(arg)] *)
Definition togglefloating (wm : WM) : WM :=
  match m_sel (monitor wm (selmon wm)) with
  | None => wm
  | Some s =>
      if c_isfullscreen (client wm s) then wm
      else
        let wm := upd_client s
                    (fun cl => set_c_isfloating (negb (c_isfloating cl) || c_isfixed cl) cl)
                    wm in
        let wm := if c_isfloating (client wm s)
                  then resize s (c_rect (client wm s)) false wm else wm in
        arrange (Some (selmon wm)) wm
  end.

(** ** Well-formed tag sets *)

(** A tag set that is not empty and names configured tags only. *)
Definition tags_ok (t : Z) : Prop := t <> 0 /\ Z.land t TAGMASK = t.

(** Both view slots of a monitor hold such a tag set. *)
Definition view_ok (m : Monitor) : Prop :=
  tags_ok (m_tagset0 m) /\ tags_ok (m_tagset1 m).

(** The spec's monitor with a bar of height 16 on top, placed by
    [updatebarpos], and one tiled client. *)
Definition ex_bar : WM :=
  {| heap := {[ 1 := ex_client 1 1 (0, 16, 998, 682) false ]};
     mons := [updatebarpos 16
                (set_m_bar true 0 0 0
                   (ex_monitor mfact tile_layout 0 1 1 [1] [1] (Some 1)))];
     selmon := 0%nat; sw := 1000; sh := 700; bh := 16 |}.

(** [m->num = num; m->mx = m->wx = x; m->my = m->wy = y; m->mw = m->ww = w;
    m->mh = m->wh = h;] *)
Definition set_m_geom (num x y w h : Z) (m : Monitor) : Monitor :=
  {| m_ltsymbol := m_ltsymbol m; m_mfact := m_mfact m; m_nmaster := m_nmaster m;
     m_num := num; m_by := m_by m; m_mx := x; m_my := y; m_mw := w; m_mh := h;
     m_wx := x; m_wy := y; m_ww := w; m_wh := h; m_seltags := m_seltags m;
     m_sellt := m_sellt m; m_tagset0 := m_tagset0 m; m_tagset1 := m_tagset1 m;
     m_showbar := m_showbar m; m_topbar := m_topbar m; m_clients := m_clients m;
     m_sel := m_sel m; m_stack := m_stack m; m_lt0 := m_lt0 m; m_lt1 := m_lt1 m |}.

(** ** Monitors under a rectangle and next to the selected one *)

(** [INTERSECT(x,y,w,h,m)] *)
Definition INTERSECT (x y w h : Z) (m : Monitor) : Z :=
  MAX 0 (MIN (x + w) (m_wx m + m_ww m) - MAX x (m_wx m))
  * MAX 0 (MIN (y + h) (m_wy m + m_wh m) - MAX y (m_wy m)).

(** The loop of [recttomon] over the monitors from position [i] on; [r]
    and [area] are the locals. *)
Fixpoint recttomon_loop (x y w h : Z) (ms : list Monitor) (i r : nat) (area : Z)
    : nat :=
  match ms with
  | [] => r
  | m :: ms' =>
      let a := INTERSECT x y w h m in
      if a >? area then recttomon_loop x y w h ms' (S i) i a
      else recttomon_loop x y w h ms' (S i) r area
  end.

(** [recttomon(x, y, w, h)] *)
Definition recttomon (x y w h : Z) (wm : WM) : nat :=
  recttomon_loop x y w h (mons wm) 0 (selmon wm) 0.

(** [dirtomon(dir)]: the successor of [selmon] in [mons], wrapping to the
    head, or its predecessor, wrapping to the last monitor.  The search for
    the predecessor assumes that [selmon] is in the list. *)
Definition dirtomon (dir : Z) (wm : WM) : nat :=
  if dir >? 0 then
    if bool_decide (S (selmon wm) < length (mons wm))%nat then S (selmon wm) else 0%nat
  else if bool_decide (selmon wm = 0%nat) then (length (mons wm) - 1)%nat
  else (selmon wm - 1)%nat.

(** [focusmon(arg)]; [!mons->next] is a list of one monitor ([mons] is not
    empty once [setup] has run). *)
Definition focusmon (i : Z) (wm : WM) : WM :=
  if bool_decide (length (mons wm) <= 1)%nat then wm
  else
    let m := dirtomon i wm in
    if bool_decide (m = selmon wm) then wm
    else
      let wm := unfocus (m_sel (monitor wm (selmon wm))) false wm in
      focus None (set_selmon m wm).

(** ** Moving clients in the lists *)

(** [pop(c)] *)
Definition pop (c : Window) (wm : WM) : WM :=
  let wm := detach c wm in
  let wm := attach c wm in
  let wm := focus (Some c) wm in
  arrange (Some (c_mon (client wm c))) wm.

(** [zoom(arg)].  With no selected client and a tiled client in the list
    the function reaches [pop(NULL)], which dereferences the null pointer:
    the result is [None]. *)
Definition zoom (wm : WM) : option WM :=
  let m := monitor wm (selmon wm) in
  let sel_floating := match m_sel m with
                      | Some s => c_isfloating (client wm s)
                      | None => false
                      end in
  if negb (bool_decide (is_Some (l_arrange (m_lt m (m_sellt m))))) || sel_floating
  then Some wm
  else
    match m_sel m, nexttiled wm (m_clients m) with
    | Some c, t :: rest =>
        if t =? c then
          match nexttiled wm rest with
          | c' :: _ => Some (pop c' wm)
          | [] => Some wm
          end
        else Some (pop c wm)
    | Some c, [] => Some (pop c wm)
    | None, [] => Some wm
    | None, _ :: _ => None
    end.




(** [sendmon(c, m)] *)
Definition sendmon (c : Window) (m : nat) (wm : WM) : WM :=
  if bool_decide (c_mon (client wm c) = m) then wm
  else
    let wm := unfocus (Some c) true wm in
    let wm := detach c wm in
    let wm := detachstack c wm in
    let wm := upd_client c (set_c_mon m) wm in
    let wm := upd_client c
                (set_c_tags (m_tagset (monitor wm m) (m_seltags (monitor wm m)))) wm in
    let wm := attach c wm in
    let wm := attachstack c wm in
    let wm := focus None wm in
    arrange None wm.

(** [tagmon(arg)] *)
Definition tagmon (i : Z) (wm : WM) : WM :=
  match m_sel (monitor wm (selmon wm)) with
  | None => wm
  | Some s =>
      if bool_decide (length (mons wm) <= 1)%nat then wm
      else sendmon s (dirtomon i wm) wm
  end.

(** [unmanage(c, destroyed)]: [free(c)] takes the record off the heap; the
    border and the client state are restored on the server. *)
Definition unmanage (c : Window) (destroyed : bool) (wm : WM) : WM :=
  let m := c_mon (client wm c) in
  let wm := detach c wm in
  let wm := detachstack c wm in
  let wm := set_heap (delete c (heap wm)) wm in
  let wm := focus None wm in
  arrange (Some m) wm.

(** [wintoclient(w)]: the monitors in order, the clients of each in order. *)
Definition wintoclient (w : Window) (wm : WM) : option Window :=
  find (fun c => c_win (client wm c) =? w) (concat (map m_clients (mons wm))).

(** ** Ownership of the focus stacks *)

(** Every client on the focus stack of monitor [i] belongs to it. *)
Definition stack_owned_at (wm : WM) (i : nat) : Prop :=
  Forall (fun c => c_mon (client wm c) = i) (m_stack (monitor wm i)).

(** Two monitors of the spec's kind side by side: window 1 on the first,
    window 2 on the second, the first selected. *)
Definition ex_two_monitors : WM :=
  {| heap := {[ 1 := ex_client 1 1 (0, 0, 998, 698) false;
                2 := set_c_mon 1 (ex_client 1 1 (1000, 0, 998, 698) false) ]};
     mons := [ ex_monitor mfact tile_layout 0 1 1 [1] [1] (Some 1);
               set_m_geom 1 1000 0 1000 700
                 (ex_monitor mfact tile_layout 0 1 1 [2] [2] (Some 2)) ];
     selmon := 0%nat; sw := 2000; sh := 700; bh := 0 |}.

(** Case analysis on the conditionals of a goal, innermost first; [lia]
    reads the recorded comparisons. *)
Ltac case_zbool :=
  repeat match goal with
    | |- context [if ?c then _ else _] =>
        lazymatch c with
        | context [if _ then _ else _] => fail
        | _ => destruct c eqn:?
        end
    end.

(** * Properties *)

(** ** Reading and writing the state *)

Lemma client_upd_client (c c' : Window) (f : Client -> Client) (wm : WM) :
  client (upd_client c f wm) c' = if decide (c = c') then f (client wm c) else client wm c'.
Proof.
  unfold client, upd_client; simpl.
  destruct (decide (c = c')) as [->|Hne].
  - by rewrite lookup_total_insert_eq.
  - by rewrite lookup_total_insert_ne.
Qed.

Lemma client_upd_client_eq (c : Window) (f : Client -> Client) (wm : WM) :
  client (upd_client c f wm) c = f (client wm c).
Proof. rewrite client_upd_client. by rewrite decide_True. Qed.

Lemma client_upd_client_ne (c c' : Window) (f : Client -> Client) (wm : WM) :
  c <> c' -> client (upd_client c f wm) c' = client wm c'.
Proof. intros. rewrite client_upd_client. by rewrite decide_False. Qed.

Lemma monitor_upd_client (c : Window) (f : Client -> Client) (wm : WM) (i : nat) :
  monitor (upd_client c f wm) i = monitor wm i.
Proof. reflexivity. Qed.

Lemma client_upd_monitor (i : nat) (f : Monitor -> Monitor) (wm : WM) (c : Window) :
  client (upd_monitor i f wm) c = client wm c.
Proof. reflexivity. Qed.

Lemma monitor_upd_monitor_eq (i : nat) (f : Monitor -> Monitor) (wm : WM) :
  (i < length (mons wm))%nat -> monitor (upd_monitor i f wm) i = f (monitor wm i).
Proof. intros. unfold monitor, upd_monitor; simpl. by rewrite list_lookup_total_insert_eq. Qed.

Lemma monitor_upd_monitor_ne (i j : nat) (f : Monitor -> Monitor) (wm : WM) :
  i <> j -> monitor (upd_monitor i f wm) j = monitor wm j.
Proof. intros. unfold monitor, upd_monitor; simpl. by rewrite list_lookup_total_insert_ne. Qed.

Lemma monitor_upd_monitor_ge (i j : nat) (f : Monitor -> Monitor) (wm : WM) :
  (length (mons wm) <= i)%nat -> monitor (upd_monitor i f wm) j = monitor wm j.
Proof. intros. unfold monitor, upd_monitor; simpl. by rewrite list_insert_ge. Qed.

Lemma length_mons_upd_monitor (i : nat) (f : Monitor -> Monitor) (wm : WM) :
  length (mons (upd_monitor i f wm)) = length (mons wm).
Proof. unfold upd_monitor; simpl. apply length_insert. Qed.

(** A write through a monitor pointer changes the monitor by [f] or, for a
    pointer outside [mons], nothing. *)
Lemma monitor_upd_monitor_cases (i j : nat) (f : Monitor -> Monitor) (wm : WM) :
  monitor (upd_monitor i f wm) j = monitor wm j
  \/ (j = i /\ monitor (upd_monitor i f wm) j = f (monitor wm i)).
Proof.
  destruct (decide (i = j)) as [->|Hne].
  - destruct (decide (j < length (mons wm))%nat).
    + right. split; [done|]. by apply monitor_upd_monitor_eq.
    + left. apply monitor_upd_monitor_ge. lia.
  - left. by apply monitor_upd_monitor_ne.
Qed.

Lemma heap_frame_refl (wm : WM) : heap_frame wm wm.
Proof. by split. Qed.

Lemma heap_frame_trans (a b c : WM) : heap_frame a b -> heap_frame b c -> heap_frame a c.
Proof.
  intros [] []; split; try congruence.
  all: intros w; etrans; eauto.
Qed.

Lemma layout_frame_refl (wm : WM) : layout_frame wm wm.
Proof. by split. Qed.

Lemma layout_frame_trans (a b c : WM) :
  layout_frame a b -> layout_frame b c -> layout_frame a c.
Proof.
  intros [] []; split; try congruence.
  all: intros w; etrans; eauto.
Qed.

Lemma static_frame_refl (wm : WM) : static_frame wm wm.
Proof. by split. Qed.

Lemma static_frame_trans (a b c : WM) :
  static_frame a b -> static_frame b c -> static_frame a c.
Proof.
  intros [] []; split; try congruence.
  all: intros w; etrans; eauto.
Qed.

Lemma heap_frame_layout (wm wm' : WM) : heap_frame wm wm' -> layout_frame wm wm'.
Proof.
  intros [Hm ? ? ? ? ?]; split; try done.
  all: try (intros i; unfold monitor); by rewrite Hm.
Qed.

Lemma layout_frame_static (wm wm' : WM) : layout_frame wm wm' -> static_frame wm wm'.
Proof.
  intros [? Hm ? ? ? ? Hc]; split; try done.
  - intros i. exact (f_equal erase_focus (Hm i)).
  - intros c. exact (f_equal erase_urgent (Hc c)).
Qed.

Lemma heap_frame_static (wm wm' : WM) : heap_frame wm wm' -> static_frame wm wm'.
Proof. intros. by apply layout_frame_static, heap_frame_layout. Qed.

(** Field-wise readings of the frames. *)

Lemma static_frame_tags (wm wm' : WM) (c : Window) :
  static_frame wm wm' -> c_tags (client wm' c) = c_tags (client wm c).
Proof. intros [_ _ _ _ _ H]. exact (f_equal c_tags (H c)). Qed.

Lemma static_frame_mon (wm wm' : WM) (c : Window) :
  static_frame wm wm' -> c_mon (client wm' c) = c_mon (client wm c).
Proof. intros [_ _ _ _ _ H]. exact (f_equal c_mon (H c)). Qed.

Lemma static_frame_isfloating (wm wm' : WM) (c : Window) :
  static_frame wm wm' -> c_isfloating (client wm' c) = c_isfloating (client wm c).
Proof. intros [_ _ _ _ _ H]. exact (f_equal c_isfloating (H c)). Qed.

Lemma static_frame_seltags (wm wm' : WM) (i : nat) :
  static_frame wm wm' -> m_seltags (monitor wm' i) = m_seltags (monitor wm i).
Proof. intros [_ H _ _ _ _]. exact (f_equal m_seltags (H i)). Qed.

Lemma static_frame_tagset0 (wm wm' : WM) (i : nat) :
  static_frame wm wm' -> m_tagset0 (monitor wm' i) = m_tagset0 (monitor wm i).
Proof. intros [_ H _ _ _ _]. exact (f_equal m_tagset0 (H i)). Qed.

Lemma static_frame_tagset1 (wm wm' : WM) (i : nat) :
  static_frame wm wm' -> m_tagset1 (monitor wm' i) = m_tagset1 (monitor wm i).
Proof. intros [_ H _ _ _ _]. exact (f_equal m_tagset1 (H i)). Qed.

Lemma static_frame_tagset (wm wm' : WM) (i : nat) (k : Z) :
  static_frame wm wm' -> m_tagset (monitor wm' i) k = m_tagset (monitor wm i) k.
Proof.
  intros H. unfold m_tagset.
  by rewrite (static_frame_tagset0 _ _ i H), (static_frame_tagset1 _ _ i H).
Qed.

Lemma static_frame_mfact (wm wm' : WM) (i : nat) :
  static_frame wm wm' -> m_mfact (monitor wm' i) = m_mfact (monitor wm i).
Proof. intros [_ H _ _ _ _]. exact (f_equal m_mfact (H i)). Qed.

Lemma static_frame_ISVISIBLE (wm wm' : WM) (c : Window) :
  static_frame wm wm' -> ISVISIBLE wm' c = ISVISIBLE wm c.
Proof.
  intros H. unfold ISVISIBLE.
  rewrite (static_frame_tags _ _ c H), (static_frame_mon _ _ c H).
  by rewrite (static_frame_seltags _ _ _ H), (static_frame_tagset _ _ _ _ H).
Qed.

Lemma static_frame_istiled (wm wm' : WM) (c : Window) :
  static_frame wm wm' -> istiled wm' c = istiled wm c.
Proof.
  intros H. unfold istiled.
  by rewrite (static_frame_ISVISIBLE _ _ c H), (static_frame_isfloating _ _ c H).
Qed.

Lemma static_frame_first_visible (wm wm' : WM) (l : list Window) :
  static_frame wm wm' -> first_visible wm' l = first_visible wm l.
Proof.
  intros H. induction l as [|t l IH]; simpl; [done|].
  by rewrite (static_frame_ISVISIBLE _ _ t H), IH.
Qed.

Lemma static_frame_count_visible (wm wm' : WM) (l : list Window) :
  static_frame wm wm' -> count_visible wm' l = count_visible wm l.
Proof.
  intros H. induction l as [|t l IH]; simpl; [done|].
  by rewrite (static_frame_ISVISIBLE _ _ t H), IH.
Qed.

(** [applysizehints] reads the monitor rectangle, the layout and the screen
    size, none of which resizing or focusing writes. *)
Lemma static_frame_applysizehints (wm wm' : WM) (c : Client) (r : Rect) (b : bool) :
  static_frame wm wm' -> applysizehints wm' c r b = applysizehints wm c r b.
Proof.
  intros [_ Hm Hsw Hsh Hbh _]. specialize (Hm (c_mon c)).
  unfold applysizehints. destruct r as [[[x y] w] h].
  rewrite Hsw, Hsh, Hbh. unfold m_lt.
  pose proof (f_equal m_wx Hm : m_wx (monitor wm' _) = m_wx (monitor wm _)) as ->.
  pose proof (f_equal m_wy Hm : m_wy (monitor wm' _) = m_wy (monitor wm _)) as ->.
  pose proof (f_equal m_ww Hm : m_ww (monitor wm' _) = m_ww (monitor wm _)) as ->.
  pose proof (f_equal m_wh Hm : m_wh (monitor wm' _) = m_wh (monitor wm _)) as ->.
  pose proof (f_equal m_sellt Hm : m_sellt (monitor wm' _) = m_sellt (monitor wm _)) as ->.
  pose proof (f_equal m_lt0 Hm : m_lt0 (monitor wm' _) = m_lt0 (monitor wm _)) as ->.
  pose proof (f_equal m_lt1 Hm : m_lt1 (monitor wm' _) = m_lt1 (monitor wm _)) as ->.
  done.
Qed.

(** ** Frames of the individual functions *)

Lemma resizeclient_heap_frame (c : Window) (r : Rect) (wm : WM) :
  heap_frame wm (resizeclient c r wm).
Proof.
  destruct r as [[[x y] w] h]. split; try done.
  intros c'. unfold resizeclient. rewrite client_upd_client.
  by case_decide; subst.
Qed.

Lemma resize_heap_frame (c : Window) (r : Rect) (b : bool) (wm : WM) :
  heap_frame wm (resize c r b wm).
Proof.
  unfold resize. destruct (applysizehints wm (client wm c) r b) as [[] r'].
  - apply resizeclient_heap_frame.
  - apply heap_frame_refl.
Qed.

Lemma showhide_heap_frame (l : list Window) (wm : WM) :
  heap_frame wm (showhide l wm).
Proof.
  revert wm. induction l as [|c l IH]; intros wm; simpl.
  - apply heap_frame_refl.
  - destruct (ISVISIBLE wm c); [|apply IH].
    match goal with |- context [if ?b then _ else _] => destruct b end.
    + eapply heap_frame_trans; [apply resize_heap_frame | apply IH].
    + apply IH.
Qed.

Lemma tile_loop_heap_frame (mi : nat) (n mw : Z) (l : list Window) (i my ty : Z) (wm : WM) :
  heap_frame wm (tile_loop mi n mw l i my ty wm).
Proof.
  revert i my ty wm. induction l as [|c l IH]; intros i my ty wm; simpl.
  - apply heap_frame_refl.
  - destruct (istiled wm c); [|apply IH].
    destruct (i <? to_uint (m_nmaster (monitor wm mi)));
      (eapply heap_frame_trans; [apply resize_heap_frame | apply IH]).
Qed.

Lemma tile_heap_frame (mi : nat) (wm : WM) : heap_frame wm (tile mi wm).
Proof.
  unfold tile. destruct (_ =? 0).
  - apply heap_frame_refl.
  - apply tile_loop_heap_frame.
Qed.

Lemma monocle_loop_heap_frame (mi : nat) (l : list Window) (wm : WM) :
  heap_frame wm (monocle_loop mi l wm).
Proof.
  revert wm. induction l as [|c l IH]; intros wm; simpl.
  - apply heap_frame_refl.
  - destruct (istiled wm c); [|apply IH].
    eapply heap_frame_trans; [apply resize_heap_frame | apply IH].
Qed.

Lemma set_ltsymbol_layout_frame (mi : nat) (s : string) (wm : WM) :
  layout_frame wm (upd_monitor mi (set_m_ltsymbol s) wm).
Proof.
  split; try done.
  - apply length_mons_upd_monitor.
  - intros i. destruct (monitor_upd_monitor_cases mi i (set_m_ltsymbol s) wm)
      as [->|[-> ->]]; done.
Qed.

Lemma monocle_layout_frame (mi : nat) (wm : WM) : layout_frame wm (monocle mi wm).
Proof.
  unfold monocle. eapply layout_frame_trans;
    [|apply heap_frame_layout, monocle_loop_heap_frame].
  destruct (_ >? 0).
  - apply set_ltsymbol_layout_frame.
  - apply layout_frame_refl.
Qed.

Lemma arrangemon_layout_frame (mi : nat) (wm : WM) : layout_frame wm (arrangemon mi wm).
Proof.
  unfold arrangemon.
  eapply layout_frame_trans; [apply set_ltsymbol_layout_frame|].
  destruct (l_arrange _) as [[]|].
  - apply heap_frame_layout, tile_heap_frame.
  - apply monocle_layout_frame.
  - apply layout_frame_refl.
Qed.

Lemma fold_left_layout_frame (f : WM -> nat -> WM) (l : list nat) (wm : WM) :
  (forall wm i, layout_frame wm (f wm i)) -> layout_frame wm (fold_left f l wm).
Proof.
  intros Hf. revert wm. induction l as [|i l IH]; intros wm; simpl.
  - apply layout_frame_refl.
  - eapply layout_frame_trans; [apply Hf | apply IH].
Qed.

Lemma arrange_layout_frame (m : option nat) (wm : WM) : layout_frame wm (arrange m wm).
Proof.
  destruct m as [mi|]; simpl.
  - unfold restack. eapply layout_frame_trans;
      [apply heap_frame_layout, showhide_heap_frame | apply arrangemon_layout_frame].
  - eapply layout_frame_trans; apply fold_left_layout_frame; intros.
    + apply heap_frame_layout, showhide_heap_frame.
    + apply arrangemon_layout_frame.
Qed.

(** ** Focus *)

Lemma focus_None_eq (wm : WM) :
  focus None wm
  = focus_chosen (first_visible wm (m_stack (monitor wm (selmon wm)))) wm.
Proof.
  unfold focus, focus_chosen, unfocus.
  destruct (first_visible wm _) as [t|];
    destruct (m_sel (monitor wm (selmon wm))) as [s|]; try done;
    by destruct (bool_decide (Some s = _)).
Qed.

Lemma focus_Some_eq (w : Window) (wm : WM) :
  focus (Some w) wm
  = focus_chosen (if ISVISIBLE wm w then Some w
                  else first_visible wm (m_stack (monitor wm (selmon wm)))) wm.
Proof.
  unfold focus, focus_chosen, unfocus.
  destruct (ISVISIBLE wm w); [|destruct (first_visible wm _) as [t|]];
    destruct (m_sel (monitor wm (selmon wm))) as [s|]; try done;
    by destruct (bool_decide (Some s = _)).
Qed.

Lemma upd_monitor_static_frame (i : nat) (f : Monitor -> Monitor) (wm : WM) :
  (forall m, erase_focus (erase_ltsymbol (f m)) = erase_focus (erase_ltsymbol m)) ->
  static_frame wm (upd_monitor i f wm).
Proof.
  intros Hf. split; try done.
  - apply length_mons_upd_monitor.
  - intros j. destruct (monitor_upd_monitor_cases i j f wm) as [->|[-> ->]]; [done|].
    apply Hf.
Qed.

Lemma set_selmon_static_frame (i : nat) (wm : WM) : static_frame wm (set_selmon i wm).
Proof. by split. Qed.

Lemma clearurgent_static_frame (c : Window) (wm : WM) : static_frame wm (clearurgent c wm).
Proof.
  split; try done. intros c'. unfold clearurgent. rewrite client_upd_client.
  by case_decide; subst.
Qed.

Lemma detachstack_static_frame (c : Window) (wm : WM) : static_frame wm (detachstack c wm).
Proof.
  unfold detachstack.
  destruct (bool_decide _); [eapply static_frame_trans|];
    by apply upd_monitor_static_frame.
Qed.

Lemma attachstack_static_frame (c : Window) (wm : WM) : static_frame wm (attachstack c wm).
Proof. by apply upd_monitor_static_frame. Qed.

Lemma focus_chosen_static_frame (c : option Window) (wm : WM) :
  static_frame wm (focus_chosen c wm).
Proof.
  destruct c as [w|]; simpl; [|by apply upd_monitor_static_frame].
  eapply static_frame_trans; [|by apply upd_monitor_static_frame].
  eapply static_frame_trans; [|apply attachstack_static_frame].
  eapply static_frame_trans; [|apply detachstack_static_frame].
  eapply static_frame_trans;
    [|destruct (c_isurgent _); [apply clearurgent_static_frame|apply static_frame_refl]].
  destruct (bool_decide (c_mon (client wm w) = selmon wm));
    [apply static_frame_refl|apply set_selmon_static_frame].
Qed.

Lemma focus_static_frame (c : option Window) (wm : WM) : static_frame wm (focus c wm).
Proof.
  destruct c as [w|]; rewrite ?focus_None_eq, ?focus_Some_eq;
    apply focus_chosen_static_frame.
Qed.

Lemma arrange_static_frame (m : option nat) (wm : WM) : static_frame wm (arrange m wm).
Proof. apply layout_frame_static, arrange_layout_frame. Qed.

Lemma first_visible_elem (wm : WM) (l : list Window) (w : Window) :
  first_visible wm l = Some w -> w ∈ l /\ ISVISIBLE wm w = true.
Proof.
  induction l as [|t l IH]; simpl; [done|].
  destruct (ISVISIBLE wm t) eqn:Hv.
  - intros [= ->]. split; [left|done].
  - intros H. destruct (IH H). split; [by right|done].
Qed.

Lemma unlink_subseteq (c : Window) (l : list Window) : unlink c l ⊆ l.
Proof.
  induction l as [|t l IH]; simpl; [done|].
  destruct (t =? c).
  - by apply list_subseteq_cons.
  - intros x [->|Hx]%elem_of_cons; [left|right; by apply IH].
Qed.

(** Selecting from the own stack keeps [selmon]. *)
Lemma focus_None_selmon (wm : WM) :
  stack_owned wm -> selmon (focus None wm) = selmon wm.
Proof.
  intros Hown. rewrite focus_None_eq.
  destruct (first_visible wm _) as [w|] eqn:Hfv; simpl; [|done].
  apply first_visible_elem in Hfv as [Hin _].
  unfold stack_owned in Hown. rewrite Forall_forall in Hown.
  rewrite bool_decide_true by (by apply Hown).
  unfold attachstack, detachstack.
  destruct (c_isurgent _); simpl;
    by match goal with |- context [bool_decide ?P] => destruct (bool_decide P) end.
Qed.

Lemma stack_owned_preserved (wm wm' : WM) :
  selmon wm' = selmon wm ->
  m_stack (monitor wm' (selmon wm)) ⊆ m_stack (monitor wm (selmon wm)) ->
  (forall c, c_mon (client wm' c) = c_mon (client wm c)) ->
  stack_owned wm -> stack_owned wm'.
Proof.
  unfold stack_owned. intros Hsel Hsub Hmon. rewrite !Forall_forall.
  intros Hown c Hc. rewrite Hsel in *. rewrite Hmon. by apply Hown, Hsub.
Qed.

(** The monitor of the focused client after [focus_chosen]: the client is
    moved to the top of the stack and selected. *)
Lemma focus_chosen_own (w : Window) (wm : WM) :
  c_mon (client wm w) = selmon wm ->
  (selmon wm < length (mons wm))%nat ->
  selmon (focus_chosen (Some w) wm) = selmon wm
  /\ monitor (focus_chosen (Some w) wm) (selmon wm)
     = set_m_focus (Some w) (w :: unlink w (m_stack (monitor wm (selmon wm))))
                   (monitor wm (selmon wm)).
Proof.
  intros Hmon Hlt. unfold focus_chosen.
  rewrite bool_decide_true by done.
  set (wm2 := if c_isurgent (client wm w) then clearurgent w wm else wm).
  assert (Hmons : mons wm2 = mons wm) by (subst wm2; by destruct (c_isurgent _)).
  assert (Hsel : selmon wm2 = selmon wm) by (subst wm2; by destruct (c_isurgent _)).
  assert (Hcm : c_mon (client wm2 w) = selmon wm).
  { subst wm2. destruct (c_isurgent _); [|done].
    unfold clearurgent. by rewrite client_upd_client_eq. }
  assert (Hm2 : monitor wm2 (selmon wm) = monitor wm (selmon wm))
    by (unfold monitor; by rewrite Hmons).
  assert (Hlt2 : (selmon wm < length (mons wm2))%nat) by (by rewrite Hmons).
  clearbody wm2.
  set (wm3 := detachstack w wm2).
  assert (Hd : selmon wm3 = selmon wm
               /\ (selmon wm < length (mons wm3))%nat
               /\ c_mon (client wm3 w) = selmon wm
               /\ erase_focus (monitor wm3 (selmon wm)) = erase_focus (monitor wm (selmon wm))
               /\ m_stack (monitor wm3 (selmon wm)) = unlink w (m_stack (monitor wm (selmon wm)))).
  { subst wm3. unfold detachstack. rewrite Hcm.
    set (wma := upd_monitor (selmon wm) _ wm2).
    assert (Hma : monitor wma (selmon wm)
                  = set_m_stack (unlink w (m_stack (monitor wm (selmon wm))))
                                (monitor wm (selmon wm))).
    { subst wma. rewrite monitor_upd_monitor_eq by done. by rewrite Hm2. }
    assert (Hla : (selmon wm < length (mons wma))%nat).
    { subst wma. by rewrite length_mons_upd_monitor. }
    destruct (bool_decide _).
    - rewrite length_mons_upd_monitor, monitor_upd_monitor_eq by done.
      rewrite Hma. repeat split; try done.
    - rewrite Hma. repeat split; try done. }
  destruct Hd as (Hs3 & Hl3 & Hc3 & He3 & Hst3). clearbody wm3.
  unfold attachstack. rewrite Hc3. simpl. rewrite Hs3. split; [done|].
  rewrite monitor_upd_monitor_eq by (by rewrite length_mons_upd_monitor).
  rewrite monitor_upd_monitor_eq by done.
  unfold set_m_sel, set_m_stack. simpl. rewrite Hst3.
  apply (f_equal (set_m_focus (Some w) (w :: unlink w (m_stack (monitor wm (selmon wm))))))
    in He3. exact He3.
Qed.

Lemma focus_None_sel (wm : WM) :
  stack_owned wm ->
  (selmon wm < length (mons wm))%nat ->
  m_sel (monitor (focus None wm) (selmon wm))
  = first_visible wm (m_stack (monitor wm (selmon wm))).
Proof.
  intros Hown Hlt. rewrite focus_None_eq.
  destruct (first_visible wm _) as [w|] eqn:Hfv.
  - apply first_visible_elem in Hfv as [Hin _].
    unfold stack_owned in Hown. rewrite Forall_forall in Hown.
    destruct (focus_chosen_own w wm (Hown _ Hin) Hlt) as [_ ->]. done.
  - simpl. by rewrite monitor_upd_monitor_eq.
Qed.

Lemma focus_None_stack_owned (wm : WM) : stack_owned wm -> stack_owned (focus None wm).
Proof.
  intros Hown. apply (stack_owned_preserved wm); try done.
  - by apply focus_None_selmon.
  - destruct (decide (selmon wm < length (mons wm))%nat) as [Hlt|Hge].
    + rewrite focus_None_eq.
      destruct (first_visible wm _) as [w|] eqn:Hfv.
      * apply first_visible_elem in Hfv as [Hin _].
        pose proof Hown as Hown'. unfold stack_owned in Hown'.
        rewrite Forall_forall in Hown'.
        destruct (focus_chosen_own w wm (Hown' _ Hin) Hlt) as [_ ->]. simpl.
        intros x [->|Hx]%elem_of_cons; [done|]. by apply unlink_subseteq in Hx.
      * simpl. by rewrite monitor_upd_monitor_eq.
    + pose proof (sf_length _ _ (focus_static_frame None wm)) as Hlen.
      unfold monitor. rewrite (list_lookup_total_alt (mons (focus None wm))).
      rewrite lookup_ge_None_2 by lia. simpl. apply list_subseteq_nil.
  - intros c. apply static_frame_mon, focus_static_frame.
Qed.

Lemma arrange_stack_owned (m : option nat) (wm : WM) :
  stack_owned wm -> stack_owned (arrange m wm).
Proof.
  pose proof (arrange_layout_frame m wm) as Hf.
  apply stack_owned_preserved.
  - apply Hf.
  - pose proof (f_equal m_stack (lf_monitor _ _ Hf (selmon wm))) as Hs.
    simpl in Hs. by rewrite Hs.
  - intros c. apply static_frame_mon, layout_frame_static, Hf.
Qed.

Lemma arrange_selmon (m : option nat) (wm : WM) : selmon (arrange m wm) = selmon wm.
Proof. apply arrange_layout_frame. Qed.

Lemma arrange_sel (m : option nat) (wm : WM) (i : nat) :
  m_sel (monitor (arrange m wm) i) = m_sel (monitor wm i).
Proof. exact (f_equal m_sel (lf_monitor _ _ (arrange_layout_frame m wm) i)). Qed.

Lemma arrange_stack (m : option nat) (wm : WM) (i : nat) :
  m_stack (monitor (arrange m wm) i) = m_stack (monitor wm i).
Proof. exact (f_equal m_stack (lf_monitor _ _ (arrange_layout_frame m wm) i)). Qed.

(** ** Views *)

(** The tail of [view], [toggleview], [tag] and [toggletag]:
    [focus(NULL); arrange(selmon);] *)
Lemma refocus_static_frame (i : nat) (wm : WM) :
  static_frame wm (arrange (Some i) (focus None wm)).
Proof.
  eapply static_frame_trans; [apply focus_static_frame | apply arrange_static_frame].
Qed.

Lemma refocus_selmon (i : nat) (wm : WM) :
  stack_owned wm -> selmon (arrange (Some i) (focus None wm)) = selmon wm.
Proof. intros. rewrite arrange_selmon. by apply focus_None_selmon. Qed.

Lemma refocus_stack_owned (i : nat) (wm : WM) :
  stack_owned wm -> stack_owned (arrange (Some i) (focus None wm)).
Proof. intros. by apply arrange_stack_owned, focus_None_stack_owned. Qed.


(** What [view] writes into the selected monitor when the requested tags
    differ from the current ones. *)
Lemma view_monitor (ui : Z) (wm : WM) :
  let m := monitor wm (selmon wm) in
  let m' := monitor (view ui wm) (selmon wm) in
  let t := Z.land ui TAGMASK in
  (selmon wm < length (mons wm))%nat ->
  t <> m_tagset m (m_seltags m) ->
  m_seltags m' = Z.lxor (m_seltags m) 1
  /\ m_tagset0 m' = (if nonzero t && (Z.lxor (m_seltags m) 1 =? 0) then t else m_tagset0 m)
  /\ m_tagset1 m' = (if nonzero t && negb (Z.lxor (m_seltags m) 1 =? 0) then t else m_tagset1 m).
Proof.
  intros m m' t Hlt Hne. subst m'. unfold view. fold t. fold m.
  rewrite (proj2 (Z.eqb_neq _ _) Hne).
  set (wm1 := upd_monitor (selmon wm) _ wm).
  assert (Hm1 : monitor wm1 (selmon wm)
                = set_m_view (Z.lxor (m_seltags m) 1) (m_tagset0 m) (m_tagset1 m) m).
  { subst wm1. by rewrite monitor_upd_monitor_eq. }
  assert (Hl1 : (selmon wm < length (mons wm1))%nat).
  { subst wm1. by rewrite length_mons_upd_monitor. }
  assert (Hs1 : selmon wm1 = selmon wm) by done.
  clearbody wm1.
  set (wm2 := if nonzero t then _ else wm1).
  assert (Hs2 : selmon wm2 = selmon wm) by (subst wm2; by destruct (nonzero t)).
  pose proof (refocus_static_frame (selmon (focus None wm2)) wm2) as Hf.
  rewrite (static_frame_seltags _ _ _ Hf), (static_frame_tagset0 _ _ _ Hf),
    (static_frame_tagset1 _ _ _ Hf).
  subst wm2. destruct (nonzero t); simpl.
  - rewrite Hs1, monitor_upd_monitor_eq, Hm1 by done. unfold set_m_tagset. simpl.
    by destruct (Z.lxor (m_seltags m) 1 =? 0).
  - by rewrite Hm1.
Qed.

Lemma m_stack_set_m_tagset (i v : Z) (m : Monitor) :
  m_stack (set_m_tagset i v m) = m_stack m.
Proof. unfold set_m_tagset. by destruct (i =? 0). Qed.

Lemma upd_monitor_stack_owned (i : nat) (f : Monitor -> Monitor) (wm : WM) :
  (forall m, m_stack (f m) = m_stack m) ->
  stack_owned wm -> stack_owned (upd_monitor i f wm).
Proof.
  intros Hf. apply stack_owned_preserved; try done.
  destruct (monitor_upd_monitor_cases i (selmon wm) f wm) as [->|[Hi ->]]; [done|].
  by rewrite Hf, Hi.
Qed.

(** The writes of [view] before it refocuses. *)
Lemma view_writes_stack_owned (ui : Z) (wm : WM) :
  stack_owned wm ->
  stack_owned
    (let wm := upd_monitor (selmon wm)
                 (fun m => set_m_view (Z.lxor (m_seltags m) 1)
                                      (m_tagset0 m) (m_tagset1 m) m) wm in
     if nonzero (Z.land ui TAGMASK)
     then upd_monitor (selmon wm)
            (fun m => set_m_tagset (m_seltags m) (Z.land ui TAGMASK) m) wm
     else wm).
Proof.
  intros Hown. simpl. destruct (nonzero _).
  - apply upd_monitor_stack_owned; [intros; apply m_stack_set_m_tagset|].
    by apply upd_monitor_stack_owned.
  - by apply upd_monitor_stack_owned.
Qed.

Lemma view_selmon (ui : Z) (wm : WM) : stack_owned wm -> selmon (view ui wm) = selmon wm.
Proof.
  intros Hown. unfold view. destruct (_ =? _); [done|].
  rewrite refocus_selmon; [by destruct (nonzero _)|].
  by apply (view_writes_stack_owned ui wm).
Qed.

Lemma view_stack_owned (ui : Z) (wm : WM) : stack_owned wm -> stack_owned (view ui wm).
Proof.
  intros Hown. unfold view. destruct (_ =? _); [done|].
  apply refocus_stack_owned. by apply (view_writes_stack_owned ui wm).
Qed.

Lemma view_length (ui : Z) (wm : WM) : length (mons (view ui wm)) = length (mons wm).
Proof.
  unfold view. destruct (_ =? _); [done|].
  rewrite (sf_length _ _ (refocus_static_frame _ _)).
  destruct (nonzero _); by rewrite ?length_mons_upd_monitor.
Qed.

Lemma lxor_1_flip (s : Z) : s = 0 \/ s = 1 -> Z.lxor s 1 = 1 - s.
Proof. by intros [->| ->]. Qed.

(** C4.  On a state whose selected monitor owns the clients of its focus
    stack, with [seltags] 0 or 1: if [mask & TAGMASK] is nonzero and
    differs from the current tagset, then [view(mask)] followed by [view(0)]
    leaves the same monitor selected and its current tagset
    [tagset[seltags]] equal to its value before the first call. *)
Theorem view_then_view0_restores (wm : WM) (mask : Z) :
  let m := monitor wm (selmon wm) in
  (selmon wm < length (mons wm))%nat ->
  stack_owned wm ->
  m_seltags m = 0 \/ m_seltags m = 1 ->
  Z.land mask TAGMASK <> 0 ->
  Z.land mask TAGMASK <> m_tagset m (m_seltags m) ->
  let wm' := view 0 (view mask wm) in
  selmon wm' = selmon wm
  /\ m_tagset (monitor wm' (selmon wm')) (m_seltags (monitor wm' (selmon wm')))
     = m_tagset m (m_seltags m).
Proof.
  intros m Hlt Hown Hsel Hnz Hne wm'.
  destruct (view_monitor mask wm Hlt Hne) as (Hs1 & H01 & H11).
  fold m in Hs1, H01, H11.
  set (wm1 := view mask wm) in *.
  assert (Hsm1 : selmon wm1 = selmon wm) by (by apply view_selmon).
  assert (Hl1 : (selmon wm1 < length (mons wm1))%nat).
  { subst wm1. rewrite view_length. by rewrite Hsm1. }
  assert (Hnz' : nonzero (Z.land mask TAGMASK) = true).
  { unfold nonzero. by rewrite (proj2 (Z.eqb_neq _ _) Hnz). }
  rewrite Hnz' in H01, H11. simpl in H01, H11.
  assert (Hcur1 : m_tagset (monitor wm1 (selmon wm1)) (m_seltags (monitor wm1 (selmon wm1)))
                  = Z.land mask TAGMASK).
  { rewrite Hsm1, Hs1. unfold m_tagset. rewrite H01, H11.
    by destruct (Z.lxor (m_seltags m) 1 =? 0). }
  assert (Hne0 : Z.land 0 TAGMASK
                 <> m_tagset (monitor wm1 (selmon wm1)) (m_seltags (monitor wm1 (selmon wm1)))).
  { rewrite Hcur1. rewrite Z.land_0_l. congruence. }
  destruct (view_monitor 0 wm1 Hl1 Hne0) as (Hs2 & H02 & H12).
  rewrite Z.land_0_l in H02, H12. simpl in H02, H12.
  assert (Hown1 : stack_owned wm1) by (by apply view_stack_owned).
  assert (Hsm2 : selmon wm' = selmon wm1) by (by apply view_selmon).
  split; [congruence|].
  rewrite Hsm2. subst wm'. fold wm1. rewrite Hs2. unfold m_tagset. rewrite H02, H12.
  rewrite Hsm1, Hs1, H01, H11.
  destruct Hsel as [Hz|Hz]; rewrite Hz; reflexivity.
Qed.






Lemma view_then_view0_restores_witness :
  let wm' := view 0 (view 2 ex_two_tiled) in
  selmon wm' = selmon ex_two_tiled
  /\ m_tagset (monitor wm' (selmon wm')) (m_seltags (monitor wm' (selmon wm')))
     = 1.
Proof.
  apply (view_then_view0_restores ex_two_tiled 2).
  - simpl; lia.
  - repeat constructor.
  - left; reflexivity.
  - vm_compute; discriminate.
  - vm_compute; discriminate.
Defined.

(** ** Master factor *)

Lemma setmfact_mfact_frame (i : nat) (wm : WM) (k : nat) :
  m_mfact (monitor (arrange (Some i) wm) k) = m_mfact (monitor wm k).
Proof. apply static_frame_mfact, arrange_static_frame. Qed.

(** C9 (as amended).  On a monitor with an arranging layout [setmfact]
    does not clamp: a target below 0.1 or above 0.9 is rejected and [mfact]
    keeps its old value; any other target is stored as it is, and is then
    neither below 0.1 nor above 0.9. *)
Theorem setmfact_rejects_out_of_range (af : spec_float) (wm : WM) :
  let m := monitor wm (selmon wm) in
  let f := setmfact_target af (m_mfact m) in
  (selmon wm < length (mons wm))%nat ->
  is_Some (l_arrange (m_lt m (m_sellt m))) ->
  m_mfact (monitor (setmfact af wm) (selmon wm))
  = (if mfact_out_of_range f then m_mfact m else f)
  /\ (mfact_out_of_range f = false ->
      SFltb (double_of_float f) d_0_1 = false
      /\ SFltb d_0_9 (double_of_float f) = false).
Proof.
  intros m f Hlt Harr. split.
  - unfold setmfact. cbv zeta. fold m. rewrite bool_decide_true by done.
    cbn [negb]. fold f. destruct (mfact_out_of_range f); [done|].
    rewrite setmfact_mfact_frame. by rewrite monitor_upd_monitor_eq.
  - unfold mfact_out_of_range. intros H. by apply orb_false_elim in H.
Qed.

Lemma setmfact_rejects_out_of_range_witness :
  m_mfact (monitor (setmfact f_plus_0_5 ex_default_mfact) (selmon ex_default_mfact))
  = m_mfact (monitor ex_default_mfact (selmon ex_default_mfact)).
Proof.
  assert (Hlt : (selmon ex_default_mfact < length (mons ex_default_mfact))%nat)
    by (simpl; lia).
  assert (Harr : is_Some (l_arrange
                   (m_lt (monitor ex_default_mfact (selmon ex_default_mfact))
                         (m_sellt (monitor ex_default_mfact (selmon ex_default_mfact))))))
    by (vm_compute; eauto).
  destruct (setmfact_rejects_out_of_range f_plus_0_5 ex_default_mfact Hlt Harr)
    as [Heq _].
  rewrite Heq. reflexivity.
Defined.

(** C9, as stated, fails: with the configured [mfact = 0.55] a relative
    request of [+0.5] has the target 1.05; clamping would give 0.9, the
    code leaves 0.55. *)
Lemma setmfact_does_not_clamp :
  let m := monitor ex_default_mfact 0%nat in
  let f := setmfact_target f_plus_0_5 (m_mfact m) in
  spec_clamped_mfact f = float_of_double d_0_9
  /\ m_mfact (monitor (setmfact f_plus_0_5 ex_default_mfact) 0%nat) = f_0_55
  /\ m_mfact (monitor (setmfact f_plus_0_5 ex_default_mfact) 0%nat)
     <> spec_clamped_mfact f.
Proof.
  repeat split; try (vm_compute; reflexivity).
  vm_compute. discriminate.
Qed.

(** ** Rules *)

(** The tags [applyrules] leaves in the client do not depend on the rules:
    they are the current view of the client's monitor. *)
Lemma applyrules_on_tags (rs : list Rule) (wm : WM) (class instance : string) (c : Client) :
  let c' := applyrules_on rs wm class instance c in
  let m := monitor wm (c_mon c') in
  let view := m_tagset m (m_seltags m) in
  c_tags c' = if nonzero (Z.land view TAGMASK) then Z.land view TAGMASK else view.
Proof. reflexivity. Qed.

(** C1 at the failing input.  A window of class "Firefox" matches the rule
    whose tags mask is [1 << 8]; managed on a monitor that shows tag 1 it
    ends with [tags = 1], not with [1 << 8]. *)
Theorem applyrules_firefox_gets_current_view :
  applyrule ex_default_mfact "Firefox" "Navigator"
            (set_c_tags 0 (set_c_isfloating false ex_firefox))
            (rules !!! 1%nat)
  = set_c_tags (Z.shiftl 1 8) (set_c_tags 0 (set_c_isfloating false ex_firefox))
  /\ Z.land (Z.shiftl 1 8) TAGMASK = 256
  /\ c_tags (applyrules ex_default_mfact "Firefox" "Navigator" ex_firefox) = 1.
Proof. repeat split; vm_compute; reflexivity. Qed.

(** ** The focus stack *)

(** [first_visible] returns the topmost visible client: everything above it
    is hidden; it returns nothing exactly when every client is hidden. *)
Lemma first_visible_spec (wm : WM) (l : list Window) :
  match first_visible wm l with
  | Some t => exists l1 l2, l = l1 ++ t :: l2
                            /\ Forall (fun u => ISVISIBLE wm u = false) l1
                            /\ ISVISIBLE wm t = true
  | None => Forall (fun u => ISVISIBLE wm u = false) l
  end.
Proof.
  induction l as [|a l IH]; simpl; [constructor|].
  destruct (ISVISIBLE wm a) eqn:Ha.
  - exists [], l. by repeat split.
  - destruct (first_visible wm l) as [t|].
    + destruct IH as (l1 & l2 & -> & Hl1 & Ht).
      exists (a :: l1), l2. repeat split; [|done]. by constructor.
    + by constructor.
Qed.

Lemma unlink_not_elem (c : Window) (l : list Window) : NoDup l -> c ∉ unlink c l.
Proof.
  induction l as [|a l IH]; simpl; intros Hnd; [apply not_elem_of_nil|].
  apply NoDup_cons in Hnd as [Ha Hnd].
  destruct (a =? c) eqn:Hac.
  - apply Z.eqb_eq in Hac. by subst.
  - apply Z.eqb_neq in Hac. intros [?|?]%elem_of_cons; [congruence|]. by apply IH.
Qed.

Lemma unlink_elem_ne (c a : Window) (l : list Window) : a ∈ l -> a <> c -> a ∈ unlink c l.
Proof.
  induction l as [|b l IH]; simpl; [by intros ?%elem_of_nil|].
  intros [->|Hin]%elem_of_cons Hne.
  - rewrite (proj2 (Z.eqb_neq _ _) Hne). left.
  - destruct (b =? c); [done|]. right. by apply IH.
Qed.

(** What [detachstack] writes into the monitor of the client. *)
Lemma detachstack_monitor (c : Window) (wm : WM) :
  let i := c_mon (client wm c) in
  let m := monitor wm i in
  (i < length (mons wm))%nat ->
  monitor (detachstack c wm) i
  = set_m_focus (if bool_decide (m_sel m = Some c)
                 then first_visible wm (unlink c (m_stack m)) else m_sel m)
                (unlink c (m_stack m)) m.
Proof.
  intros i m Hlt. unfold detachstack. fold i.
  set (wm1 := upd_monitor i _ wm).
  assert (Hm1 : monitor wm1 i = set_m_stack (unlink c (m_stack m)) m).
  { subst wm1. by rewrite monitor_upd_monitor_eq. }
  assert (Hf : static_frame wm wm1) by (by apply upd_monitor_static_frame).
  rewrite Hm1. simpl.
  destruct (bool_decide (m_sel m = Some c)).
  - rewrite monitor_upd_monitor_eq by (subst wm1; by rewrite length_mons_upd_monitor).
    rewrite Hm1. simpl. by rewrite (static_frame_first_visible _ _ _ Hf).
  - by rewrite Hm1.
Qed.

(** [detachstack] keeps [sel] inside the stack, whichever client leaves. *)
Lemma detachstack_sel_in_stack (c : Window) (wm : WM) :
  let i := c_mon (client wm c) in
  (i < length (mons wm))%nat ->
  (forall s, m_sel (monitor wm i) = Some s -> s ∈ m_stack (monitor wm i)) ->
  forall s, m_sel (monitor (detachstack c wm) i) = Some s ->
            s ∈ m_stack (monitor (detachstack c wm) i).
Proof.
  intros i Hlt Hinv s. rewrite detachstack_monitor by done. fold i. simpl.
  destruct (bool_decide (m_sel (monitor wm i) = Some c)) eqn:Hsel.
  - intros Hs. by apply first_visible_elem in Hs as [? _].
  - intros Hs. apply bool_decide_eq_false in Hsel.
    apply unlink_elem_ne; [by apply Hinv|]. congruence.
Qed.

(** C10.  When [detachstack(c)] removes the selected client of its monitor
    from the focus stack, the stack loses [c], and [sel] becomes the topmost
    visible client of the remaining stack (every client above it is hidden)
    or null when no visible client remains; the new [sel] is therefore a
    member of the stack, and it is not [c] once [c] has left the list. *)
Theorem detachstack_reselects_topmost_visible (c : Window) (wm : WM) :
  let i := c_mon (client wm c) in
  let m := monitor wm i in
  let wm' := detachstack c wm in
  let m' := monitor wm' i in
  (i < length (mons wm))%nat ->
  m_sel m = Some c ->
  m_stack m' = unlink c (m_stack m)
  /\ match m_sel m' with
     | Some t => (exists l1 l2, m_stack m' = l1 ++ t :: l2
                                /\ Forall (fun u => ISVISIBLE wm' u = false) l1
                                /\ ISVISIBLE wm' t = true)
                 /\ t ∈ m_stack m'
     | None => Forall (fun u => ISVISIBLE wm' u = false) (m_stack m')
     end
  /\ (NoDup (m_stack m) -> (c ∉ m_stack m') /\ m_sel m' <> Some c).
Proof.
  intros i m wm' m' Hlt Hsel.
  assert (Hm' : m' = set_m_focus (first_visible wm (unlink c (m_stack m)))
                                 (unlink c (m_stack m)) m).
  { subst m' wm'. rewrite detachstack_monitor by done. fold i m.
    by rewrite bool_decide_true. }
  assert (Hvis : forall u, ISVISIBLE wm' u = ISVISIBLE wm u).
  { intros u. apply static_frame_ISVISIBLE, detachstack_static_frame. }
  assert (Hfa : forall l, Forall (fun u => ISVISIBLE wm u = false) l ->
                          Forall (fun u => ISVISIBLE wm' u = false) l).
  { intros l Hl. eapply Forall_impl; [exact Hl|]. intros u. by rewrite Hvis. }
  rewrite Hm'. simpl. split; [done|]. split.
  - pose proof (first_visible_spec wm (unlink c (m_stack m))) as Hspec.
    destruct (first_visible wm (unlink c (m_stack m))) as [t|] eqn:Hfv.
    + destruct Hspec as (l1 & l2 & Heq & Hl1 & Ht). split.
      * exists l1, l2. rewrite Hvis. auto.
      * by apply first_visible_elem in Hfv as [? _].
    + auto.
  - intros Hnd. pose proof (unlink_not_elem c _ Hnd) as Hc. split; [done|].
    intros Hfv. by apply first_visible_elem in Hfv as [? _].
Qed.

Lemma detachstack_reselects_topmost_visible_witness :
  m_stack (monitor (detachstack 1 ex_two_tiled) 0%nat) = [2]
  /\ m_sel (monitor (detachstack 1 ex_two_tiled) 0%nat) = Some 2.
Proof.
  assert (Hlt : (c_mon (client ex_two_tiled 1) < length (mons ex_two_tiled))%nat)
    by (vm_compute; lia).
  assert (Hsel : m_sel (monitor ex_two_tiled (c_mon (client ex_two_tiled 1))) = Some 1)
    by reflexivity.
  destruct (detachstack_reselects_topmost_visible 1 ex_two_tiled Hlt Hsel)
    as (Hst & _ & _).
  split; [exact Hst | reflexivity].
Defined.

(** ** Tags *)

Lemma upd_client_stack_owned (c : Window) (f : Client -> Client) (wm : WM) :
  (forall cl, c_mon (f cl) = c_mon cl) ->
  stack_owned wm -> stack_owned (upd_client c f wm).
Proof.
  intros Hf. apply stack_owned_preserved; try done.
  intros c'. rewrite client_upd_client. case_decide; subst; [apply Hf|done].
Qed.

(** After [focus(NULL); arrange(selmon)] the selected client is the topmost
    visible client of the stack. *)
Lemma refocus_sel (wm : WM) :
  stack_owned wm ->
  (selmon wm < length (mons wm))%nat ->
  m_sel (monitor (arrange (Some (selmon (focus None wm))) (focus None wm)) (selmon wm))
  = first_visible wm (m_stack (monitor wm (selmon wm))).
Proof. intros. rewrite arrange_sel. by apply focus_None_sel. Qed.

(** C6 (as amended).  For the selected client [c] a single [toggletag(m)]
    replaces [c.tags] by [c.tags XOR (m & TAGMASK)] exactly when that value
    is nonzero and leaves it unchanged otherwise.  [toggletag(m);
    toggletag(m)] gives [c.tags] back when [c.tags] is nonzero and [c] is
    still the topmost visible client of the focus stack after the first
    toggle, so that [focus(NULL)] selects it again and the second toggle
    acts on [c]. *)
Theorem toggletag_xor_and_double_toggle (ui : Z) (c : Window) (wm : WM) :
  let t := c_tags (client wm c) in
  let n := Z.lxor t (Z.land ui TAGMASK) in
  m_sel (monitor wm (selmon wm)) = Some c ->
  c_tags (client (toggletag ui wm) c) = (if nonzero n then n else t)
  /\ ((selmon wm < length (mons wm))%nat ->
      stack_owned wm ->
      t <> 0 ->
      (n <> 0 ->
       first_visible (upd_client c (set_c_tags n) wm) (m_stack (monitor wm (selmon wm)))
       = Some c) ->
      c_tags (client (toggletag ui (toggletag ui wm)) c) = t).
Proof.
  intros t n Hsel.
  assert (Hone : forall wm0, m_sel (monitor wm0 (selmon wm0)) = Some c ->
            c_tags (client (toggletag ui wm0) c)
            = (if nonzero (Z.lxor (c_tags (client wm0 c)) (Z.land ui TAGMASK))
               then Z.lxor (c_tags (client wm0 c)) (Z.land ui TAGMASK)
               else c_tags (client wm0 c))).
  { intros wm0 Hs. unfold toggletag. rewrite Hs.
    destruct (nonzero _); [|done]. cbv zeta.
    rewrite (static_frame_tags _ _ _ (refocus_static_frame _ _)).
    by rewrite client_upd_client_eq. }
  split; [by apply Hone|].
  intros Hlt Hown Ht Hfv.
  destruct (decide (n = 0)) as [Hz|Hnz].
  - assert (Hid : toggletag ui wm = wm).
    { unfold toggletag. rewrite Hsel. fold t n. by rewrite Hz. }
    rewrite !Hid. done.
  - set (wm1 := upd_client c (set_c_tags n) wm).
    assert (Hown1 : stack_owned wm1) by (by apply upd_client_stack_owned).
    assert (Heq : toggletag ui wm = arrange (Some (selmon (focus None wm1))) (focus None wm1)).
    { unfold toggletag. rewrite Hsel. fold t n.
      unfold nonzero. by rewrite (proj2 (Z.eqb_neq _ _) Hnz). }
    assert (Hsm : selmon (toggletag ui wm) = selmon wm).
    { rewrite Heq, refocus_selmon by done. done. }
    assert (Hs1 : m_sel (monitor (toggletag ui wm) (selmon (toggletag ui wm))) = Some c).
    { rewrite Hsm, Heq. change (selmon wm) with (selmon wm1).
      rewrite refocus_sel by done. by apply Hfv. }
    assert (Hback : Z.lxor n (Z.land ui TAGMASK) = t).
    { subst n. by rewrite Z.lxor_assoc, Z.lxor_nilpotent, Z.lxor_0_r. }
    rewrite (Hone _ Hs1), (Hone _ Hsel). fold t n. unfold nonzero.
    rewrite (proj2 (Z.eqb_neq _ _) Hnz). cbn [negb]. rewrite Hback.
    by rewrite (proj2 (Z.eqb_neq _ _) Ht).
Qed.

Lemma toggletag_xor_and_double_toggle_witness :
  c_tags (client (toggletag 2 ex_two_tiled) 1) = 3
  /\ c_tags (client (toggletag 2 (toggletag 2 ex_two_tiled)) 1) = 1.
Proof.
  assert (Hsel : m_sel (monitor ex_two_tiled (selmon ex_two_tiled)) = Some 1)
    by reflexivity.
  destruct (toggletag_xor_and_double_toggle 2 1 ex_two_tiled Hsel) as [H1 H2].
  split.
  - rewrite H1. reflexivity.
  - rewrite H2; [reflexivity | simpl; lia | repeat constructor
                | vm_compute; discriminate | intros _; vm_compute; reflexivity].
Defined.

(** C6, as stated, fails for the composition.  Windows 1 and 2 carry tag 1,
    the view is tag 1 and window 1 is selected.  [toggletag(3)] turns the
    tags of window 1 into 2 (nonzero), which hides it; [focus(NULL)] selects
    window 2, and the second [toggletag(3)] turns the tags of window 2 into
    2 (nonzero).  Both XOR results are nonzero and window 1 keeps tags 2. *)
Lemma toggletag_twice_is_not_identity :
  let wm := ex_two_tiled in
  let wm1 := toggletag 3 wm in
  let wm2 := toggletag 3 wm1 in
  m_sel (monitor wm (selmon wm)) = Some 1
  /\ c_tags (client wm 1) = 1
  /\ Z.lxor (c_tags (client wm 1)) (Z.land 3 TAGMASK) = 2
  /\ m_sel (monitor wm1 (selmon wm1)) = Some 2
  /\ Z.lxor (c_tags (client wm1 2)) (Z.land 3 TAGMASK) = 2
  /\ c_tags (client wm2 1) = 2
  /\ c_tags (client wm2 1) <> c_tags (client wm 1).
Proof.
  repeat split; try (vm_compute; reflexivity).
  vm_compute. discriminate.
Qed.

(** ** Size hints *)

Lemma MAX_max (a b : Z) : MAX a b = Z.max a b.
Proof. unfold MAX. destruct (Z.gtb_spec a b); lia. Qed.

Lemma MIN_min (a b : Z) : MIN a b = Z.min a b.
Proof. unfold MIN. destruct (Z.ltb_spec a b); lia. Qed.

Lemma hints_adjust_only_grow (c : Client) (w h : Z) :
  hints_only_grow c ->
  hints_adjust c w h = (MAX w (c_minw c), MAX h (c_minh c)).
Proof.
  intros (Hasp & Hiw & Hih & Hmw & Hmh). unfold hints_adjust, aspect_adjust.
  rewrite Hmw, Hmh. change (nonzero 0) with false. cbv iota.
  assert (Hw : forall v, (if nonzero (c_incw c) then v - Z.rem v (c_incw c) else v) = v).
  { intros v. destruct Hiw as [-> | ->]; [done|].
    change (nonzero 1) with true. cbv iota. rewrite Z.rem_1_r. lia. }
  assert (Hh : forall v, (if nonzero (c_inch c) then v - Z.rem v (c_inch c) else v) = v).
  { intros v. destruct Hih as [-> | ->]; [done|].
    change (nonzero 1) with true. cbv iota. rewrite Z.rem_1_r. lia. }
  destruct ((c_basew c =? c_minw c) && (c_baseh c =? c_minh c));
    cbn [negb]; cbv iota beta; rewrite Hasp; cbv iota beta;
    rewrite Hw, Hh; f_equal; f_equal; lia.
Qed.

(** Under [hints_only_grow] the four results of [applysizehints] are
    computed axis by axis. *)
Lemma applysizehints_only_grow (wm : WM) (c : Client) (x y w h : Z) (b : bool) :
  hints_only_grow c ->
  let m := monitor wm (c_mon c) in
  snd (applysizehints wm c (x, y, w, h) b)
  = (pos1 b (m_wx m) (m_ww m) (sw wm) (WIDTH c) (c_bw c) x w,
     pos1 b (m_wy m) (m_wh m) (sh wm) (HEIGHT c) (c_bw c) y h,
     size1 (bh wm) (hints_apply wm c) (c_minw c) w,
     size1 (bh wm) (hints_apply wm c) (c_minh c) h).
Proof.
  intros Hg m. unfold applysizehints, pos1, size1, hints_apply. fold m.
  rewrite (hints_adjust_only_grow c _ _ Hg).
  destruct b; cbv zeta;
    destruct (resizehints || c_isfloating c
              || negb (bool_decide (is_Some (l_arrange (m_lt m (m_sellt m))))));
    reflexivity.
Qed.

(** When [applysizehints] reports no change, the values it leaves are the
    client's rectangle. *)
Lemma applysizehints_clean (wm : WM) (c : Client) (r : Rect) (b : bool) :
  fst (applysizehints wm c r b) = false ->
  snd (applysizehints wm c r b) = c_rect c.
Proof.
  unfold applysizehints. destruct r as [[[x y] w] h]. cbv zeta.
  destruct (if b then _ else _) as [x' y'].
  destruct (if resizehints || _ || _ then _ else _) as [w' h'].
  simpl. intros H. apply negb_false_iff in H.
  repeat (apply andb_true_iff in H as [H ?]).
  unfold c_rect. repeat f_equal; by apply Z.eqb_eq.
Qed.

Lemma resize_client_ne (a c : Window) (r : Rect) (b : bool) (wm : WM) :
  a <> c -> client (resize a r b wm) c = client wm c.
Proof.
  intros Hne. unfold resize.
  destruct (applysizehints wm (client wm a) r b) as [[] [[[x y] w] h]]; [|done].
  unfold resizeclient. by rewrite client_upd_client_ne.
Qed.

(** After [resize] the client has the rectangle [applysizehints] computed. *)
Lemma resize_rect (c : Window) (r : Rect) (b : bool) (wm : WM) :
  c_rect (client (resize c r b wm) c) = snd (applysizehints wm (client wm c) r b).
Proof.
  unfold resize.
  destruct (applysizehints wm (client wm c) r b) as [d r'] eqn:Hash.
  destruct d.
  - destruct r' as [[[x y] w] h]. unfold resizeclient.
    by rewrite client_upd_client_eq.
  - symmetry. pose proof (applysizehints_clean wm (client wm c) r b) as H.
    rewrite Hash in H. by apply H.
Qed.

(** [resize] writes the rectangles only. *)
Lemma resize_erase_geom (c a : Window) (r : Rect) (b : bool) (wm : WM) :
  erase_geom (client (resize a r b wm) c) = erase_geom (client wm c).
Proof. apply resize_heap_frame. Qed.

(** ** The monocle symbol *)

Lemma string_length_app (s1 s2 : string) :
  String.length (s1 ++ s2) = (String.length s1 + String.length s2)%nat.
Proof. induction s1 as [|a s1 IH]; simpl; [done|]. by rewrite IH. Qed.

Lemma substring_0_all (s : string) (n : nat) :
  (String.length s <= n)%nat -> String.substring 0 n s = s.
Proof.
  revert n. induction s as [|a s IH]; intros n Hn.
  - by destruct n.
  - destruct n as [|n]; simpl in *; [lia|]. rewrite IH; [done|lia].
Qed.

Lemma pretty_N_go_length (k : nat) (x : N) (s : string) :
  (x < 10 ^ N.of_nat k)%N ->
  (String.length (pretty_N_go x s) <= String.length s + k)%nat.
Proof.
  revert x s. induction k as [|k IH]; intros x s Hx.
  - change (10 ^ N.of_nat 0)%N with 1%N in Hx.
    assert (x = 0%N) as -> by lia. rewrite pretty_N_go_0. lia.
  - destruct (decide (x = 0%N)) as [->|Hnz].
    + rewrite pretty_N_go_0. lia.
    + rewrite pretty_N_go_step by lia.
      etrans; [apply IH|simpl; lia].
      apply N.Div0.div_lt_upper_bound.
      rewrite Nat2N.inj_succ, N.pow_succ_r' in Hx. lia.
Qed.

Lemma pretty_Z_length (n : Z) :
  0 <= n < 2 ^ 31 -> (String.length (pretty n) <= 10)%nat.
Proof.
  intros Hn. destruct n as [|p|p]; [simpl; lia| |lia].
  unfold pretty, pretty_Z, pretty, pretty_N.
  destruct (decide (N.pos p = 0%N)); [simpl; lia|].
  etrans; [apply (pretty_N_go_length 10)|simpl; lia].
  change (10 ^ N.of_nat 10)%N with 10000000000%N. lia.
Qed.

Lemma to_int_to_uint_small (n : Z) : 0 <= n < 2 ^ 31 -> to_int (to_uint n) = n.
Proof.
  intros Hn. unfold to_int, to_uint.
  rewrite Z.mod_mod by lia. rewrite Z.mod_small by lia.
  destruct (Z.ltb_spec n (2 ^ 31)); lia.
Qed.

(** [snprintf] has room for every count below [2^31]. *)
Lemma monocle_symbol_small (n : Z) :
  0 <= n < 2 ^ 31 -> monocle_symbol (to_uint n) = ("[" ++ pretty n ++ "]")%string.
Proof.
  intros Hn. unfold monocle_symbol. rewrite to_int_to_uint_small by done.
  apply substring_0_all. rewrite !string_length_app.
  pose proof (pretty_Z_length n Hn).
  change (String.length "[") with 1%nat. change (String.length "]") with 1%nat. lia.
Qed.

(** ** Monocle *)

Lemma monocle_loop_mons (mi : nat) (l : list Window) (wm : WM) :
  mons (monocle_loop mi l wm) = mons wm.
Proof. apply monocle_loop_heap_frame. Qed.

(** The loop leaves alone every client that is not in the list or is not
    tiled. *)
Lemma monocle_loop_unaffected (mi : nat) (l : list Window) (wm : WM) (c : Window) :
  c ∉ l \/ istiled wm c = false ->
  client (monocle_loop mi l wm) c = client wm c.
Proof.
  revert wm. induction l as [|a l IH]; intros wm Hc; simpl; [done|].
  assert (Hc' : forall wm', static_frame wm wm' -> c ∉ l \/ istiled wm' c = false).
  { intros wm' Hf. destruct Hc as [Hc|Hc].
    - left. intros ?. apply Hc. by right.
    - right. by rewrite (static_frame_istiled _ _ _ Hf). }
  destruct (istiled wm a) eqn:Ha.
  - assert (a <> c).
    { intros ->. destruct Hc as [Hc|Hc]; [apply Hc; left|congruence]. }
    rewrite IH; [by apply resize_client_ne|].
    apply Hc', heap_frame_static, resize_heap_frame.
  - apply IH, Hc', static_frame_refl.
Qed.

(** Every tiled client of a duplicate-free list ends with the rectangle
    [applysizehints] computes from its request. *)
Lemma monocle_loop_rect (mi : nat) (l : list Window) (wm : WM) (c : Window) :
  NoDup l -> c ∈ l -> istiled wm c = true ->
  c_rect (client (monocle_loop mi l wm) c)
  = snd (applysizehints wm (client wm c) (monocle_request wm mi c) false).
Proof.
  revert wm. induction l as [|a l IH]; intros wm Hnd Hin Ht; [by apply elem_of_nil in Hin|].
  apply NoDup_cons in Hnd as [Ha Hnd]. simpl.
  destruct (decide (a = c)) as [->|Hne].
  - rewrite Ht. rewrite monocle_loop_unaffected by (by left).
    apply resize_rect.
  - apply elem_of_cons in Hin as [?|Hin]; [congruence|].
    destruct (istiled wm a) eqn:Hta.
    + set (wm1 := resize a _ false wm).
      assert (Hf : heap_frame wm wm1) by apply resize_heap_frame.
      rewrite IH; try done.
      * rewrite (static_frame_applysizehints _ _ _ _ _ (heap_frame_static _ _ Hf)).
        unfold monocle_request, monitor. rewrite (hf_mons _ _ Hf).
        subst wm1. by rewrite resize_client_ne.
      * by rewrite (static_frame_istiled _ _ _ (heap_frame_static _ _ Hf)).
    + by apply IH.
Qed.

Lemma size1_fits (bar : Z) (hints : bool) (min v : Z) :
  1 <= v -> bar <= v -> min <= v -> size1 bar hints min v = v.
Proof. intros. unfold size1, MAX. cbv zeta. destruct hints; case_zbool; lia. Qed.

Lemma pos1_inside (lo len scr outer bw v : Z) :
  0 < len -> 1 <= v -> v + 2 * bw = len ->
  pos1 false lo len scr outer bw lo v = lo.
Proof. intros. unfold pos1, MAX. cbv zeta. case_zbool; lia. Qed.

(** C3 (as amended).  On a monitor under [monocle] with at least one
    visible client the layout symbol becomes "[N]", N the number of visible
    clients, and every visible non-floating client ends with the rectangle
    that [applysizehints] makes of the request [(wx, wy, ww - 2*bw, wh -
    2*bw)].  That is exactly the requested rectangle when the client belongs
    to the monitor, its hints cannot shrink a request (no aspect, maximum or
    increment hints), and the requested width and height are at least 1, the
    bar height and the client's minimum size; other hints change it. *)
Theorem monocle_resizes_through_size_hints (mi : nat) (wm : WM) :
  let m := monitor wm mi in
  let N := count_visible wm (m_clients m) in
  let wm' := monocle mi wm in
  (mi < length (mons wm))%nat ->
  NoDup (m_clients m) ->
  0 < N < 2 ^ 31 ->
  m_ltsymbol (monitor wm' mi) = ("[" ++ pretty N ++ "]")%string
  /\ forall c, (c ∈ m_clients m) -> ISVISIBLE wm c = true ->
               c_isfloating (client wm c) = false ->
       let cl := client wm c in
       let w := m_ww m - 2 * c_bw cl in
       let h := m_wh m - 2 * c_bw cl in
       c_rect (client wm' c) = snd (applysizehints wm cl (m_wx m, m_wy m, w, h) false)
       /\ (c_mon cl = mi -> hints_only_grow cl ->
           0 < m_ww m -> 0 < m_wh m ->
           1 <= w -> bh wm <= w -> c_minw cl <= w ->
           1 <= h -> bh wm <= h -> c_minh cl <= h ->
           c_rect (client wm' c) = (m_wx m, m_wy m, w, h)).
Proof.
  intros m N wm' Hlt Hnd HN.
  set (wm1 := upd_monitor mi (set_m_ltsymbol (monocle_symbol (to_uint N))) wm).
  assert (Hm1 : monitor wm1 mi = set_m_ltsymbol (monocle_symbol (to_uint N)) m).
  { subst wm1. by rewrite monitor_upd_monitor_eq. }
  assert (Hwm' : wm' = monocle_loop mi (m_clients m) wm1).
  { subst wm'. unfold monocle. fold m N.
    assert ((to_uint N >? 0) = true) as ->.
    { unfold to_uint. rewrite Z.mod_small by lia. lia. }
    fold wm1. by rewrite Hm1. }
  assert (Hf1 : static_frame wm wm1).
  { apply layout_frame_static, set_ltsymbol_layout_frame. }
  split.
  - rewrite Hwm'. unfold monitor at 1. rewrite monocle_loop_mons.
    fold (monitor wm1 mi). rewrite Hm1. simpl. apply monocle_symbol_small. lia.
  - intros c Hin Hvis Hfl cl w h.
    assert (Hrect : c_rect (client wm' c)
                    = snd (applysizehints wm cl (m_wx m, m_wy m, w, h) false)).
    { rewrite Hwm', monocle_loop_rect; try done.
      - rewrite (static_frame_applysizehints _ _ _ _ _ Hf1).
        unfold monocle_request. by rewrite Hm1.
      - rewrite (static_frame_istiled _ _ _ Hf1). unfold istiled.
        by rewrite Hvis, Hfl. }
    split; [done|].
    intros Hown Hg Hww Hwh Hw1 Hwb Hwm Hh1 Hhb Hhm.
    rewrite Hrect, applysizehints_only_grow by done.
    rewrite Hown. fold m.
    rewrite !size1_fits by done.
    rewrite !pos1_inside by (done || (subst w h; lia)). done.
Qed.

Lemma monocle_resizes_through_size_hints_witness :
  m_ltsymbol (monitor (monocle 0%nat ex_monocle_three) 0%nat) = "[3]"%string
  /\ c_rect (client (monocle 0%nat ex_monocle_three) 2) = (0, 0, 998, 698).
Proof.
  assert (Hlt : (0 < length (mons ex_monocle_three))%nat) by (simpl; lia).
  assert (Hnd : NoDup (m_clients (monitor ex_monocle_three 0%nat))).
  { refine (bool_decide_unpack _ _). vm_compute. exact I. }
  assert (HN : 0 < count_visible ex_monocle_three
                     (m_clients (monitor ex_monocle_three 0%nat)) < 2 ^ 31)
    by (vm_compute; split; reflexivity).
  destruct (monocle_resizes_through_size_hints 0%nat ex_monocle_three Hlt Hnd HN)
    as [Hsym Hall].
  split.
  - rewrite Hsym. vm_compute. reflexivity.
  - assert (Hin : 2 ∈ m_clients (monitor ex_monocle_three 0%nat)).
    { refine (bool_decide_unpack _ _). vm_compute. exact I. }
    assert (Hv : ISVISIBLE ex_monocle_three 2 = true) by (vm_compute; reflexivity).
    assert (Hfl : c_isfloating (client ex_monocle_three 2) = false)
      by (vm_compute; reflexivity).
    destruct (Hall 2 Hin Hv Hfl) as [_ Hexact].
    rewrite Hexact.
    + vm_compute; reflexivity.
    + vm_compute; reflexivity.
    + vm_compute. repeat split; try (left; reflexivity); reflexivity.
    + vm_compute; reflexivity.
    + vm_compute; reflexivity.
    + vm_compute; discriminate.
    + vm_compute; discriminate.
    + vm_compute; discriminate.
    + vm_compute; discriminate.
    + vm_compute; discriminate.
    + vm_compute; discriminate.
Defined.

(** C3, as stated, fails on the rectangle.  Under [monocle] on the
    1000x700 monitor a visible tiled terminal with border 1 and resize
    increments 7x14 is asked [(0, 0, 998, 698)] and ends at
    [(0, 0, 994, 686)]. *)
Lemma monocle_rect_follows_size_hints :
  let wm := ex_monocle_terminal in
  let m := monitor wm 0%nat in
  ISVISIBLE wm 1 = true
  /\ c_isfloating (client wm 1) = false
  /\ (m_wx m, m_wy m, m_ww m - 2 * c_bw (client wm 1), m_wh m - 2 * c_bw (client wm 1))
     = (0, 0, 998, 698)
  /\ c_rect (client (monocle 0%nat wm) 1) = (0, 0, 994, 686)
  /\ c_rect (client (monocle 0%nat wm) 1)
     <> (m_wx m, m_wy m, m_ww m - 2 * c_bw (client wm 1), m_wh m - 2 * c_bw (client wm 1)).
Proof.
  repeat split; try (vm_compute; reflexivity).
  vm_compute. discriminate.
Qed.

(** ** Idempotence of applysizehints *)

(** The returned flag compares the adjusted rectangle with the client's. *)
Lemma applysizehints_fst (wm : WM) (c : Client) (r : Rect) (b : bool) :
  fst (applysizehints wm c r b)
  = let '(x, y, w, h) := snd (applysizehints wm c r b) in
    negb ((x =? c_x c) && (y =? c_y c) && (w =? c_w c) && (h =? c_h c)).
Proof.
  unfold applysizehints. destruct r as [[[x y] w] h]. cbv zeta.
  destruct (if b then _ else _) as [x' y'].
  by destruct (if resizehints || _ || _ then _ else _) as [w' h'].
Qed.

Lemma size1_ge (bar : Z) (hints : bool) (min v : Z) :
  1 <= size1 bar hints min v /\ MAX 1 v <= size1 bar hints min v.
Proof. unfold size1, MAX. cbv zeta. destruct hints; case_zbool; lia. Qed.

Lemma size1_idem (bar : Z) (hints : bool) (min v : Z) :
  size1 bar hints min (size1 bar hints min v) = size1 bar hints min v.
Proof. unfold size1, MAX. cbv zeta. destruct hints; case_zbool; lia. Qed.

(** A position that was adjusted for the size [v] stays where it is when it
    is adjusted again for a size that is not smaller. *)
Lemma pos1_idem (b : bool) (lo len scr outer bw p v v' : Z) :
  0 <= bw -> 0 < outer -> 0 < len -> 0 <= scr ->
  1 <= v' -> MAX 1 v <= v' ->
  pos1 b lo len scr outer bw (pos1 b lo len scr outer bw p v) v'
  = pos1 b lo len scr outer bw p v.
Proof. intros. unfold pos1, MAX in *. cbv zeta. destruct b; case_zbool; lia. Qed.

(** C7 (as amended).  [applysizehints] is idempotent for a client whose
    size hints can only enlarge a request (no aspect limits, no maximum
    size, no resize increments), with a non-negative border and a positive
    current outer size, on a monitor with a positive work area and a
    non-negative screen size: applying it to its own result returns the same
    rectangle and the same flag, for every request and either value of
    [interact]. *)
Theorem applysizehints_idempotent_when_hints_only_grow
    (wm : WM) (c : Client) (r : Rect) (interact : bool) :
  let m := monitor wm (c_mon c) in
  hints_only_grow c ->
  0 <= c_bw c -> 0 < WIDTH c -> 0 < HEIGHT c ->
  0 < m_ww m -> 0 < m_wh m -> 0 <= sw wm -> 0 <= sh wm ->
  applysizehints wm c (snd (applysizehints wm c r interact)) interact
  = applysizehints wm c r interact.
Proof.
  intros m Hg Hbw HW HH Hww Hwh Hsw Hsh.
  assert (Hsnd : snd (applysizehints wm c (snd (applysizehints wm c r interact)) interact)
                 = snd (applysizehints wm c r interact)).
  { destruct r as [[[x y] w] h].
    rewrite (applysizehints_only_grow wm c x y w h interact Hg). fold m.
    rewrite (applysizehints_only_grow wm c _ _ _ _ interact Hg). fold m.
    rewrite !size1_idem.
    pose proof (size1_ge (bh wm) (hints_apply wm c) (c_minw c) w) as [? ?].
    pose proof (size1_ge (bh wm) (hints_apply wm c) (c_minh c) h) as [? ?].
    by rewrite !pos1_idem. }
  apply injective_projections; [|done].
  by rewrite !applysizehints_fst, Hsnd.
Qed.

Lemma applysizehints_idempotent_when_hints_only_grow_witness :
  snd (applysizehints ex_default_mfact ex_min_only (1200, -60, 100, 50) false)
  = (698, 0, 200, 100)
  /\ applysizehints ex_default_mfact ex_min_only (698, 0, 200, 100) false
     = applysizehints ex_default_mfact ex_min_only (1200, -60, 100, 50) false.
Proof.
  assert (H1 : snd (applysizehints ex_default_mfact ex_min_only (1200, -60, 100, 50) false)
               = (698, 0, 200, 100)) by (vm_compute; reflexivity).
  split; [exact H1|].
  rewrite <- H1 at 1.
  apply applysizehints_idempotent_when_hints_only_grow.
  - vm_compute. repeat split; try (right; reflexivity); reflexivity.
  - vm_compute; discriminate.
  - vm_compute; reflexivity.
  - vm_compute; reflexivity.
  - vm_compute; reflexivity.
  - vm_compute; reflexivity.
  - vm_compute; discriminate.
  - vm_compute; discriminate.
Defined.

(** C7, as stated, fails.  A client with resize increments 7x14 and a
    maximum size of 500x400 asks for 998x698: the first application cuts
    the request to the maximum, 500x400, and the second rounds that down to
    the increments, 497x392. *)
Lemma applysizehints_is_not_idempotent :
  let wm := ex_default_mfact in
  let r1 := snd (applysizehints wm ex_inc_max (0, 0, 998, 698) false) in
  let r2 := snd (applysizehints wm ex_inc_max r1 false) in
  r1 = (0, 0, 500, 400) /\ r2 = (0, 0, 497, 392) /\ r2 <> r1.
Proof.
  repeat split; try (vm_compute; reflexivity).
  vm_compute. discriminate.
Qed.

(** Any hint that shrinks the request can also move the window on the
    second application: with only an aspect ratio of 1, a window hanging
    off the left edge is narrowed first and pulled onto the monitor next. *)
Lemma applysizehints_aspect_moves_on_second_pass :
  let wm := ex_default_mfact in
  let r1 := snd (applysizehints wm ex_square (-700, 0, 998, 698) false) in
  let r2 := snd (applysizehints wm ex_square r1 false) in
  r1 = (-700, 0, 698, 698) /\ r2 = (0, 0, 698, 698).
Proof. split; vm_compute; reflexivity. Qed.

(** ** Tile *)


Lemma tile_loop_cons (mi : nat) (n mw : Z) (c : Window) (l : list Window)
    (i my ty : Z) (wm : WM) :
  tile_loop mi n mw (c :: l) i my ty wm
  = if istiled wm c then
      let m := monitor wm mi in
      if i <? to_uint (m_nmaster m) then
        let h := to_uint (to_uint (m_wh m) - my)
                 / to_uint (MIN n (to_uint (m_nmaster m)) - i) in
        let bw2 := to_uint (2 * c_bw (client wm c)) in
        let wm' := resize c (m_wx m, to_int (to_uint (m_wy m) + my),
                             to_int (mw - bw2), to_int (h - bw2)) false wm in
        tile_loop mi n mw l (to_uint (i + 1))
                  (to_uint (my + to_uint (HEIGHT (client wm' c)))) ty wm'
      else
        let h := to_uint (to_uint (m_wh m) - ty) / to_uint (n - i) in
        let bw2 := to_uint (2 * c_bw (client wm c)) in
        let wm' := resize c (to_int (to_uint (m_wx m) + mw),
                             to_int (to_uint (m_wy m) + ty),
                             to_int (to_uint (m_ww m) - mw - bw2),
                             to_int (h - bw2)) false wm in
        tile_loop mi n mw l (to_uint (i + 1)) my
                  (to_uint (ty + to_uint (HEIGHT (client wm' c)))) wm'
    else tile_loop mi n mw l i my ty wm.
Proof. reflexivity. Qed.

Section Scenario1.

  (** The monitor and the two clients of the scenario. *)
  Variable wm : WM.
  Variables a b : Window.

  Hypothesis work_area :
    m_wx (monitor wm 0%nat) = 0 /\ m_wy (monitor wm 0%nat) = 0
    /\ m_ww (monitor wm 0%nat) = 1000 /\ m_wh (monitor wm 0%nat) = 700.
  Hypothesis no_bar : bh wm = 0.
  Hypothesis half : m_mfact (monitor wm 0%nat) = f_0_5.
  Hypothesis one_master : m_nmaster (monitor wm 0%nat) = 1.
  Hypothesis two_clients : m_clients (monitor wm 0%nat) = [a; b].
  Hypothesis distinct : a <> b.
  Hypothesis plain_a : plain_tiled wm a.
  Hypothesis plain_b : plain_tiled wm b.


End Scenario1.


(** ** Fullscreen *)

Lemma applysizehints_erase_saved (wm : WM) (c : Client) (r : Rect) (b : bool) :
  applysizehints wm (erase_saved c) r b = applysizehints wm c r b.
Proof. reflexivity. Qed.

Lemma resize_settled (c : Window) (wm : WM) :
  settled wm c -> resize c (c_rect (client wm c)) false wm = wm.
Proof.
  unfold settled, resize. intros Hs.
  pose proof (applysizehints_fst wm (client wm c) (c_rect (client wm c)) false) as Hd.
  destruct (applysizehints wm (client wm c) (c_rect (client wm c)) false) as [d r'].
  simpl in *. subst r'. unfold c_rect in Hd. rewrite !Z.eqb_refl in Hd.
  by subst d.
Qed.

Lemma settled_frame (wm wm' : WM) (c : Window) :
  static_frame wm wm' -> client wm' c = client wm c -> settled wm c -> settled wm' c.
Proof.
  unfold settled. intros Hf Hc Hs.
  by rewrite (static_frame_applysizehints _ _ _ _ _ Hf), Hc.
Qed.

(** [showhide] leaves a client alone that is hidden or settled. *)
Lemma showhide_unaffected (l : list Window) (wm : WM) (c : Window) :
  ISVISIBLE wm c = false \/ settled wm c ->
  client (showhide l wm) c = client wm c.
Proof.
  revert wm. induction l as [|a l IH]; intros wm Hc; simpl; [done|].
  destruct (ISVISIBLE wm a) eqn:Hva; [|by apply IH].
  match goal with |- context [if ?b then _ else _] => destruct b end;
    [|by apply IH].
  destruct (decide (a = c)) as [->|Hne].
  - destruct Hc as [Hc|Hc]; [congruence|].
    rewrite resize_settled by done. apply IH. by right.
  - set (wm1 := resize a _ false wm).
    assert (Hf : static_frame wm wm1) by apply heap_frame_static, resize_heap_frame.
    assert (Hc1 : client wm1 c = client wm c) by (by apply resize_client_ne).
    rewrite IH; [done|].
    destruct Hc as [Hc|Hc].
    + left. by rewrite (static_frame_ISVISIBLE _ _ _ Hf).
    + right. by apply (settled_frame wm).
Qed.

(** [tile] leaves alone every client that is not tiled. *)
Lemma tile_loop_unaffected (mi : nat) (n mw : Z) (l : list Window) (i my ty : Z)
    (wm : WM) (c : Window) :
  istiled wm c = false ->
  client (tile_loop mi n mw l i my ty wm) c = client wm c.
Proof.
  revert i my ty wm. induction l as [|a l IH]; intros i my ty wm Hc; [done|].
  rewrite tile_loop_cons. destruct (istiled wm a) eqn:Ha; [|by apply IH].
  assert (a <> c) by congruence. cbv zeta.
  destruct (i <? _);
    (rewrite IH;
     [by apply resize_client_ne
     |by rewrite (static_frame_istiled _ _ _
                    (heap_frame_static _ _ (resize_heap_frame _ _ _ _)))]).
Qed.

Lemma arrangemon_unaffected (mi : nat) (wm : WM) (c : Window) :
  istiled wm c = false
  \/ l_arrange (m_lt (monitor wm mi) (m_sellt (monitor wm mi))) = None ->
  client (arrangemon mi wm) c = client wm c.
Proof.
  intros Hc. unfold arrangemon.
  set (wm1 := upd_monitor mi _ wm).
  assert (Hf : static_frame wm wm1).
  { apply layout_frame_static, set_ltsymbol_layout_frame. }
  destruct (l_arrange _) as [[]|] eqn:Hl; [| |done];
    (destruct Hc as [Hc|Hc]; [|congruence]).
  - unfold tile. destruct (_ =? 0); [done|].
    rewrite tile_loop_unaffected; [done|].
    by rewrite (static_frame_istiled _ _ _ Hf).
  - unfold monocle.
    rewrite monocle_loop_unaffected.
    + by destruct (_ >? 0).
    + right. destruct (_ >? 0); [|by rewrite (static_frame_istiled _ _ _ Hf)].
      rewrite (static_frame_istiled wm1); [by rewrite (static_frame_istiled _ _ _ Hf)|].
      apply layout_frame_static, set_ltsymbol_layout_frame.
Qed.

(** [arrange(m)] leaves a client in place that is hidden, or that is settled
    and either floating or on a monitor [m] whose layout is floating. *)
Lemma arrange_unaffected (mi : nat) (wm : WM) (c : Window) :
  ISVISIBLE wm c = false
  \/ (settled wm c
      /\ (c_isfloating (client wm c) = true
          \/ l_arrange (m_lt (monitor wm mi) (m_sellt (monitor wm mi))) = None)) ->
  client (arrange (Some mi) wm) c = client wm c.
Proof.
  intros Hc. simpl. unfold restack.
  set (wm1 := showhide (m_stack (monitor wm mi)) wm).
  assert (Hhf : heap_frame wm wm1) by apply showhide_heap_frame.
  assert (Hf : static_frame wm wm1) by (by apply heap_frame_static).
  assert (Hc1 : client wm1 c = client wm c).
  { apply showhide_unaffected. destruct Hc as [?|[? _]]; auto. }
  rewrite arrangemon_unaffected; [done|].
  unfold monitor. rewrite (hf_mons _ _ Hhf). fold (monitor wm mi).
  unfold istiled. rewrite (static_frame_ISVISIBLE _ _ _ Hf), Hc1.
  destruct Hc as [->|[_ [->|?]]].
  - left. by rewrite orb_true_r.
  - by left.
  - by right.
Qed.

(** *** The layout pass does not read the saved fields *)

Lemma same_live_refl (wm : WM) : same_live wm wm.
Proof. by split. Qed.

Lemma same_live_monitor (wm wm' : WM) (i : nat) :
  same_live wm wm' -> monitor wm' i = monitor wm i.
Proof. intros [Hm _ _ _ _]. unfold monitor. by rewrite Hm. Qed.

Lemma same_live_rect (wm wm' : WM) (c : Window) :
  same_live wm wm' -> c_rect (client wm' c) = c_rect (client wm c).
Proof. intros [_ _ _ _ H]. exact (f_equal c_rect (H c)). Qed.

Lemma same_live_bw (wm wm' : WM) (c : Window) :
  same_live wm wm' -> c_bw (client wm' c) = c_bw (client wm c).
Proof. intros [_ _ _ _ H]. exact (f_equal c_bw (H c)). Qed.

Lemma same_live_HEIGHT (wm wm' : WM) (c : Window) :
  same_live wm wm' -> HEIGHT (client wm' c) = HEIGHT (client wm c).
Proof.
  intros H. unfold HEIGHT. rewrite (same_live_bw _ _ c H).
  by rewrite (f_equal c_h (sl_client _ _ H c) : c_h (client wm' c) = c_h (client wm c)).
Qed.

Lemma same_live_isfloating (wm wm' : WM) (c : Window) :
  same_live wm wm' -> c_isfloating (client wm' c) = c_isfloating (client wm c).
Proof. intros [_ _ _ _ H]. exact (f_equal c_isfloating (H c)). Qed.

Lemma same_live_isfullscreen (wm wm' : WM) (c : Window) :
  same_live wm wm' -> c_isfullscreen (client wm' c) = c_isfullscreen (client wm c).
Proof. intros [_ _ _ _ H]. exact (f_equal c_isfullscreen (H c)). Qed.

Lemma same_live_mon (wm wm' : WM) (c : Window) :
  same_live wm wm' -> c_mon (client wm' c) = c_mon (client wm c).
Proof. intros [_ _ _ _ H]. exact (f_equal c_mon (H c)). Qed.

Lemma same_live_ISVISIBLE (wm wm' : WM) (c : Window) :
  same_live wm wm' -> ISVISIBLE wm' c = ISVISIBLE wm c.
Proof.
  intros H. unfold ISVISIBLE.
  rewrite (same_live_mon _ _ c H), (same_live_monitor _ _ _ H).
  by rewrite (f_equal c_tags (sl_client _ _ H c) : c_tags (client wm' c) = c_tags (client wm c)).
Qed.

Lemma same_live_istiled (wm wm' : WM) (c : Window) :
  same_live wm wm' -> istiled wm' c = istiled wm c.
Proof.
  intros H. unfold istiled.
  by rewrite (same_live_ISVISIBLE _ _ c H), (same_live_isfloating _ _ c H).
Qed.

Lemma same_live_applysizehints (wm wm' : WM) (c : Window) (r : Rect) (b : bool) :
  same_live wm wm' ->
  applysizehints wm' (client wm' c) r b = applysizehints wm (client wm c) r b.
Proof.
  intros H.
  rewrite <- (applysizehints_erase_saved wm'), (sl_client _ _ H c).
  rewrite applysizehints_erase_saved.
  unfold applysizehints. rewrite (same_live_monitor _ _ _ H).
  by rewrite (sl_sw _ _ H), (sl_sh _ _ H), (sl_bh _ _ H).
Qed.

Lemma resize_same_live (c : Window) (r : Rect) (b : bool) (wm wm' : WM) :
  same_live wm wm' -> same_live (resize c r b wm) (resize c r b wm').
Proof.
  intros H. unfold resize. rewrite (same_live_applysizehints _ _ c r b H).
  destruct (applysizehints wm (client wm c) r b) as [[] [[[x y] w] h]]; [|done].
  destruct H as [Hm Hsw Hsh Hbh Hc]. split; try done.
  intros c'. unfold resizeclient. rewrite !client_upd_client.
  case_decide; [|apply Hc].
  exact (f_equal (set_c_geom x y w h) (Hc c)).
Qed.

Lemma showhide_same_live (l : list Window) (wm wm' : WM) :
  same_live wm wm' -> same_live (showhide l wm) (showhide l wm').
Proof.
  revert wm wm'. induction l as [|a l IH]; intros wm wm' H; simpl; [done|].
  rewrite (same_live_ISVISIBLE _ _ a H), (same_live_mon _ _ a H),
    (same_live_monitor _ _ _ H), (same_live_isfloating _ _ a H),
    (same_live_isfullscreen _ _ a H), (same_live_rect _ _ a H).
  destruct (ISVISIBLE wm a); [|by apply IH].
  match goal with |- context [if ?b then _ else _] => destruct b end.
  - by apply IH, resize_same_live.
  - by apply IH.
Qed.

Lemma tile_loop_same_live (mi : nat) (n mw : Z) (l : list Window) (i my ty : Z)
    (wm wm' : WM) :
  same_live wm wm' ->
  same_live (tile_loop mi n mw l i my ty wm) (tile_loop mi n mw l i my ty wm').
Proof.
  revert i my ty wm wm'. induction l as [|a l IH]; intros i my ty wm wm' H; [done|].
  rewrite !tile_loop_cons. cbv zeta.
  rewrite (same_live_istiled _ _ a H), (same_live_monitor _ _ _ H),
    (same_live_bw _ _ a H).
  destruct (istiled wm a); [|by apply IH].
  destruct (i <? _).
  - set (r := (_, _, _, _)).
    pose proof (resize_same_live a r false _ _ H) as H1.
    rewrite (same_live_HEIGHT _ _ a H1).
    by apply IH.
  - set (r := (_, _, _, _)).
    pose proof (resize_same_live a r false _ _ H) as H1.
    rewrite (same_live_HEIGHT _ _ a H1).
    by apply IH.
Qed.

Lemma same_live_count_tiled (wm wm' : WM) (l : list Window) :
  same_live wm wm' -> count_tiled wm' l = count_tiled wm l.
Proof.
  intros H. induction l as [|a l IH]; simpl; [done|].
  by rewrite (same_live_istiled _ _ a H), IH.
Qed.

Lemma same_live_count_visible (wm wm' : WM) (l : list Window) :
  same_live wm wm' -> count_visible wm' l = count_visible wm l.
Proof.
  intros H. induction l as [|a l IH]; simpl; [done|].
  by rewrite (same_live_ISVISIBLE _ _ a H), IH.
Qed.

Lemma tile_same_live (mi : nat) (wm wm' : WM) :
  same_live wm wm' -> same_live (tile mi wm) (tile mi wm').
Proof.
  intros H. unfold tile.
  rewrite (same_live_monitor _ _ _ H), (same_live_count_tiled _ _ _ H).
  destruct (_ =? 0); [done|]. by apply tile_loop_same_live.
Qed.

Lemma monocle_loop_same_live (mi : nat) (l : list Window) (wm wm' : WM) :
  same_live wm wm' -> same_live (monocle_loop mi l wm) (monocle_loop mi l wm').
Proof.
  revert wm wm'. induction l as [|a l IH]; intros wm wm' H; simpl; [done|].
  rewrite (same_live_istiled _ _ a H), (same_live_monitor _ _ _ H),
    (same_live_bw _ _ a H).
  destruct (istiled wm a); [|by apply IH].
  by apply IH, resize_same_live.
Qed.

Lemma upd_monitor_same_live (i : nat) (f : Monitor -> Monitor) (wm wm' : WM) :
  same_live wm wm' -> same_live (upd_monitor i f wm) (upd_monitor i f wm').
Proof.
  intros H. pose proof (same_live_monitor _ _ i H) as Hi.
  destruct H as [Hm Hsw Hsh Hbh Hc]. split; try done.
  unfold upd_monitor. simpl. by rewrite Hm, Hi.
Qed.

Lemma monocle_same_live (mi : nat) (wm wm' : WM) :
  same_live wm wm' -> same_live (monocle mi wm) (monocle mi wm').
Proof.
  intros H. unfold monocle.
  rewrite (same_live_monitor _ _ _ H), (same_live_count_visible _ _ _ H).
  set (wm1 := if _ >? 0 then _ else wm).
  set (wm1' := if _ >? 0 then _ else wm').
  assert (H1 : same_live wm1 wm1').
  { subst wm1 wm1'. destruct (_ >? 0); [by apply upd_monitor_same_live|done]. }
  rewrite (same_live_monitor _ _ _ H1). by apply monocle_loop_same_live.
Qed.

Lemma arrangemon_same_live (mi : nat) (wm wm' : WM) :
  same_live wm wm' -> same_live (arrangemon mi wm) (arrangemon mi wm').
Proof.
  intros H. unfold arrangemon. rewrite (same_live_monitor _ _ _ H).
  pose proof (upd_monitor_same_live mi
    (set_m_ltsymbol (strncpy16 (l_symbol (m_lt (monitor wm mi) (m_sellt (monitor wm mi))))))
    _ _ H) as H1.
  destruct (l_arrange _) as [[]|]; [by apply tile_same_live|by apply monocle_same_live|done].
Qed.

(** [arrange(m)] computes the same rectangles from two states that differ
    in the saved fields only. *)
Lemma arrange_same_live (mi : nat) (wm wm' : WM) :
  same_live wm wm' -> same_live (arrange (Some mi) wm) (arrange (Some mi) wm').
Proof.
  intros H. simpl. unfold restack. rewrite (same_live_monitor _ _ _ H).
  by apply arrangemon_same_live, showhide_same_live.
Qed.

(** The client record after [setfullscreen(c, True)]. *)
Lemma setfullscreen_enter_client (c : Window) (wm : WM) :
  let c0 := client wm c in
  let m := monitor wm (c_mon c0) in
  client (setfullscreen c true wm) c
  = set_c_geom (m_mx m) (m_my m) (m_mw m) (m_mh m)
      (set_c_old (c_x c0) (c_y c0) (c_w c0) (c_h c0)
         (set_c_bw 0 (c_bw c0)
            (set_c_flags true (c_isurgent c0) (c_isfloating c0) true c0))).
Proof.
  cbv zeta. unfold setfullscreen, resizeclient.
  rewrite client_upd_client_eq. simpl. by rewrite client_upd_client_eq.
Qed.

Lemma setfullscreen_enter_mons (c : Window) (wm : WM) :
  mons (setfullscreen c true wm) = mons wm.
Proof. reflexivity. Qed.

(** C5 (as amended).  For a client that is not fullscreen, entering
    fullscreen sets [isfullscreen], [isfloating], [bw = 0] and the
    rectangle of the monitor's screen; leaving it again clears
    [isfullscreen] and restores the prior border width and [isfloating]
    flag.  The prior rectangle is written back and [arrange(c->mon)] runs:
    the client ends with the rectangle that [arrange(c->mon)] gives it from
    the prior state.  That is the prior rectangle itself when the layout
    pass leaves the client in place, in particular when the client is not
    visible, or when it already satisfies [applysizehints] and is floating
    or under the floating layout. *)
Theorem fullscreen_round_trip (c : Window) (wm : WM) :
  let c0 := client wm c in
  let m := monitor wm (c_mon c0) in
  let wmF := setfullscreen c true wm in
  let wmN := setfullscreen c false wmF in
  c_isfullscreen c0 = false ->
  (c_isfullscreen (client wmF c) = true
   /\ c_isfloating (client wmF c) = true
   /\ c_bw (client wmF c) = 0
   /\ c_rect (client wmF c) = (m_mx m, m_my m, m_mw m, m_mh m))
  /\ (c_isfullscreen (client wmN c) = false
      /\ c_bw (client wmN c) = c_bw c0
      /\ c_isfloating (client wmN c) = c_isfloating c0)
  /\ c_rect (client wmN c) = c_rect (client (arrange (Some (c_mon c0)) wm) c)
  /\ (ISVISIBLE wm c = false
      \/ (snd (applysizehints wm c0 (c_rect c0) false) = c_rect c0
          /\ (c_isfloating c0 = true \/ l_arrange (m_lt m (m_sellt m)) = None)) ->
      c_rect (client wmN c) = c_rect c0).
Proof.
  intros c0 m wmF wmN Hnf.
  pose proof (setfullscreen_enter_client c wm) as HF. cbv zeta in HF.
  fold c0 m wmF in HF.
  split; [by rewrite HF|].
  assert (HN : exists wmB, wmN = arrange (Some (c_mon (client wmB c))) wmB
                /\ mons wmB = mons wm /\ sw wmB = sw wm /\ sh wmB = sh wm /\ bh wmB = bh wm
                /\ (forall c', c' <> c -> client wmB c' = client wm c')
                /\ client wmB c
                   = set_c_geom (c_x c0) (c_y c0) (c_w c0) (c_h c0)
                       (set_c_old (c_x c0) (c_y c0) (c_w c0) (c_h c0)
                          (set_c_bw (c_bw c0) (c_bw c0)
                             (set_c_flags (c_isfloating c0) (c_isurgent c0)
                                          (c_isfloating c0) false c0)))).
  { subst wmN. unfold setfullscreen at 1. cbv zeta.
    match goal with |- context [arrange _ ?w] => exists w end.
    split; [done|]. unfold resizeclient, c_rect.
    rewrite !client_upd_client_eq. fold wmF.
    repeat split; try done.
    - intros c' Hne. rewrite !client_upd_client_ne by done.
      subst wmF. unfold setfullscreen, resizeclient. cbv zeta.
      by rewrite !client_upd_client_ne.
    - rewrite HF. reflexivity. }
  destruct HN as (wmB & HN & Hmons & Hsw & Hsh & Hbh & Hother & HB).
  assert (HcB : c_mon (client wmB c) = c_mon c0) by (by rewrite HB).
  assert (Herase : erase_geom (client wmN c) = erase_geom (client wmB c)).
  { rewrite HN. apply arrange_layout_frame. }
  assert (Hlive : same_live wm wmB).
  { split; try done. intros c'. destruct (decide (c' = c)) as [->|Hne].
    - rewrite HB. unfold erase_saved. simpl. fold c0. by rewrite Hnf.
    - by rewrite Hother. }
  assert (Hrect : c_rect (client wmN c)
                  = c_rect (client (arrange (Some (c_mon c0)) wm) c)).
  { rewrite HN, HcB. apply same_live_rect. by apply arrange_same_live. }
  split; [|split; [done|]].
  - pose proof (f_equal c_isfullscreen Herase) as H1.
    pose proof (f_equal c_bw Herase) as H2.
    pose proof (f_equal c_isfloating Herase) as H3.
    simpl in H1, H2, H3. rewrite H1, H2, H3, HB. done.
  - intros Hkeep. rewrite Hrect. by rewrite arrange_unaffected.
Qed.

Lemma fullscreen_round_trip_witness :
  let wm := ex_fullscreen_scenario floating_layout in
  let wmF := setfullscreen 1 true wm in
  let wmN := setfullscreen 1 false wmF in
  c_rect (client wm 1) = (100, 100, 400, 300)
  /\ c_rect (client wmF 1) = (0, 0, 1000, 700)
  /\ c_bw (client wmF 1) = 0
  /\ c_rect (client wmN 1) = (100, 100, 400, 300)
  /\ c_bw (client wmN 1) = 1
  /\ c_isfloating (client wmN 1) = false.
Proof.
  intros wm wmF wmN.
  assert (Hnf : c_isfullscreen (client wm 1) = false) by reflexivity.
  destruct (fullscreen_round_trip 1 wm Hnf)
    as ((_ & _ & Hbw & Hrect) & (_ & Hbw' & Hfl') & _ & Hback).
  split; [vm_compute; reflexivity|].
  split; [exact Hrect|].
  split; [exact Hbw|].
  split; [|split; [exact Hbw'|exact Hfl']].
  apply Hback. right. split; [vm_compute; reflexivity|]. right. reflexivity.
Defined.

(** C5, as stated, fails on the rectangle.  Scenario 4 under the default
    tile layout: client A at (100,100,400,300), border 1, not floating, is
    visible and alone on the 1000x700 monitor.  After entering and leaving
    fullscreen the closing [arrange] tiles it: it ends at (0,0,998,698). *)
Lemma fullscreen_exit_retiles :
  let wm := ex_fullscreen_scenario tile_layout in
  let wmF := setfullscreen 1 true wm in
  let wmN := setfullscreen 1 false wmF in
  c_isfullscreen (client wm 1) = false
  /\ c_rect (client wm 1) = (100, 100, 400, 300)
  /\ c_rect (client wmF 1) = (0, 0, 1000, 700)
  /\ c_rect (client wmN 1) = (0, 0, 998, 698)
  /\ c_rect (client wmN 1) <> c_rect (client wm 1).
Proof.
  repeat split; try (vm_compute; reflexivity).
  vm_compute. discriminate.
Qed.

(** A tiled client that already sits in its layout slot comes back to it:
    the single client of the tile layout, at (0,0,998,698). *)
Lemma fullscreen_round_trip_tiled_in_slot :
  let wm := ex_default_mfact in
  let wmN := setfullscreen 1 false (setfullscreen 1 true wm) in
  c_rect (client (arrange (Some 0%nat) wm) 1) = c_rect (client wm 1)
  /\ c_rect (client wmN 1) = c_rect (client wm 1).
Proof. split; vm_compute; reflexivity. Qed.

(** ** The traversal of the client list *)

(** The loops of [tile] and [monocle] advance with [nexttiled]: skipping
    to the next tiled client first changes nothing. *)
Lemma tile_loop_nexttiled (mi : nat) (n mw : Z) (l : list Window) (i my ty : Z) (wm : WM) :
  tile_loop mi n mw (nexttiled wm l) i my ty wm = tile_loop mi n mw l i my ty wm.
Proof.
  induction l as [|a l IH]; [done|].
  cbn [nexttiled]. destruct (istiled wm a) eqn:Ha; [done|].
  rewrite IH. rewrite (tile_loop_cons _ _ _ a l). by rewrite Ha.
Qed.

Lemma monocle_loop_nexttiled (mi : nat) (l : list Window) (wm : WM) :
  monocle_loop mi (nexttiled wm l) wm = monocle_loop mi l wm.
Proof.
  induction l as [|a l IH]; [done|].
  cbn [nexttiled]. destruct (istiled wm a) eqn:Ha; [done|].
  rewrite IH. simpl. by rewrite Ha.
Qed.

(** A fresh monitor shows tag 1 in both slots, so its view is never
    empty. *)
Lemma createmon_view :
  m_tagset createmon (m_seltags createmon) = 1
  /\ m_tagset createmon (Z.lxor (m_seltags createmon) 1) = 1.
Proof. split; reflexivity. Qed.

(** * Further properties *)

(** ** Tag sets stay well formed *)

Lemma nonzero_true (z : Z) : nonzero z = true <-> z <> 0.
Proof. unfold nonzero. destruct (Z.eqb_spec z 0); simpl; split; try done. Qed.

Lemma nonzero_false (z : Z) : nonzero z = false <-> z = 0.
Proof. unfold nonzero. destruct (Z.eqb_spec z 0); simpl; split; try done. Qed.

Lemma tags_ok_land (ui : Z) : Z.land ui TAGMASK <> 0 -> tags_ok (Z.land ui TAGMASK).
Proof. intros H. split; [done|]. by rewrite <- Z.land_assoc, Z.land_diag. Qed.

Lemma land_lxor_distr (a b c : Z) :
  Z.land (Z.lxor a b) c = Z.lxor (Z.land a c) (Z.land b c).
Proof.
  apply Z.bits_inj'. intros n _.
  rewrite !Z.land_spec, !Z.lxor_spec, !Z.land_spec.
  by destruct (Z.testbit a n), (Z.testbit b n), (Z.testbit c n).
Qed.

Lemma tags_ok_lxor (t ui : Z) :
  Z.land t TAGMASK = t ->
  Z.lxor t (Z.land ui TAGMASK) <> 0 ->
  tags_ok (Z.lxor t (Z.land ui TAGMASK)).
Proof.
  intros Ht H. split; [done|].
  by rewrite land_lxor_distr, Ht, <- Z.land_assoc, Z.land_diag.
Qed.

Lemma refocus_tags (wm : WM) (c : Window) :
  c_tags (client (arrange (Some (selmon (focus None wm))) (focus None wm)) c)
  = c_tags (client wm c).
Proof. apply static_frame_tags, refocus_static_frame. Qed.

(** X1.  [tag] gives the selected client exactly the tags [ui & TAGMASK]
    when that set is not empty and leaves every other client's tags alone;
    with no selected client or an empty set it does nothing.  A client
    whose tags were a non-empty subset of the configured tags still has
    such a tag set afterwards. *)
Theorem tag_keeps_clients_tagged (ui : Z) (wm : WM) :
  let sel := m_sel (monitor wm (selmon wm)) in
  let t := Z.land ui TAGMASK in
  (forall c, tags_ok (c_tags (client wm c)) -> tags_ok (c_tags (client (tag ui wm) c)))
  /\ (forall c, c_tags (client (tag ui wm) c)
                = if bool_decide (sel = Some c) && nonzero t then t
                  else c_tags (client wm c))
  /\ (sel = None \/ t = 0 -> tag ui wm = wm).
Proof.
  cbv zeta.
  assert (forall c, c_tags (client (tag ui wm) c)
                = if bool_decide (m_sel (monitor wm (selmon wm)) = Some c)
                     && nonzero (Z.land ui TAGMASK)
                  then Z.land ui TAGMASK else c_tags (client wm c)) as Htags.
  { intros c. unfold tag.
    destruct (m_sel (monitor wm (selmon wm))) as [s|]; [|done].
    destruct (nonzero (Z.land ui TAGMASK)) eqn:Hn.
    - cbv zeta. rewrite refocus_tags, client_upd_client.
      destruct (decide (s = c)) as [->|Hne].
      + by rewrite bool_decide_true.
      + rewrite bool_decide_false; [done|congruence].
    - by rewrite andb_false_r. }
  split; [|split].
  - intros c Hc. rewrite Htags.
    destruct (bool_decide _ && nonzero _) eqn:Hb; [|done].
    apply andb_prop in Hb as [_ Hn]. by apply tags_ok_land, nonzero_true.
  - exact Htags.
  - unfold tag. intros [-> | Ht]; [done|].
    destruct (m_sel _); [|done]. by rewrite Ht.
Qed.

(** X2.  [toggletag] never leaves a client without tags or with a tag
    outside the configured ones: a tag set that was a non-empty subset of
    [TAGMASK] is one afterwards, for every client. *)
Theorem toggletag_keeps_clients_tagged (ui : Z) (wm : WM) (c : Window) :
  tags_ok (c_tags (client wm c)) ->
  tags_ok (c_tags (client (toggletag ui wm) c)).
Proof.
  intros Hc. unfold toggletag.
  destruct (m_sel (monitor wm (selmon wm))) as [s|]; [|done].
  destruct (nonzero _) eqn:Hn; [|done].
  cbv zeta. rewrite refocus_tags, client_upd_client.
  destruct (decide (s = c)) as [->|Hne]; [|done].
  apply tags_ok_lxor; [apply Hc|by apply nonzero_true].
Qed.

Lemma toggletag_keeps_clients_tagged_witness :
  tags_ok (c_tags (client (toggletag 3 ex_two_tiled) 1)).
Proof.
  apply (toggletag_keeps_clients_tagged 3 ex_two_tiled 1).
  vm_compute. split; [discriminate|reflexivity].
Defined.

(** ** Views stay well formed *)

Lemma m_tagset_set_m_tagset (i v : Z) (m : Monitor) :
  m_tagset (set_m_tagset i v m) i = v.
Proof. unfold m_tagset, set_m_tagset. by destruct (i =? 0). Qed.

Lemma m_seltags_set_m_tagset (i v : Z) (m : Monitor) :
  m_seltags (set_m_tagset i v m) = m_seltags m.
Proof. unfold set_m_tagset. by destruct (i =? 0). Qed.

Lemma view_ok_set_m_tagset (i v : Z) (m : Monitor) :
  tags_ok v -> view_ok m -> view_ok (set_m_tagset i v m).
Proof. intros Hv [H0 H1]. unfold set_m_tagset. by destruct (i =? 0); split. Qed.

Lemma view_ok_static_frame (wm wm' : WM) (i : nat) :
  static_frame wm wm' -> view_ok (monitor wm i) -> view_ok (monitor wm' i).
Proof.
  intros Hf. unfold view_ok.
  by rewrite (static_frame_tagset0 _ _ i Hf), (static_frame_tagset1 _ _ i Hf).
Qed.

Lemma view_ok_upd_monitor (j : nat) (f : Monitor -> Monitor) (wm : WM) (i : nat) :
  (view_ok (monitor wm j) -> view_ok (f (monitor wm j))) ->
  view_ok (monitor wm i) -> view_ok (monitor (upd_monitor j f wm) i).
Proof.
  intros Hf Hi.
  destruct (monitor_upd_monitor_cases j i f wm) as [->|[-> ->]]; [done|by apply Hf].
Qed.

(** X3.  [view] never leaves a monitor with an empty view or with a view
    outside the configured tags: if both view slots of a monitor hold
    non-empty subsets of [TAGMASK], they do so afterwards. *)
Theorem view_keeps_views_nonempty (ui : Z) (wm : WM) (i : nat) :
  view_ok (monitor wm i) -> view_ok (monitor (view ui wm) i).
Proof.
  intros Hi. unfold view.
  destruct (_ =? _); [done|]. cbv zeta.
  eapply view_ok_static_frame; [apply refocus_static_frame|].
  assert (view_ok (monitor (upd_monitor (selmon wm)
            (fun m => set_m_view (Z.lxor (m_seltags m) 1) (m_tagset0 m) (m_tagset1 m) m)
            wm) i)) as H1.
  { by apply view_ok_upd_monitor. }
  destruct (nonzero (Z.land ui TAGMASK)) eqn:Hn; [|done].
  apply view_ok_upd_monitor; [|done].
  intros Hv. apply view_ok_set_m_tagset; [|done].
  by apply tags_ok_land, nonzero_true.
Qed.

Lemma view_keeps_views_nonempty_witness :
  view_ok (monitor (view 4 ex_two_views) 0%nat).
Proof.
  apply (view_keeps_views_nonempty 4 ex_two_views 0%nat).
  vm_compute. repeat split; discriminate.
Defined.

Lemma toggleview_step (ui : Z) (wm : WM) :
  let m := monitor wm (selmon wm) in
  let cur := m_tagset m (m_seltags m) in
  let new := Z.lxor cur (Z.land ui TAGMASK) in
  (selmon wm < length (mons wm))%nat ->
  stack_owned wm ->
  selmon (toggleview ui wm) = selmon wm
  /\ stack_owned (toggleview ui wm)
  /\ length (mons (toggleview ui wm)) = length (mons wm)
  /\ m_seltags (monitor (toggleview ui wm) (selmon wm)) = m_seltags m
  /\ m_tagset (monitor (toggleview ui wm) (selmon wm)) (m_seltags m)
     = (if nonzero new then new else cur).
Proof.
  intros m cur new Hlt Hown. unfold toggleview. fold m cur new.
  destruct (nonzero new) eqn:Hn; [|done]. cbv zeta.
  set (wm1 := upd_monitor (selmon wm) (fun m => set_m_tagset (m_seltags m) new m) wm).
  assert (stack_owned wm1) as Hown1.
  { apply upd_monitor_stack_owned; [intros; apply m_stack_set_m_tagset|done]. }
  pose proof (refocus_static_frame (selmon (focus None wm1)) wm1) as Hf.
  assert (monitor wm1 (selmon wm) = set_m_tagset (m_seltags m) new m) as Hm1.
  { unfold wm1. by rewrite monitor_upd_monitor_eq. }
  split; [by rewrite refocus_selmon|].
  split; [by apply refocus_stack_owned|].
  split; [by rewrite (sf_length _ _ Hf); apply length_mons_upd_monitor|].
  split.
  - by rewrite (static_frame_seltags _ _ _ Hf), Hm1, m_seltags_set_m_tagset.
  - by rewrite (static_frame_tagset _ _ _ _ Hf), Hm1, m_tagset_set_m_tagset.
Qed.

(** X4.  [toggleview] with the same mask twice gives back the view it
    started from (the selected monitor shows the same tags again), provided
    the view was not empty; and it never leaves any monitor with an empty
    or out-of-range view slot. *)
Theorem toggleview_twice_restores (ui : Z) (wm : WM) :
  let m := monitor wm (selmon wm) in
  let wm' := toggleview ui (toggleview ui wm) in
  (selmon wm < length (mons wm))%nat ->
  stack_owned wm ->
  m_tagset m (m_seltags m) <> 0 ->
  selmon wm' = selmon wm
  /\ m_seltags (monitor wm' (selmon wm)) = m_seltags m
  /\ m_tagset (monitor wm' (selmon wm)) (m_seltags m) = m_tagset m (m_seltags m)
  /\ (forall i, view_ok (monitor wm i) -> view_ok (monitor (toggleview ui wm) i)).
Proof.
  intros m wm' Hlt Hown Hcur.
  destruct (toggleview_step ui wm Hlt Hown) as (Hs1 & Ho1 & Hl1 & Hst1 & Ht1).
  fold m in Hst1, Ht1.
  assert (selmon (toggleview ui wm) < length (mons (toggleview ui wm)))%nat as Hlt1
    by (by rewrite Hs1, Hl1).
  destruct (toggleview_step ui (toggleview ui wm) Hlt1 Ho1) as (Hs2 & _ & _ & Hst2 & Ht2).
  rewrite Hs1, Hst1 in Hst2, Ht2. rewrite Ht1 in Ht2. fold wm' in Hs2, Hst2, Ht2.
  split; [congruence|]. split; [done|]. split.
  - rewrite Ht2. destruct (nonzero (Z.lxor _ (Z.land ui TAGMASK))) eqn:Hn.
    + rewrite Z.lxor_assoc, Z.lxor_nilpotent, Z.lxor_0_r.
      by apply nonzero_true in Hcur as ->.
    + by rewrite Hn.
  - intros i Hi. unfold toggleview.
    destruct (nonzero _) eqn:Hn; [|done]. cbv zeta.
    eapply view_ok_static_frame; [apply refocus_static_frame|].
    apply view_ok_upd_monitor; [|done].
    intros Hv. apply view_ok_set_m_tagset; [|done].
    apply nonzero_true in Hn. apply tags_ok_lxor; [|done].
    unfold m_tagset. destruct (_ =? 0); apply Hv.
Qed.

Lemma toggleview_twice_restores_witness :
  let wm' := toggleview 2 (toggleview 2 ex_two_views) in
  selmon wm' = 0%nat
  /\ m_tagset (monitor wm' 0%nat) 0 = 1.
Proof.
  assert (selmon ex_two_views < length (mons ex_two_views))%nat as Hlt
    by (vm_compute; lia).
  assert (stack_owned ex_two_views) as Hown
    by (unfold stack_owned; vm_compute; repeat constructor).
  assert (m_tagset (monitor ex_two_views (selmon ex_two_views))
                   (m_seltags (monitor ex_two_views (selmon ex_two_views))) <> 0) as Hcur
    by (vm_compute; discriminate).
  destruct (toggleview_twice_restores 2 ex_two_views Hlt Hown Hcur) as (H1 & _ & H2 & _).
  split; [exact H1|exact H2].
Defined.

(** ** Master count *)

Lemma arrange_monitor_frame (o : option nat) (wm : WM) (i : nat) :
  erase_ltsymbol (monitor (arrange o wm) i) = erase_ltsymbol (monitor wm i).
Proof. apply (lf_monitor _ _ (arrange_layout_frame o wm)). Qed.

Lemma incnmaster_nmaster (i : Z) (wm : WM) (k : nat) :
  m_nmaster (monitor (incnmaster i wm) k)
  = m_nmaster (monitor (upd_monitor (selmon wm)
                          (fun m => set_m_nmaster (MAX (m_nmaster m + i) 0) m) wm) k).
Proof. exact (f_equal m_nmaster (arrange_monitor_frame _ _ k)). Qed.

Lemma incnmaster_selmon (i : Z) (wm : WM) : selmon (incnmaster i wm) = selmon wm.
Proof. unfold incnmaster. cbv zeta. by rewrite arrange_selmon. Qed.

Lemma incnmaster_length (i : Z) (wm : WM) :
  length (mons (incnmaster i wm)) = length (mons wm).
Proof.
  unfold incnmaster. cbv zeta.
  rewrite (lf_length _ _ (arrange_layout_frame _ _)). apply length_mons_upd_monitor.
Qed.

(** X5.  [incnmaster] never makes the master count negative, whatever it
    was and whatever is added; it leaves the other monitors' counts alone;
    and adding [-i] after adding [i] gives back a non-negative count as
    long as the first step did not hit the floor at zero. *)
Theorem incnmaster_floor_and_undo (i : Z) (wm : WM) :
  let n := m_nmaster (monitor wm (selmon wm)) in
  (selmon wm < length (mons wm))%nat ->
  0 <= m_nmaster (monitor (incnmaster i wm) (selmon wm))
  /\ (forall k, k <> selmon wm ->
        m_nmaster (monitor (incnmaster i wm) k) = m_nmaster (monitor wm k))
  /\ (0 <= n -> 0 <= n + i ->
      m_nmaster (monitor (incnmaster (- i) (incnmaster i wm)) (selmon wm)) = n).
Proof.
  intros n Hlt.
  assert (m_nmaster (monitor (incnmaster i wm) (selmon wm)) = MAX (n + i) 0) as H1.
  { rewrite incnmaster_nmaster, monitor_upd_monitor_eq by done. done. }
  split; [|split].
  - rewrite H1, MAX_max. lia.
  - intros k Hk. by rewrite incnmaster_nmaster, monitor_upd_monitor_ne.
  - intros Hn Hni.
    rewrite incnmaster_nmaster, incnmaster_selmon, monitor_upd_monitor_eq
      by (by rewrite incnmaster_length).
    simpl. rewrite H1, !MAX_max. lia.
Qed.

Lemma incnmaster_floor_and_undo_witness :
  0 <= m_nmaster (monitor (incnmaster (-3) ex_two_tiled) 0%nat)
  /\ m_nmaster (monitor (incnmaster (- 2) (incnmaster 2 ex_two_tiled)) 0%nat) = 1.
Proof.
  assert (selmon ex_two_tiled < length (mons ex_two_tiled))%nat as Hlt
    by (vm_compute; lia).
  split.
  - exact (proj1 (incnmaster_floor_and_undo (-3) ex_two_tiled Hlt)).
  - apply (proj2 (proj2 (incnmaster_floor_and_undo 2 ex_two_tiled Hlt))); vm_compute;
      discriminate.
Defined.

(** ** The bar *)

(** X6.  [updatebarpos] splits the screen rectangle of a monitor between
    the bar and the work area along the vertical axis: with the bar shown
    the two strips do not overlap and together have the height of the
    screen, the bar on top or at the bottom as [topbar] says; with the bar
    hidden the work area is the whole screen and the bar lies above the
    origin.  The result depends on the screen rectangle only, so that a
    second call changes nothing. *)
Theorem updatebarpos_splits_screen (bh : Z) (m : Monitor) :
  let m' := updatebarpos bh m in
  (if m_showbar m then
     m_wh m' + bh = m_mh m
     /\ (if m_topbar m
         then m_by m' = m_my m /\ m_wy m' = m_by m' + bh
         else m_wy m' = m_my m /\ m_by m' = m_wy m' + m_wh m')
   else m_wy m' = m_my m /\ m_wh m' = m_mh m /\ m_by m' + bh = 0)
  /\ updatebarpos bh m' = m'.
Proof.
  unfold updatebarpos. destruct m as [? ? ? ? ? ? ? ? ? ? ? ? ? ? ? ? ? [] [] ? ? ? ? ?];
    simpl; repeat split; lia.
Qed.

Lemma updatebarpos_toggle_twice (bh : Z) (m m1 : Monitor) :
  erase_ltsymbol m1
  = erase_ltsymbol
      (updatebarpos bh (set_m_bar (negb (m_showbar m)) (m_by m) (m_wy m) (m_wh m) m)) ->
  erase_ltsymbol
    (updatebarpos bh (set_m_bar (negb (m_showbar m1)) (m_by m1) (m_wy m1) (m_wh m1) m1))
  = erase_ltsymbol (updatebarpos bh m).
Proof.
  destruct m as [? ? ? ? ? ? ? ? ? ? ? ? ? ? ? ? ? sb tb ? ? ? ? ?].
  destruct m1 as [? ? ? ? ? ? ? ? ? ? ? ? ? ? ? ? ? sb1 tb1 ? ? ? ? ?].
  unfold updatebarpos, erase_ltsymbol. destruct sb; simpl; intros H; by simplify_eq/=.
Qed.

Lemma updatebarpos_fields (b : Z) (m m' : Monitor) :
  erase_ltsymbol m' = erase_ltsymbol (updatebarpos b m) ->
  m_showbar m' = m_showbar m
  /\ (m_by m', m_wy m', m_wh m')
     = (m_by (updatebarpos b m), m_wy (updatebarpos b m), m_wh (updatebarpos b m)).
Proof.
  intros H.
  pose proof (f_equal m_showbar H : m_showbar m' = m_showbar (updatebarpos b m)) as E0.
  pose proof (f_equal m_by H : m_by m' = m_by (updatebarpos b m)) as E1.
  pose proof (f_equal m_wy H : m_wy m' = m_wy (updatebarpos b m)) as E2.
  pose proof (f_equal m_wh H : m_wh m' = m_wh (updatebarpos b m)) as E3.
  split; [|by rewrite E1, E2, E3].
  rewrite E0. unfold updatebarpos. by destruct (m_showbar m).
Qed.

Lemma togglebar_monitor (wm : WM) :
  (selmon wm < length (mons wm))%nat ->
  erase_ltsymbol (monitor (togglebar wm) (selmon wm))
  = erase_ltsymbol
      (updatebarpos (bh wm)
         (set_m_bar (negb (m_showbar (monitor wm (selmon wm))))
                    (m_by (monitor wm (selmon wm))) (m_wy (monitor wm (selmon wm)))
                    (m_wh (monitor wm (selmon wm))) (monitor wm (selmon wm)))).
Proof.
  intros Hlt. unfold togglebar. cbv zeta. rewrite arrange_monitor_frame.
  change (selmon (upd_monitor (selmon wm) _ wm)) with (selmon wm).
  change (bh (upd_monitor (selmon wm) _ wm)) with (bh wm).
  rewrite monitor_upd_monitor_eq by (by rewrite length_mons_upd_monitor).
  by rewrite monitor_upd_monitor_eq.
Qed.

Lemma togglebar_frame (wm : WM) :
  selmon (togglebar wm) = selmon wm
  /\ bh (togglebar wm) = bh wm
  /\ length (mons (togglebar wm)) = length (mons wm).
Proof.
  unfold togglebar. cbv zeta.
  split; [by rewrite arrange_selmon|].
  split; [by rewrite (lf_bh _ _ (arrange_layout_frame _ _))|].
  by rewrite (lf_length _ _ (arrange_layout_frame _ _)), !length_mons_upd_monitor.
Qed.

(** X7.  [togglebar] flips [showbar] of the selected monitor and places
    bar and work area for the new setting; toggling twice gives back
    [showbar] and the bar position and work area that [updatebarpos]
    assigns to the original monitor, so a monitor whose bar was placed is
    back where it started. *)
Theorem togglebar_twice_restores (wm : WM) :
  let m := monitor wm (selmon wm) in
  let m1 := monitor (togglebar wm) (selmon wm) in
  let m2 := monitor (togglebar (togglebar wm)) (selmon wm) in
  (selmon wm < length (mons wm))%nat ->
  m_showbar m1 = negb (m_showbar m)
  /\ m_showbar m2 = m_showbar m
  /\ (m_by m2, m_wy m2, m_wh m2)
     = (m_by (updatebarpos (bh wm) m), m_wy (updatebarpos (bh wm) m),
        m_wh (updatebarpos (bh wm) m))
  /\ (updatebarpos (bh wm) m = m -> erase_ltsymbol m2 = erase_ltsymbol m).
Proof.
  intros m m1 m2 Hlt.
  destruct (togglebar_frame wm) as (Hs & Hb & Hl).
  pose proof (togglebar_monitor wm Hlt) as H1. fold m in H1. fold m1 in H1.
  assert (selmon (togglebar wm) < length (mons (togglebar wm)))%nat as Hlt1
    by (by rewrite Hs, Hl).
  pose proof (togglebar_monitor (togglebar wm) Hlt1) as H2.
  rewrite Hs, Hb in H2. fold m1 in H2. fold m2 in H2.
  assert (erase_ltsymbol m2 = erase_ltsymbol (updatebarpos (bh wm) m)) as H3.
  { rewrite H2. by apply updatebarpos_toggle_twice. }
  destruct (updatebarpos_fields _ _ _ H1) as [A1 _].
  destruct (updatebarpos_fields _ _ _ H3) as [A3 B3].
  split; [exact A1|]. split; [exact A3|]. split; [exact B3|].
  intros Hm. by rewrite H3, Hm.
Qed.

Lemma togglebar_twice_restores_witness :
  let m := monitor ex_bar 0%nat in
  let m2 := monitor (togglebar (togglebar ex_bar)) 0%nat in
  m_showbar m2 = true /\ (m_by m2, m_wy m2, m_wh m2) = (0, 16, 684).
Proof.
  assert (selmon ex_bar < length (mons ex_bar))%nat as Hlt by (vm_compute; lia).
  destruct (togglebar_twice_restores ex_bar Hlt) as (_ & H1 & H2 & _).
  split; [exact H1|exact H2].
Defined.

(** ** Layout selection *)

Lemma m_lt_set_m_lt (i : Z) (l : Layout) (m : Monitor) :
  m_lt (set_m_lt i l m) i = l.
Proof. unfold m_lt, set_m_lt. by destruct (i =? 0). Qed.

(** The layout fields of the selected monitor after [setlayout]. *)
Lemma setlayout_monitor (v : option Layout) (wm : WM) :
  let m := monitor wm (selmon wm) in
  let keep := match v with
              | Some l => bool_decide (l = m_lt m (m_sellt m))
              | None => false
              end in
  let sellt := if keep then m_sellt m else Z.lxor (m_sellt m) 1 in
  let m1 := set_m_layout sellt (m_lt0 m) (m_lt1 m) m in
  let m2 := match v with Some l => set_m_lt sellt l m1 | None => m1 end in
  (selmon wm < length (mons wm))%nat ->
  selmon (setlayout v wm) = selmon wm
  /\ length (mons (setlayout v wm)) = length (mons wm)
  /\ erase_ltsymbol (monitor (setlayout v wm) (selmon wm)) = erase_ltsymbol m2.
Proof.
  intros m keep sellt m1 m2 Hlt. unfold setlayout. cbv zeta.
  set (wm1 := upd_monitor (selmon wm) _ wm).
  assert (selmon wm1 = selmon wm) as Hs1 by done.
  assert (length (mons wm1) = length (mons wm)) as Hl1
    by apply length_mons_upd_monitor.
  assert (monitor wm1 (selmon wm) = m1) as Hm1.
  { unfold wm1. rewrite monitor_upd_monitor_eq by done. fold m. fold keep.
    unfold m1, sellt. destruct keep; [|done]. by destruct m. }
  set (wm2 := match v with
              | Some l => upd_monitor (selmon wm1) (fun m => set_m_lt (m_sellt m) l m) wm1
              | None => wm1
              end).
  assert (selmon wm2 = selmon wm) as Hs2 by (unfold wm2; by destruct v).
  assert (length (mons wm2) = length (mons wm)) as Hl2.
  { unfold wm2. destruct v; [|done]. by rewrite length_mons_upd_monitor. }
  assert (monitor wm2 (selmon wm) = m2) as Hm2.
  { unfold wm2, m2. destruct v as [l|]; [|done].
    rewrite Hs1, monitor_upd_monitor_eq, Hm1 by (by rewrite Hl1). done. }
  set (wm3 := upd_monitor (selmon wm2) _ wm2).
  assert (selmon wm3 = selmon wm) as Hs3 by done.
  assert (length (mons wm3) = length (mons wm)) as Hl3
    by (unfold wm3; by rewrite length_mons_upd_monitor).
  assert (erase_ltsymbol (monitor wm3 (selmon wm)) = erase_ltsymbol m2) as Hm3.
  { unfold wm3. rewrite Hs2, monitor_upd_monitor_eq, Hm2 by (by rewrite Hl2). done. }
  destruct (m_sel (monitor wm3 (selmon wm3))).
  - split; [by rewrite arrange_selmon|].
    split; [by rewrite (lf_length _ _ (arrange_layout_frame _ _))|].
    by rewrite arrange_monitor_frame.
  - done.
Qed.

(** X8.  [setlayout] with a layout makes it the current layout of the
    selected monitor and keeps the layout that was current in the other
    slot, so that [setlayout] with a null argument afterwards returns to
    it; [setlayout] with a null argument twice restores both slots and the
    slot index. *)
Theorem setlayout_toggles_back (l : Layout) (wm : WM) :
  let m := monitor wm (selmon wm) in
  let cur (wm' : WM) := let m' := monitor wm' (selmon wm) in m_lt m' (m_sellt m') in
  (selmon wm < length (mons wm))%nat ->
  m_sellt m = 0 \/ m_sellt m = 1 ->
  cur (setlayout (Some l) wm) = l
  /\ (l <> cur wm -> cur (setlayout None (setlayout (Some l) wm)) = cur wm)
  /\ (let m2 := monitor (setlayout None (setlayout None wm)) (selmon wm) in
      m_sellt m2 = m_sellt m /\ m_lt0 m2 = m_lt0 m /\ m_lt1 m2 = m_lt1 m).
Proof.
  intros m cur Hlt Hsl. subst m.
  assert (forall v wm', (selmon wm' < length (mons wm'))%nat -> selmon wm' = selmon wm ->
    let m := monitor wm' (selmon wm) in
    let m' := monitor (setlayout v wm') (selmon wm) in
    let keep := match v with
                | Some l => bool_decide (l = m_lt m (m_sellt m))
                | None => false
                end in
    let sellt := if keep then m_sellt m else Z.lxor (m_sellt m) 1 in
    m_sellt m' = sellt
    /\ m_lt0 m' = (match v with Some l => if sellt =? 0 then l else m_lt0 m | None => m_lt0 m end)
    /\ m_lt1 m' = (match v with Some l => if sellt =? 0 then m_lt1 m else l | None => m_lt1 m end)
    /\ selmon (setlayout v wm') = selmon wm
    /\ (selmon (setlayout v wm') < length (mons (setlayout v wm')))%nat) as Hstep.
  { intros v wm' Hlt' Hs'.
    destruct (setlayout_monitor v wm' Hlt') as (Hs & Hl & Hm).
    rewrite Hs' in Hm. cbv zeta.
    rewrite (f_equal m_sellt Hm : m_sellt (monitor (setlayout v wm') (selmon wm)) = _).
    rewrite (f_equal m_lt0 Hm : m_lt0 (monitor (setlayout v wm') (selmon wm)) = _).
    rewrite (f_equal m_lt1 Hm : m_lt1 (monitor (setlayout v wm') (selmon wm)) = _).
    split; [|split; [|split; [|split]]].
    - destruct v; [unfold set_m_lt; by destruct (_ =? 0)|done].
    - destruct v; [unfold set_m_lt; by destruct (_ =? 0)|done].
    - destruct v; [unfold set_m_lt; by destruct (_ =? 0)|done].
    - congruence.
    - by rewrite Hs, Hl. }
  destruct (Hstep (Some l) wm Hlt eq_refl) as (A1 & A2 & A3 & A4 & A5).
  destruct (Hstep None wm Hlt eq_refl) as (B1 & B2 & B3 & B4 & B5).
  destruct (Hstep None _ A5 A4) as (C1 & C2 & C3 & _).
  destruct (Hstep None _ B5 B4) as (D1 & D2 & D3 & _).
  cbv zeta in *.
  split; [|split].
  - unfold cur. cbv zeta. unfold m_lt. rewrite A1, A2, A3.
    destruct (bool_decide (l = _));
      destruct Hsl as [E|E]; rewrite E; reflexivity.
  - intros Hne. unfold cur in *. cbv zeta in *.
    rewrite bool_decide_false in A1, A2, A3 by done.
    unfold m_lt in *. rewrite C1, C2, C3, A1, A2, A3.
    destruct Hsl as [E|E]; rewrite E; reflexivity.
  - rewrite D1, D2, D3, B1, B2, B3.
    destruct Hsl as [E|E]; rewrite E; done.
Qed.

Lemma setlayout_toggles_back_witness :
  let cur (wm' : WM) := let m' := monitor wm' 0%nat in m_lt m' (m_sellt m') in
  cur (setlayout (Some monocle_layout) ex_two_tiled) = monocle_layout
  /\ cur (setlayout None (setlayout (Some monocle_layout) ex_two_tiled)) = tile_layout.
Proof.
  assert (selmon ex_two_tiled < length (mons ex_two_tiled))%nat as Hlt
    by (vm_compute; lia).
  assert (m_sellt (monitor ex_two_tiled (selmon ex_two_tiled)) = 0
          \/ m_sellt (monitor ex_two_tiled (selmon ex_two_tiled)) = 1) as Hsl
    by (left; reflexivity).
  destruct (setlayout_toggles_back monocle_layout ex_two_tiled Hlt Hsl) as (H1 & H2 & _).
  split; [exact H1|].
  apply H2. vm_compute. discriminate.
Defined.

(** ** Floating *)

Lemma layout_frame_flags (wm wm' : WM) (c : Window) :
  layout_frame wm wm' ->
  c_isfloating (client wm' c) = c_isfloating (client wm c)
  /\ c_isfixed (client wm' c) = c_isfixed (client wm c)
  /\ c_isfullscreen (client wm' c) = c_isfullscreen (client wm c).
Proof.
  intros Hf. pose proof (lf_client _ _ Hf c) as H.
  split; [exact (f_equal c_isfloating H)|].
  split; [exact (f_equal c_isfixed H)|exact (f_equal c_isfullscreen H)].
Qed.

Lemma layout_frame_sel (wm wm' : WM) (i : nat) :
  layout_frame wm wm' -> m_sel (monitor wm' i) = m_sel (monitor wm i).
Proof. intros Hf. exact (f_equal m_sel (lf_monitor _ _ Hf i)). Qed.

(** What [togglefloating] does once the selected client [s] is known not
    to be fullscreen. *)
Lemma togglefloating_step (s : Window) (wm : WM) :
  m_sel (monitor wm (selmon wm)) = Some s ->
  c_isfullscreen (client wm s) = false ->
  let wm' := togglefloating wm in
  selmon wm' = selmon wm
  /\ m_sel (monitor wm' (selmon wm)) = Some s
  /\ (forall c, c_isfixed (client wm' c) = c_isfixed (client wm c)
                /\ c_isfullscreen (client wm' c) = c_isfullscreen (client wm c)
                /\ c_isfloating (client wm' c)
                   = if decide (s = c)
                     then negb (c_isfloating (client wm c)) || c_isfixed (client wm c)
                     else c_isfloating (client wm c)).
Proof.
  intros Hsel Hfs. unfold togglefloating. rewrite Hsel, Hfs. cbv zeta.
  set (wm1 := upd_client s _ wm).
  set (wm2 := if c_isfloating (client wm1 s) then _ else wm1).
  assert (layout_frame wm1 wm2) as H12.
  { unfold wm2. destruct (c_isfloating _);
      [apply heap_frame_layout, resize_heap_frame|apply layout_frame_refl]. }
  assert (layout_frame wm1 (arrange (Some (selmon wm2)) wm2)) as Hf.
  { eapply layout_frame_trans; [exact H12|apply arrange_layout_frame]. }
  split; [exact (lf_selmon _ _ Hf)|]. split.
  - rewrite (layout_frame_sel _ _ _ Hf). unfold wm1. by rewrite monitor_upd_client.
  - intros c. destruct (layout_frame_flags _ _ c Hf) as (-> & -> & ->).
    unfold wm1. rewrite client_upd_client. by destruct (decide (s = c)) as [->|].
Qed.

(** X9.  [togglefloating] ignores a fullscreen client altogether; for any
    other selected client it flips [isfloating], except that a client of
    fixed size always ends up floating.  It touches no other client's
    flags, and toggling twice gives back the flag of a client that is not
    of fixed size. *)
Theorem togglefloating_flips (s : Window) (wm : WM) :
  let cl := client wm s in
  m_sel (monitor wm (selmon wm)) = Some s ->
  (c_isfullscreen cl = true -> togglefloating wm = wm)
  /\ (c_isfullscreen cl = false ->
      c_isfloating (client (togglefloating wm) s) = negb (c_isfloating cl) || c_isfixed cl
      /\ (forall c, c <> s ->
            c_isfloating (client (togglefloating wm) c) = c_isfloating (client wm c))
      /\ (c_isfixed cl = true ->
          c_isfloating (client (togglefloating (togglefloating wm)) s) = true)
      /\ (c_isfixed cl = false ->
          c_isfloating (client (togglefloating (togglefloating wm)) s) = c_isfloating cl)).
Proof.
  intros cl Hsel. subst cl. split.
  - intros Hfs. unfold togglefloating. by rewrite Hsel, Hfs.
  - intros Hfs.
    destruct (togglefloating_step s wm Hsel Hfs) as (Hs1 & Hsel1 & Hc1).
    destruct (Hc1 s) as (Hfx & Hfs1 & Hfl). rewrite decide_True in Hfl by done.
    rewrite <- Hs1 in Hsel1. rewrite Hfs in Hfs1.
    destruct (togglefloating_step s _ Hsel1 Hfs1) as (_ & _ & Hc2).
    destruct (Hc2 s) as (_ & _ & Hfl2). rewrite decide_True in Hfl2 by done.
    rewrite Hfl, Hfx in Hfl2.
    split; [exact Hfl|]. split; [|split].
    + intros c Hne. destruct (Hc1 c) as (_ & _ & ->). by rewrite decide_False.
    + intros E. by rewrite Hfl2, E, orb_true_r.
    + intros E. by rewrite Hfl2, E, !orb_false_r, negb_involutive.
Qed.

Lemma togglefloating_flips_witness :
  c_isfloating (client (togglefloating ex_two_tiled) 1) = true
  /\ c_isfloating (client (togglefloating (togglefloating ex_two_tiled)) 1) = false.
Proof.
  assert (m_sel (monitor ex_two_tiled (selmon ex_two_tiled)) = Some 1) as Hsel
    by reflexivity.
  destruct (togglefloating_flips 1 ex_two_tiled Hsel) as (_ & H).
  destruct (H eq_refl) as (H1 & _ & _ & H2).
  split; [exact H1|exact (H2 eq_refl)].
Defined.

(** ** The monitor under a rectangle *)

Lemma INTERSECT_nonneg (x y w h : Z) (m : Monitor) : 0 <= INTERSECT x y w h m.
Proof. unfold INTERSECT. rewrite !MAX_max. apply Z.mul_nonneg_nonneg; lia. Qed.

Lemma recttomon_loop_spec (x y w h : Z) (ms : list Monitor) (i r : nat) (area : Z) :
  let r' := recttomon_loop x y w h ms i r area in
  (r' = r /\ forall k, (k < length ms)%nat -> INTERSECT x y w h (ms !!! k) <= area)
  \/ (exists k, (k < length ms)%nat /\ r' = (i + k)%nat
        /\ area < INTERSECT x y w h (ms !!! k)
        /\ forall k', (k' < length ms)%nat ->
             INTERSECT x y w h (ms !!! k') <= INTERSECT x y w h (ms !!! k)
             /\ ((k' < k)%nat ->
                 INTERSECT x y w h (ms !!! k') < INTERSECT x y w h (ms !!! k))).
Proof.
  revert i r area. induction ms as [|m ms IH]; intros i r area; simpl.
  - left. split; [done|]. intros k Hk. lia.
  - destruct (INTERSECT x y w h m >? area) eqn:Ha.
    + destruct (IH (S i) i (INTERSECT x y w h m)) as [[-> Hall]|(k & Hk & -> & Hgt & Hmax)].
      * right. exists 0%nat. split; [lia|]. split; [f_equal; lia|]. split; [simpl; lia|].
        intros [|k'] Hk'; simpl; [lia|]. split; [apply Hall; lia|lia].
      * right. exists (S k). split; [lia|]. split; [lia|]. simpl. split; [lia|].
        intros [|k'] Hk'; simpl; [lia|].
        destruct (Hmax k' ltac:(lia)) as [H1 H2]. split; [done|]. intros. apply H2. lia.
    + destruct (IH (S i) r area) as [[-> Hall]|(k & Hk & -> & Hgt & Hmax)].
      * left. split; [done|]. intros [|k] Hk; simpl; [lia|]. apply Hall. lia.
      * right. exists (S k). split; [lia|]. split; [lia|]. simpl. split; [lia|].
        intros [|k'] Hk'; simpl; [lia|].
        destruct (Hmax k' ltac:(lia)) as [H1 H2]. split; [done|]. intros. apply H2. lia.
Qed.

(** X10.  [recttomon] returns the selected monitor when the rectangle
    meets no monitor's work area; otherwise it returns a monitor of the
    list whose work area shares the largest area with the rectangle, the
    first such monitor in list order. *)
Theorem recttomon_picks_largest_overlap (x y w h : Z) (wm : WM) :
  let r := recttomon x y w h wm in
  let a i := INTERSECT x y w h (monitor wm i) in
  ((forall i, (i < length (mons wm))%nat -> a i = 0) -> r = selmon wm)
  /\ (forall i, (i < length (mons wm))%nat -> 0 < a i ->
        (r < length (mons wm))%nat
        /\ forall k, (k < length (mons wm))%nat ->
             a k <= a r /\ ((k < r)%nat -> a k < a r)).
Proof.
  intros r a.
  destruct (recttomon_loop_spec x y w h (mons wm) 0 (selmon wm) 0)
    as [[Hr Hall]|(k & Hk & Hr & Hgt & Hmax)]; fold (recttomon x y w h wm) in Hr; fold r in Hr.
  - split; [done|]. intros i Hi Hpos. specialize (Hall i Hi). unfold a, monitor in Hpos. lia.
  - simpl in Hr. subst k. split.
    + intros Hz. specialize (Hz r Hk). unfold a, monitor in Hz. lia.
    + intros i Hi Hpos. split; [done|]. intros k' Hk'. apply (Hmax k' Hk').
Qed.

Lemma recttomon_picks_largest_overlap_witness :
  let r := recttomon 900 100 400 300 ex_two_monitors in
  (r < length (mons ex_two_monitors))%nat
  /\ INTERSECT 900 100 400 300 (monitor ex_two_monitors 0)
     <= INTERSECT 900 100 400 300 (monitor ex_two_monitors r).
Proof.
  assert (1 < length (mons ex_two_monitors))%nat as H1 by (vm_compute; lia).
  assert (0 < length (mons ex_two_monitors))%nat as H0 by (vm_compute; lia).
  assert (0 < INTERSECT 900 100 400 300 (monitor ex_two_monitors 1)) as Hpos
    by (vm_compute; reflexivity).
  destruct (proj2 (recttomon_picks_largest_overlap 900 100 400 300 ex_two_monitors)
                  1%nat H1 Hpos) as [Hr Hk].
  split; [exact Hr|exact (proj1 (Hk 0%nat H0))].
Defined.

(** ** Focus, for a client of any monitor *)

Lemma set_selmon_id (wm : WM) : set_selmon (selmon wm) wm = wm.
Proof. by destruct wm. Qed.

Lemma focus_chosen_set_selmon (w : Window) (wm : WM) :
  focus_chosen (Some w) wm = focus_chosen (Some w) (set_selmon (c_mon (client wm w)) wm).
Proof.
  unfold focus_chosen.
  change (client (set_selmon (c_mon (client wm w)) wm) w) with (client wm w).
  change (selmon (set_selmon (c_mon (client wm w)) wm)) with (c_mon (client wm w)).
  rewrite (bool_decide_true (c_mon (client wm w) = c_mon (client wm w))) by done.
  destruct (bool_decide (c_mon (client wm w) = selmon wm)) eqn:Hb; [|done].
  apply bool_decide_eq_true in Hb. by rewrite Hb, set_selmon_id.
Qed.

Lemma upd_monitor_other (j i : nat) (f : Monitor -> Monitor) (wm : WM) :
  i <> j \/ (length (mons wm) <= j)%nat ->
  monitor (upd_monitor j f wm) i = monitor wm i.
Proof.
  intros [H|H]; [by apply monitor_upd_monitor_ne|by apply monitor_upd_monitor_ge].
Qed.

Lemma detachstack_other (c : Window) (wm : WM) (i : nat) :
  i <> c_mon (client wm c) \/ (length (mons wm) <= c_mon (client wm c))%nat ->
  monitor (detachstack c wm) i = monitor wm i.
Proof.
  intros H. unfold detachstack. destruct (bool_decide _).
  - rewrite upd_monitor_other by (by rewrite length_mons_upd_monitor).
    by rewrite upd_monitor_other.
  - by rewrite upd_monitor_other.
Qed.

Lemma length_mons_detachstack (c : Window) (wm : WM) :
  length (mons (detachstack c wm)) = length (mons wm).
Proof. apply (sf_length _ _ (detachstack_static_frame c wm)). Qed.

Lemma client_detachstack (c c' : Window) (wm : WM) :
  client (detachstack c wm) c' = client wm c'.
Proof. unfold detachstack. by destruct (bool_decide _). Qed.

Lemma selmon_detachstack (c : Window) (wm : WM) : selmon (detachstack c wm) = selmon wm.
Proof. unfold detachstack. by destruct (bool_decide _). Qed.

(** [focus] on a chosen client [w] selects the monitor of [w], moves [w]
    to the head of that monitor's focus stack and makes it the selected
    client there; the other monitors are not touched. *)
Lemma focus_chosen_monitor (w : Window) (wm : WM) (i : nat) :
  let j := c_mon (client wm w) in
  selmon (focus_chosen (Some w) wm) = j
  /\ monitor (focus_chosen (Some w) wm) i
     = if bool_decide (i = j /\ (j < length (mons wm))%nat)
       then set_m_focus (Some w) (w :: unlink w (m_stack (monitor wm j))) (monitor wm j)
       else monitor wm i.
Proof.
  intros j. rewrite focus_chosen_set_selmon. fold j.
  set (wm0 := set_selmon j wm).
  assert (c_mon (client wm0 w) = selmon wm0) as Hown by done.
  destruct (decide (j < length (mons wm))%nat) as [Hlt|Hge].
  - destruct (focus_chosen_own w wm0 Hown Hlt) as [Hs Hm]. split; [done|].
    case_bool_decide as Hi.
    + destruct Hi as [-> _]. exact Hm.
    + assert (i <> j) as Hne by (intros ->; by apply Hi). clear Hi Hs Hm.
      unfold focus_chosen. rewrite bool_decide_true by done.
      set (wm2 := if c_isurgent (client wm0 w) then clearurgent w wm0 else wm0).
      assert (mons wm2 = mons wm /\ selmon wm2 = j /\ c_mon (client wm2 w) = j)
        as (Hmons & Hsel & Hcm).
      { subst wm2. destruct (c_isurgent _); [|done].
        unfold clearurgent. by rewrite client_upd_client_eq. }
      assert (monitor wm2 i = monitor wm i) as Hm2 by (unfold monitor; by rewrite Hmons).
      clearbody wm2. cbv zeta.
      assert (selmon (attachstack w (detachstack w wm2)) = j) as ->
        by (unfold attachstack; simpl; by rewrite selmon_detachstack).
      rewrite upd_monitor_other by (by left).
      unfold attachstack. rewrite client_detachstack, Hcm.
      rewrite upd_monitor_other by (by left).
      rewrite detachstack_other by (left; by rewrite Hcm). done.
  - split.
    + unfold focus_chosen. rewrite bool_decide_true by done. cbv zeta.
      unfold attachstack. simpl. rewrite selmon_detachstack.
      by destruct (c_isurgent _).
    + rewrite bool_decide_false by (intros [_ ?]; lia).
      unfold focus_chosen. rewrite bool_decide_true by done.
      set (wm2 := if c_isurgent (client wm0 w) then clearurgent w wm0 else wm0).
      assert (mons wm2 = mons wm /\ selmon wm2 = j /\ c_mon (client wm2 w) = j)
        as (Hmons & Hsel & Hcm).
      { subst wm2. destruct (c_isurgent _); [|done].
        unfold clearurgent. by rewrite client_upd_client_eq. }
      assert (monitor wm2 i = monitor wm i) as Hm2 by (unfold monitor; by rewrite Hmons).
      assert (length (mons wm2) <= j)%nat as Hge2 by (rewrite Hmons; lia).
      clearbody wm2. cbv zeta.
      assert (selmon (attachstack w (detachstack w wm2)) = j) as ->
        by (unfold attachstack; simpl; by rewrite selmon_detachstack).
      rewrite upd_monitor_other
        by (right; unfold attachstack;
            by rewrite length_mons_upd_monitor, length_mons_detachstack).
      unfold attachstack. rewrite client_detachstack, Hcm.
      rewrite upd_monitor_other by (right; by rewrite length_mons_detachstack).
      rewrite detachstack_other by (right; by rewrite Hcm). done.
Qed.

Lemma focus_chosen_None_monitor (wm : WM) (i : nat) :
  selmon (focus_chosen None wm) = selmon wm
  /\ m_stack (monitor (focus_chosen None wm) i) = m_stack (monitor wm i)
  /\ m_clients (monitor (focus_chosen None wm) i) = m_clients (monitor wm i)
  /\ m_sel (monitor (focus_chosen None wm) i)
     = if bool_decide (i = selmon wm /\ (selmon wm < length (mons wm))%nat)
       then None else m_sel (monitor wm i).
Proof.
  unfold focus_chosen. split; [done|].
  destruct (decide (selmon wm < length (mons wm))%nat) as [Hlt|Hge].
  - destruct (decide (i = selmon wm)) as [->|Hne].
    + rewrite monitor_upd_monitor_eq by done. by rewrite bool_decide_true.
    + rewrite monitor_upd_monitor_ne by done.
      by rewrite bool_decide_false by (by intros [? _]).
  - rewrite monitor_upd_monitor_ge by lia.
    by rewrite bool_decide_false by (intros [_ ?]; lia).
Qed.

(** [focus(NULL)] in terms of the clients on the focus stacks: the stack
    of every monitor keeps its members, the only client that can be new on
    a stack or newly selected is the one [focus] picked from the selected
    monitor's stack. *)
Lemma focus_None_lists (wm : WM) (i : nat) :
  let pick := first_visible wm (m_stack (monitor wm (selmon wm))) in
  m_clients (monitor (focus None wm) i) = m_clients (monitor wm i)
  /\ (forall x, x ∈ m_stack (monitor (focus None wm) i) ->
        x ∈ m_stack (monitor wm i) \/ pick = Some x)
  /\ (forall x, x ∈ m_stack (monitor wm i) -> x ∈ m_stack (monitor (focus None wm) i))
  /\ (forall x, m_sel (monitor (focus None wm) i) = Some x ->
        m_sel (monitor wm i) = Some x \/ pick = Some x).
Proof.
  intros pick. rewrite focus_None_eq. fold pick. destruct pick as [w|].
  - destruct (focus_chosen_monitor w wm i) as [_ ->].
    case_bool_decide as Hi; [|by repeat split; auto].
    destruct Hi as [-> _]. simpl. repeat split.
    + intros x [->|Hx]%elem_of_cons; [by right|left; by apply unlink_subseteq in Hx].
    + intros x Hx. destruct (decide (x = w)) as [->|Hne]; [by left|].
      right. by apply unlink_elem_ne.
    + intros x [= ->]. by right.
  - destruct (focus_chosen_None_monitor wm i) as (_ & -> & -> & ->).
    repeat split; auto. case_bool_decide; [done|auto].
Qed.

(** ** Switching monitors *)

Lemma focus_None_stack_owned_at (wm : WM) (k : nat) :
  stack_owned_at wm (selmon wm) ->
  stack_owned_at wm k -> stack_owned_at (focus None wm) k.
Proof.
  intros Hsel Hk. unfold stack_owned_at in *. rewrite Forall_forall in *.
  intros x Hx. rewrite (static_frame_mon _ _ x (focus_static_frame None wm)).
  apply Hk. revert Hx. rewrite focus_None_eq.
  destruct (first_visible wm _) as [w|] eqn:Hfv.
  - apply first_visible_elem in Hfv as [Hin _]. pose proof (Hsel _ Hin) as Hw.
    destruct (focus_chosen_monitor w wm k) as [_ ->].
    case_bool_decide as Hi; [|done].
    destruct Hi as [-> _]. simpl. rewrite Hw.
    intros [->|Hx]%elem_of_cons; [done|]. by apply unlink_subseteq in Hx.
  - by destruct (focus_chosen_None_monitor wm k) as (_ & -> & _).
Qed.

Lemma focusmon_step (i : Z) (wm : WM) :
  (forall k, stack_owned_at wm k) ->
  selmon (focusmon i wm)
  = (if bool_decide (length (mons wm) <= 1)%nat then selmon wm else dirtomon i wm)
  /\ length (mons (focusmon i wm)) = length (mons wm)
  /\ (forall k, stack_owned_at (focusmon i wm) k).
Proof.
  intros Hown. unfold focusmon, unfocus.
  destruct (bool_decide (length (mons wm) <= 1)%nat); [done|].
  destruct (bool_decide (dirtomon i wm = selmon wm)) eqn:Hd.
  - apply bool_decide_eq_true in Hd. by rewrite Hd.
  - split; [|split].
    + rewrite focus_None_selmon; [done|]. exact (Hown (dirtomon i wm)).
    + by rewrite (sf_length _ _ (focus_static_frame None _)).
    + intros k. apply focus_None_stack_owned_at;
        [exact (Hown (dirtomon i wm))|exact (Hown k)].
Qed.

(** X11.  With at least two monitors, [focusmon(+1)] selects the next
    monitor of the list, wrapping from the last to the first, and
    [focusmon(-1)] the previous one, wrapping from the first to the last;
    each undoes the other.  (Every client on a monitor's focus stack is
    assumed to belong to that monitor, since [focus] follows the monitor
    of the client it picks.) *)
Theorem focusmon_there_and_back (wm : WM) :
  let n := length (mons wm) in
  (selmon wm < n)%nat ->
  (2 <= n)%nat ->
  (forall k, stack_owned_at wm k) ->
  selmon (focusmon 1 wm) = (if bool_decide (S (selmon wm) < n)%nat
                            then S (selmon wm) else 0%nat)
  /\ selmon (focusmon (-1) wm) = (if bool_decide (selmon wm = 0%nat)
                                  then (n - 1)%nat else (selmon wm - 1)%nat)
  /\ selmon (focusmon (-1) (focusmon 1 wm)) = selmon wm
  /\ selmon (focusmon 1 (focusmon (-1) wm)) = selmon wm.
Proof.
  intros n Hlt Hn Hown.
  destruct (focusmon_step 1 wm Hown) as (Ha & Hla & Howna).
  destruct (focusmon_step (-1) wm Hown) as (Hb & Hlb & Hownb).
  destruct (focusmon_step (-1) _ Howna) as (Hab & _).
  destruct (focusmon_step 1 _ Hownb) as (Hba & _).
  rewrite Hla in Hab. rewrite Hlb in Hba.
  rewrite bool_decide_false in Ha, Hb, Hab, Hba by (fold n; lia).
  unfold dirtomon in *. fold n in Ha, Hb, Hab, Hba. simpl in Ha, Hb, Hab, Hba.
  rewrite Hla in Hab. rewrite Hlb in Hba. fold n in Hab, Hba.
  split; [done|]. split; [done|]. split.
  - rewrite Hab, Ha. repeat case_bool_decide; lia.
  - rewrite Hba, Hb. repeat case_bool_decide; lia.
Qed.

Lemma focusmon_there_and_back_witness :
  selmon (focusmon 1 ex_two_monitors) = 1%nat
  /\ selmon (focusmon (-1) (focusmon 1 ex_two_monitors)) = 0%nat.
Proof.
  assert (selmon ex_two_monitors < length (mons ex_two_monitors))%nat as Hlt
    by (vm_compute; lia).
  assert (2 <= length (mons ex_two_monitors))%nat as Hn by (vm_compute; lia).
  assert (forall k, stack_owned_at ex_two_monitors k) as Hown.
  { intros [|[|k]]; unfold stack_owned_at; vm_compute; repeat constructor. }
  destruct (focusmon_there_and_back ex_two_monitors Hlt Hn Hown) as (H1 & _ & H2 & _).
  split; [exact H1|exact H2].
Defined.

(** ** Linking and unlinking *)


Lemma upd_monitor_twice (i : nat) (f g : Monitor -> Monitor) (wm : WM) :
  upd_monitor i g (upd_monitor i f wm) = upd_monitor i (fun m => g (f m)) wm.
Proof.
  destruct (decide (i < length (mons wm))%nat) as [Hlt|Hge].
  - unfold upd_monitor at 1. rewrite monitor_upd_monitor_eq by done.
    unfold upd_monitor, set_mons. simpl. by rewrite list_insert_insert_eq.
  - unfold upd_monitor, set_mons, monitor. simpl.
    by rewrite !list_insert_ge by (rewrite ?list_insert_ge; lia).
Qed.


(** ** Promoting a client to the head of the client list *)

Lemma static_frame_clients (wm wm' : WM) (k : nat) :
  static_frame wm wm' -> m_clients (monitor wm' k) = m_clients (monitor wm k).
Proof. intros [_ H _ _ _ _]. exact (f_equal m_clients (H k)). Qed.

Lemma layout_frame_stack (wm wm' : WM) (k : nat) :
  layout_frame wm wm' -> m_stack (monitor wm' k) = m_stack (monitor wm k).
Proof. intros Hf. exact (f_equal m_stack (lf_monitor _ _ Hf k)). Qed.

Lemma ISVISIBLE_upd_monitor (i : nat) (f : Monitor -> Monitor) (wm : WM) (x : Window) :
  (forall m, m_seltags (f m) = m_seltags m /\ m_tagset0 (f m) = m_tagset0 m
             /\ m_tagset1 (f m) = m_tagset1 m) ->
  ISVISIBLE (upd_monitor i f wm) x = ISVISIBLE wm x.
Proof.
  intros Hf. unfold ISVISIBLE, m_tagset. rewrite client_upd_monitor.
  destruct (monitor_upd_monitor_cases i (c_mon (client wm x)) f wm) as [->|[-> ->]];
    [done|].
  by destruct (Hf (monitor wm i)) as (-> & -> & ->).
Qed.

Lemma istiled_upd_monitor (i : nat) (f : Monitor -> Monitor) (wm : WM) (x : Window) :
  (forall m, m_seltags (f m) = m_seltags m /\ m_tagset0 (f m) = m_tagset0 m
             /\ m_tagset1 (f m) = m_tagset1 m) ->
  istiled (upd_monitor i f wm) x = istiled wm x.
Proof.
  intros Hf. unfold istiled. by rewrite ISVISIBLE_upd_monitor, client_upd_monitor.
Qed.

Lemma istiled_true (wm : WM) (x : Window) :
  istiled wm x = true -> c_isfloating (client wm x) = false /\ ISVISIBLE wm x = true.
Proof. unfold istiled. by destruct (c_isfloating (client wm x)), (ISVISIBLE wm x). Qed.

Lemma nexttiled_ext (wm wm' : WM) (l : list Window) :
  (forall x, istiled wm' x = istiled wm x) -> nexttiled wm' l = nexttiled wm l.
Proof. intros H. induction l as [|x l IH]; simpl; [done|]. by rewrite H, IH. Qed.

Lemma unlink_Permutation (x : Window) (l : list Window) :
  x ∈ l -> x :: unlink x l ≡ₚ l.
Proof.
  induction l as [|t l IH]; simpl.
  - by intros ?%elem_of_nil.
  - destruct (Z.eqb_spec t x) as [->|Hne]; [done|].
    intros [->|Hin]%elem_of_cons; [done|].
    rewrite <- (IH Hin) at 2. apply Permutation_swap.
Qed.

Lemma nexttiled_head (wm : WM) (l : list Window) (x : Window) (r : list Window) :
  nexttiled wm l = x :: r -> x ∈ l /\ istiled wm x = true.
Proof.
  induction l as [|t l IH]; simpl; [done|].
  destruct (istiled wm t) eqn:Ht.
  - intros [= -> ->]. split; [by left|done].
  - intros H. destruct (IH H) as [Hin Hx]. split; [by right|done].
Qed.

Lemma nexttiled_suffix (wm : WM) (l : list Window) (x : Window) (r : list Window) :
  nexttiled wm l = x :: r -> r `suffix_of` l.
Proof.
  induction l as [|t l IH]; simpl; [done|].
  destruct (istiled wm t).
  - intros [= -> ->]. by apply suffix_cons_r.
  - intros H. by apply suffix_cons_r, IH.
Qed.

(** [pop(c)] for a visible client of the selected monitor. *)
Lemma pop_spec (c : Window) (wm : WM) :
  let m := monitor wm (selmon wm) in
  let wm' := pop c wm in
  let m' := monitor wm' (selmon wm) in
  (selmon wm < length (mons wm))%nat ->
  c_mon (client wm c) = selmon wm ->
  ISVISIBLE wm c = true ->
  selmon wm' = selmon wm
  /\ m_clients m' = c :: unlink c (m_clients m)
  /\ m_sel m' = Some c
  /\ (forall x, istiled wm' x = istiled wm x).
Proof.
  intros m wm' m' Hlt Hmon Hvis. subst m m' wm'. unfold pop. cbv zeta.
  set (wm1 := attach c (detach c wm)).
  assert (wm1 = upd_monitor (selmon wm)
                  (fun m => set_m_clients (c :: unlink c (m_clients m)) m) wm) as E1.
  { unfold wm1, attach, detach. by rewrite client_upd_monitor, upd_monitor_twice, Hmon. }
  assert (forall x, client wm1 x = client wm x) as Hcl
    by (intros x; by rewrite E1, client_upd_monitor).
  assert (forall x, ISVISIBLE wm1 x = ISVISIBLE wm x) as Hv1
    by (intros x; rewrite E1; by apply ISVISIBLE_upd_monitor).
  assert (monitor wm1 (selmon wm)
          = set_m_clients (c :: unlink c (m_clients (monitor wm (selmon wm))))
                          (monitor wm (selmon wm))) as Hm1
    by (by rewrite E1, monitor_upd_monitor_eq).
  assert (length (mons wm1) = length (mons wm)) as Hl1
    by (by rewrite E1, length_mons_upd_monitor).
  rewrite focus_Some_eq, Hv1, Hvis.
  destruct (focus_chosen_monitor c wm1 (selmon wm)) as [Hs2 Hm2].
  rewrite Hcl, Hmon in Hs2, Hm2.
  rewrite bool_decide_true in Hm2 by (by rewrite Hl1).
  set (wm2 := focus_chosen (Some c) wm1) in *.
  pose proof (arrange_layout_frame (Some (c_mon (client wm2 c))) wm2) as Hf.
  split; [by rewrite (lf_selmon _ _ Hf)|].
  rewrite (static_frame_clients _ _ (selmon wm) (layout_frame_static _ _ Hf)).
  rewrite (layout_frame_sel _ _ (selmon wm) Hf).
  rewrite Hm2, Hm1. split; [done|]. split; [done|].
  intros x.
  rewrite (static_frame_istiled _ _ x (layout_frame_static _ _ Hf)).
  rewrite (static_frame_istiled wm1 wm2 x (focus_chosen_static_frame (Some c) wm1)).
  rewrite E1. by apply istiled_upd_monitor.
Qed.

(** X13.  [zoom] on a tiled selected client of an arranging layout: a
    client that is not the first tiled one becomes the head of the client
    list, which makes it the master; the first tiled client instead hands
    the head to the next tiled client, and when there is none nothing
    changes.  The promoted client is selected, stays tiled, and the client
    list keeps its members. *)
Theorem zoom_promotes_to_master (c : Window) (wm : WM) :
  let m := monitor wm (selmon wm) in
  (selmon wm < length (mons wm))%nat ->
  m_sel m = Some c ->
  is_Some (l_arrange (m_lt m (m_sellt m))) ->
  istiled wm c = true ->
  (forall x, x ∈ m_clients m -> c_mon (client wm x) = selmon wm) ->
  c ∈ m_clients m ->
  exists t rest,
    nexttiled wm (m_clients m) = t :: rest
    /\ match (if t =? c then head (nexttiled wm rest) else Some c) with
       | None => zoom wm = Some wm
       | Some x =>
           exists wm', zoom wm = Some wm'
             /\ selmon wm' = selmon wm
             /\ m_clients (monitor wm' (selmon wm)) = x :: unlink x (m_clients m)
             /\ m_clients (monitor wm' (selmon wm)) ≡ₚ m_clients m
             /\ head (nexttiled wm' (m_clients (monitor wm' (selmon wm)))) = Some x
             /\ m_sel (monitor wm' (selmon wm)) = Some x
       end.
Proof.
  intros m Hlt Hsel Harr Htiled Hown Hin.
  destruct (istiled_true _ _ Htiled) as [Hfl Hvis].
  assert (exists t rest, nexttiled wm (m_clients m) = t :: rest) as (t & rest & Hnt).
  { clear -Hin Htiled. induction (m_clients m) as [|a l IH]; [by apply elem_of_nil in Hin|].
    simpl. destruct (istiled wm a) eqn:Ha; [eauto|].
    apply elem_of_cons in Hin as [->|Hin]; [congruence|]. by apply IH. }
  exists t, rest. split; [done|].
  assert (forall x, x ∈ m_clients m -> istiled wm x = true ->
            exists wm', pop x wm = wm' /\ selmon wm' = selmon wm
              /\ m_clients (monitor wm' (selmon wm)) = x :: unlink x (m_clients m)
              /\ m_clients (monitor wm' (selmon wm)) ≡ₚ m_clients m
              /\ head (nexttiled wm' (m_clients (monitor wm' (selmon wm)))) = Some x
              /\ m_sel (monitor wm' (selmon wm)) = Some x) as Hpop.
  { intros x Hx Hxt.
    destruct (istiled_true _ _ Hxt) as [_ Hxv].
    destruct (pop_spec x wm Hlt (Hown x Hx) Hxv) as (H1 & H2 & H3 & H4).
    eexists. split; [done|]. split; [done|]. split; [done|].
    split; [rewrite H2; by apply unlink_Permutation|]. split; [|done].
    rewrite H2. cbn [nexttiled]. by rewrite H4, Hxt. }
  unfold zoom. fold m. rewrite Hsel, Hfl, Hnt.
  rewrite bool_decide_true by done. cbn [negb orb].
  destruct (t =? c) eqn:Htc.
  - destruct (nexttiled wm rest) as [|x r2] eqn:Hn2; [done|]. cbn [head].
    destruct (nexttiled_head _ _ _ _ Hn2) as [Hx Hxt].
    destruct (Hpop x) as (wm' & <- & H); [|done|by eexists].
    apply nexttiled_suffix in Hnt. destruct Hnt as [pre ->].
    apply elem_of_app. by right.
  - destruct (Hpop c Hin Htiled) as (wm' & <- & H). by eexists.
Qed.

Lemma zoom_promotes_to_master_witness :
  exists wm', zoom ex_tile_scenario = Some wm'
    /\ m_clients (monitor wm' 0%nat) = [2; 1]
    /\ m_sel (monitor wm' 0%nat) = Some 2.
Proof.
  assert (selmon ex_tile_scenario < length (mons ex_tile_scenario))%nat as Hlt
    by (vm_compute; lia).
  assert (m_sel (monitor ex_tile_scenario (selmon ex_tile_scenario)) = Some 2) as Hsel
    by reflexivity.
  assert (is_Some (l_arrange (m_lt (monitor ex_tile_scenario (selmon ex_tile_scenario))
                                   (m_sellt (monitor ex_tile_scenario
                                                     (selmon ex_tile_scenario))))))
    as Harr by (vm_compute; eauto).
  assert (istiled ex_tile_scenario 2 = true) as Ht by (vm_compute; reflexivity).
  assert (forall x, x ∈ m_clients (monitor ex_tile_scenario (selmon ex_tile_scenario)) ->
                    c_mon (client ex_tile_scenario x) = selmon ex_tile_scenario) as Hown.
  { intros x Hx. change (x ∈ [1; 2]) in Hx.
    apply elem_of_cons in Hx as [->|Hx]; [reflexivity|].
    apply elem_of_cons in Hx as [->|Hx]; [reflexivity|].
    by apply elem_of_nil in Hx. }
  assert (2 ∈ m_clients (monitor ex_tile_scenario (selmon ex_tile_scenario))) as Hin.
  { change (2 ∈ [1; 2]). apply elem_of_cons. right. apply elem_of_cons. by left. }
  destruct (zoom_promotes_to_master 2 ex_tile_scenario Hlt Hsel Harr Ht Hown Hin)
    as (t & rest & Hnt & H).
  change (nexttiled ex_tile_scenario
            (m_clients (monitor ex_tile_scenario (selmon ex_tile_scenario))))
    with [1; 2] in Hnt.
  injection Hnt as <- <-. simpl in H.
  destruct H as (wm' & Hz & _ & Hc & _ & _ & Hs).
  exists wm'. split; [exact Hz|]. split; [exact Hc|exact Hs].
Defined.

(** ** Walking the client list *)













(** ** Sending a client to another monitor *)

(** X15.  [sendmon(c, m)] to another monitor: the client leaves the
    client list of its old monitor and becomes the head of the client list
    of [m], belongs to [m], carries exactly the tags [m] shows, and is on
    the focus stack of [m]; the client lists of the other monitors and the
    tags and monitors of the other clients are unchanged.  Sending a client
    to the monitor it is on does nothing. *)
Theorem sendmon_moves_client (c : Window) (m : nat) (wm : WM) :
  let i := c_mon (client wm c) in
  let wm' := sendmon c m wm in
  (i < length (mons wm))%nat ->
  (m < length (mons wm))%nat ->
  (i = m -> wm' = wm)
  /\ (i <> m ->
      c_mon (client wm' c) = m
      /\ c_tags (client wm' c) = m_tagset (monitor wm m) (m_seltags (monitor wm m))
      /\ m_clients (monitor wm' m) = c :: m_clients (monitor wm m)
      /\ m_clients (monitor wm' i) = unlink c (m_clients (monitor wm i))
      /\ (forall k, k <> i -> k <> m ->
            m_clients (monitor wm' k) = m_clients (monitor wm k))
      /\ (forall x, x <> c ->
            c_mon (client wm' x) = c_mon (client wm x)
            /\ c_tags (client wm' x) = c_tags (client wm x))
      /\ (c ∈ m_stack (monitor wm' m))).
Proof.
  intros i wm' Hi Hm. subst wm'. unfold sendmon. fold i. split.
  { intros E. by rewrite bool_decide_true. }
  intros Hne. rewrite bool_decide_false by done. unfold unfocus. cbv zeta.
  set (wm1 := detach c wm).
  set (wm2 := detachstack c wm1).
  set (wm3 := upd_client c (set_c_mon m) wm2).
  set (wm4 := upd_client c (set_c_tags _) wm3).
  set (wm5 := attach c wm4).
  set (wm6 := attachstack c wm5).
  set (wm7 := focus None wm6).
  (* the client lists before [focus] *)
  assert (forall k, m_clients (monitor wm1 k)
                    = if decide (k = i) then unlink c (m_clients (monitor wm i))
                      else m_clients (monitor wm k)) as H1.
  { intros k. unfold wm1, detach. fold i. destruct (decide (k = i)) as [->|Hk].
    - by rewrite monitor_upd_monitor_eq.
    - by rewrite monitor_upd_monitor_ne. }
  assert (forall k, m_seltags (monitor wm1 k) = m_seltags (monitor wm k)
                    /\ m_tagset0 (monitor wm1 k) = m_tagset0 (monitor wm k)
                    /\ m_tagset1 (monitor wm1 k) = m_tagset1 (monitor wm k)) as Hv1.
  { intros k. unfold wm1, detach.
    by destruct (monitor_upd_monitor_cases (c_mon (client wm c)) k
                   (fun m => set_m_clients (unlink c (m_clients m)) m) wm)
      as [->|[-> ->]]. }
  assert (static_frame wm1 wm2) as H12 by apply detachstack_static_frame.
  assert (forall x, client wm2 x = client wm x) as Hc2.
  { intros x. unfold wm2. rewrite client_detachstack. apply client_upd_monitor. }
  assert (forall k, monitor wm4 k = monitor wm2 k) as Hm4
    by (intros k; unfold wm4, wm3; by rewrite !monitor_upd_client).
  assert (forall x, c_mon (client wm4 x) = if decide (x = c) then m else c_mon (client wm x))
    as Hmon4.
  { intros x. unfold wm4, wm3. destruct (decide (x = c)) as [->|Hx].
    - by rewrite !client_upd_client_eq.
    - rewrite !client_upd_client_ne by done. by rewrite Hc2. }
  assert (forall x, c_tags (client wm4 x)
                    = if decide (x = c)
                      then m_tagset (monitor wm m) (m_seltags (monitor wm m))
                      else c_tags (client wm x)) as Htag4.
  { intros x. unfold wm4. destruct (decide (x = c)) as [->|Hx].
    - rewrite client_upd_client_eq. simpl. unfold wm3. rewrite monitor_upd_client.
      rewrite (static_frame_seltags _ _ m H12), (static_frame_tagset _ _ m _ H12).
      destruct (Hv1 m) as (-> & E0 & E1). unfold m_tagset. by rewrite E0, E1.
    - rewrite client_upd_client_ne by done. unfold wm3.
      rewrite client_upd_client_ne by done. by rewrite Hc2. }
  assert (length (mons wm4) = length (mons wm)) as Hl4.
  { unfold wm4, wm3. simpl. unfold wm2. rewrite length_mons_detachstack.
    apply length_mons_upd_monitor. }
  assert (c_mon (client wm4 c) = m) as Hcm4 by (by rewrite Hmon4, decide_True).
  assert (forall k, m_clients (monitor wm5 k)
                    = if decide (k = m) then c :: m_clients (monitor wm k)
                      else m_clients (monitor wm1 k)) as H5.
  { intros k. unfold wm5, attach. rewrite Hcm4. destruct (decide (k = m)) as [->|Hk].
    - rewrite monitor_upd_monitor_eq by (by rewrite Hl4). simpl.
      rewrite Hm4, (static_frame_clients _ _ m H12), H1. by rewrite decide_False.
    - rewrite monitor_upd_monitor_ne by done.
      by rewrite Hm4, (static_frame_clients _ _ k H12). }
  assert (forall x, client wm5 x = client wm4 x) as Hc5
    by (intros x; apply client_upd_monitor).
  assert (length (mons wm5) = length (mons wm)) as Hl5
    by (unfold wm5, attach; by rewrite length_mons_upd_monitor).
  assert (static_frame wm5 wm6) as H56 by apply attachstack_static_frame.
  assert (c ∈ m_stack (monitor wm6 m)) as Hst6.
  { unfold wm6, attachstack. rewrite Hc5, Hcm4.
    rewrite monitor_upd_monitor_eq by (by rewrite Hl5). simpl. by left. }
  assert (static_frame wm6 wm7) as H67 by apply focus_static_frame.
  pose proof (arrange_layout_frame None wm7) as H78.
  assert (static_frame wm5 (arrange None wm7)) as H58.
  { eapply static_frame_trans; [exact H56|].
    eapply static_frame_trans; [exact H67|by apply layout_frame_static]. }
  split; [by rewrite (static_frame_mon _ _ c H58), Hc5|].
  split; [by rewrite (static_frame_tags _ _ c H58), Hc5, Htag4, decide_True|].
  split; [by rewrite (static_frame_clients _ _ m H58), H5, decide_True|].
  split.
  { rewrite (static_frame_clients _ _ i H58), H5, decide_False by done.
    by rewrite H1, decide_True. }
  split.
  { intros k Hki Hkm. rewrite (static_frame_clients _ _ k H58), H5, decide_False by done.
    by rewrite H1, decide_False. }
  split.
  { intros x Hx. rewrite (static_frame_mon _ _ x H58), (static_frame_tags _ _ x H58).
    by rewrite !Hc5, Hmon4, Htag4, !decide_False. }
  rewrite (layout_frame_stack _ _ m H78).
  by apply (focus_None_lists wm6 m).
Qed.

Lemma sendmon_moves_client_witness :
  let wm' := sendmon 1 1 ex_two_monitors in
  c_mon (client wm' 1) = 1%nat
  /\ m_clients (monitor wm' 1) = [1; 2]
  /\ m_clients (monitor wm' 0) = [].
Proof.
  assert (c_mon (client ex_two_monitors 1) < length (mons ex_two_monitors))%nat as Hi
    by (vm_compute; lia).
  assert (1 < length (mons ex_two_monitors))%nat as Hm by (vm_compute; lia).
  assert (c_mon (client ex_two_monitors 1) <> 1%nat) as Hne by (vm_compute; lia).
  destruct (proj2 (sendmon_moves_client 1 1%nat ex_two_monitors Hi Hm) Hne)
    as (H1 & _ & H2 & H3 & _).
  split; [exact H1|]. split; [exact H2|exact H3].
Defined.

(** ** Unmanaging a client *)

Lemma heap_upd_client_ne (a c : Window) (f : Client -> Client) (wm : WM) :
  a <> c -> heap (upd_client a f wm) !! c = heap wm !! c.
Proof. intros H. unfold upd_client. simpl. by rewrite lookup_insert_ne. Qed.

Lemma heap_resize_ne (a c : Window) (r : Rect) (b : bool) (wm : WM) :
  a <> c -> heap (resize a r b wm) !! c = heap wm !! c.
Proof.
  intros H. unfold resize. destruct (applysizehints _ _ _ _) as [[] [[[x y] w] h]]; [|done].
  unfold resizeclient. by apply heap_upd_client_ne.
Qed.

Lemma heap_upd_monitor (i : nat) (f : Monitor -> Monitor) (wm : WM) :
  heap (upd_monitor i f wm) = heap wm.
Proof. done. Qed.

Lemma heap_detachstack (c : Window) (wm : WM) : heap (detachstack c wm) = heap wm.
Proof. unfold detachstack. by destruct (bool_decide _). Qed.

Lemma ne_of_visible (wm : WM) (a c : Window) :
  ISVISIBLE wm a = true -> ISVISIBLE wm c = false -> a <> c.
Proof. intros Ha Hc ->. congruence. Qed.

Lemma heap_showhide_hidden (l : list Window) (wm : WM) (c : Window) :
  ISVISIBLE wm c = false -> heap (showhide l wm) !! c = heap wm !! c.
Proof.
  revert wm. induction l as [|a l IH]; intros wm Hc; simpl; [done|].
  destruct (ISVISIBLE wm a) eqn:Ha; [|by apply IH].
  match goal with |- context [if ?b then _ else _] => destruct b end; [|by apply IH].
  rewrite IH.
  - apply heap_resize_ne. by apply (ne_of_visible wm).
  - by rewrite (static_frame_ISVISIBLE _ _ c (heap_frame_static _ _ (resize_heap_frame _ _ _ _))).
Qed.

Lemma heap_tile_loop_hidden (mi : nat) (n mw : Z) (l : list Window) (i my ty : Z)
    (wm : WM) (c : Window) :
  ISVISIBLE wm c = false ->
  heap (tile_loop mi n mw l i my ty wm) !! c = heap wm !! c.
Proof.
  revert i my ty wm. induction l as [|a l IH]; intros i my ty wm Hc; simpl; [done|].
  destruct (istiled wm a) eqn:Ha; [|by apply IH].
  destruct (istiled_true _ _ Ha) as [_ Hav].
  destruct (i <? to_uint (m_nmaster (monitor wm mi)));
    (rewrite IH;
     [apply heap_resize_ne; by apply (ne_of_visible wm)
     |by rewrite (static_frame_ISVISIBLE _ _ c
                    (heap_frame_static _ _ (resize_heap_frame _ _ _ _)))]).
Qed.

Lemma heap_monocle_loop_hidden (mi : nat) (l : list Window) (wm : WM) (c : Window) :
  ISVISIBLE wm c = false -> heap (monocle_loop mi l wm) !! c = heap wm !! c.
Proof.
  revert wm. induction l as [|a l IH]; intros wm Hc; simpl; [done|].
  destruct (istiled wm a) eqn:Ha; [|by apply IH].
  destruct (istiled_true _ _ Ha) as [_ Hav].
  rewrite IH.
  - apply heap_resize_ne. by apply (ne_of_visible wm).
  - by rewrite (static_frame_ISVISIBLE _ _ c
                  (heap_frame_static _ _ (resize_heap_frame _ _ _ _))).
Qed.

Lemma heap_arrangemon_hidden (mi : nat) (wm : WM) (c : Window) :
  ISVISIBLE wm c = false -> heap (arrangemon mi wm) !! c = heap wm !! c.
Proof.
  intros Hc. unfold arrangemon.
  set (wm1 := upd_monitor mi _ wm).
  assert (ISVISIBLE wm1 c = false) as Hc1.
  { rewrite <- Hc. apply static_frame_ISVISIBLE, layout_frame_static,
      set_ltsymbol_layout_frame. }
  destruct (l_arrange _) as [[]|]; [| |done].
  - unfold tile. destruct (_ =? 0); [done|]. by rewrite heap_tile_loop_hidden.
  - unfold monocle.
    match goal with |- context [if ?b then _ else _] => destruct b end.
    + rewrite heap_monocle_loop_hidden; [done|].
      rewrite <- Hc1. apply static_frame_ISVISIBLE, layout_frame_static,
        set_ltsymbol_layout_frame.
    + by rewrite heap_monocle_loop_hidden.
Qed.

Lemma heap_arrange_hidden (mi : nat) (wm : WM) (c : Window) :
  ISVISIBLE wm c = false -> heap (arrange (Some mi) wm) !! c = heap wm !! c.
Proof.
  intros Hc. unfold arrange, restack.
  rewrite heap_arrangemon_hidden.
  - by apply heap_showhide_hidden.
  - rewrite <- Hc. apply static_frame_ISVISIBLE, heap_frame_static, showhide_heap_frame.
Qed.

Lemma heap_focus_None_hidden (wm : WM) (c : Window) :
  ISVISIBLE wm c = false -> heap (focus None wm) !! c = heap wm !! c.
Proof.
  intros Hc. rewrite focus_None_eq.
  destruct (first_visible wm _) as [w|] eqn:Hfv; [|done].
  apply first_visible_elem in Hfv as [_ Hw].
  pose proof (ne_of_visible wm w c Hw Hc) as Hne.
  unfold focus_chosen. cbv zeta. rewrite heap_upd_monitor.
  unfold attachstack. rewrite heap_upd_monitor, heap_detachstack.
  destruct (bool_decide (c_mon (client wm w) = selmon wm));
    match goal with |- context [if ?b then _ else _] => destruct b end;
    unfold clearurgent; by rewrite ?heap_upd_client_ne.
Qed.

(** X16.  [unmanage(c)] leaves no trace of the client: its record is off
    the heap, and it is on no monitor's client list, on no focus stack and
    nowhere the selected client.  The other clients stay on their client
    lists with their tags, monitor and flags.  (The client is assumed to be
    linked once, into the lists of its own monitor only.) *)
Theorem unmanage_removes_client (c : Window) (destroyed : bool) (wm : WM) :
  let j := c_mon (client wm c) in
  let wm' := unmanage c destroyed wm in
  (j < length (mons wm))%nat ->
  NoDup (m_clients (monitor wm j)) ->
  NoDup (m_stack (monitor wm j)) ->
  (forall k, k <> j ->
     (c ∉ m_clients (monitor wm k)) /\ (c ∉ m_stack (monitor wm k))
     /\ m_sel (monitor wm k) <> Some c) ->
  heap wm' !! c = None
  /\ (forall k, (c ∉ m_clients (monitor wm' k)) /\ (c ∉ m_stack (monitor wm' k))
                /\ m_sel (monitor wm' k) <> Some c)
  /\ (forall k x, x <> c -> x ∈ m_clients (monitor wm k) ->
        x ∈ m_clients (monitor wm' k))
  /\ (forall x, x <> c ->
        erase_urgent (erase_geom (client wm' x)) = erase_urgent (erase_geom (client wm x))).
Proof.
  intros j wm' Hj Hndc Hnds Hother. subst wm'. unfold unmanage. fold j. cbv zeta.
  set (wm1 := detach c wm).
  set (wm2 := detachstack c wm1).
  set (wm3 := set_heap (delete c (heap wm2)) wm2).
  set (wm4 := focus None wm3).
  assert (forall x, client wm1 x = client wm x) as Hc1
    by (intros x; apply client_upd_monitor).
  assert (length (mons wm1) = length (mons wm)) as Hl1
    by apply length_mons_upd_monitor.
  assert (forall k, monitor wm1 k
                    = if decide (k = j)
                      then set_m_clients (unlink c (m_clients (monitor wm j))) (monitor wm j)
                      else monitor wm k) as Hm1.
  { intros k. unfold wm1, detach. fold j. destruct (decide (k = j)) as [->|Hk].
    - by rewrite monitor_upd_monitor_eq.
    - by rewrite monitor_upd_monitor_ne. }
  assert (c_mon (client wm1 c) = j) as Hcm1 by (by rewrite Hc1).
  assert (j < length (mons wm1))%nat as Hj1 by (by rewrite Hl1).
  (* the lists after [detachstack] *)
  assert (forall k, (c ∉ m_clients (monitor wm2 k)) /\ (c ∉ m_stack (monitor wm2 k))
                    /\ m_sel (monitor wm2 k) <> Some c) as H2.
  { intros k. destruct (decide (k = j)) as [->|Hk].
    - pose proof (detachstack_monitor c wm1) as Hd. rewrite Hcm1 in Hd.
      specialize (Hd Hj1). fold wm2 in Hd. rewrite Hd, Hm1, decide_True by done. simpl.
      split; [by apply unlink_not_elem|]. split; [by apply unlink_not_elem|].
      destruct (bool_decide (m_sel (monitor wm j) = Some c)) eqn:Hb.
      + intros Hfv. apply first_visible_elem in Hfv as [Hin _].
        by apply (unlink_not_elem c (m_stack (monitor wm j))).
      + by apply bool_decide_eq_false in Hb.
    - unfold wm2. rewrite detachstack_other by (left; by rewrite Hcm1).
      rewrite Hm1, decide_False by done. by apply Hother. }
  assert (forall k x, x <> c -> x ∈ m_clients (monitor wm k) ->
            x ∈ m_clients (monitor wm2 k)) as Hkeep2.
  { intros k x Hx Hin. unfold wm2.
    rewrite (static_frame_clients _ _ k (detachstack_static_frame c wm1)), Hm1.
    destruct (decide (k = j)) as [->|Hk]; [|done]. simpl. by apply unlink_elem_ne. }
  assert (forall k, monitor wm3 k = monitor wm2 k) as Hm3 by done.
  assert (heap wm3 !! c = None) as Hh3 by (unfold wm3; simpl; apply lookup_delete_eq).
  assert (client wm3 c = zero_client) as Hz3.
  { unfold client. rewrite lookup_total_alt, Hh3. done. }
  assert (ISVISIBLE wm3 c = false) as Hv3.
  { unfold ISVISIBLE. rewrite Hz3. simpl. unfold nonzero. by rewrite Z.land_0_l. }
  assert (forall x, x <> c -> client wm3 x = client wm x) as Hc3.
  { intros x Hx. unfold client at 1. unfold wm3. simpl.
    rewrite lookup_total_delete_ne by done.
    fold (client wm2 x). unfold wm2. by rewrite client_detachstack. }
  assert (static_frame wm3 wm4) as H34 by apply focus_static_frame.
  pose proof (arrange_layout_frame (Some j) wm4) as H45.
  assert (ISVISIBLE wm4 c = false) as Hv4
    by (by rewrite (static_frame_ISVISIBLE _ _ c H34)).
  split; [|split; [|split]].
  - rewrite heap_arrange_hidden by done. unfold wm4. by rewrite heap_focus_None_hidden.
  - intros k. destruct (H2 k) as (Hcl & Hst & Hsel).
    destruct (focus_None_lists wm3 k) as (Ecl & Hstk & _ & Hselk). fold wm4 in Ecl, Hstk, Hselk.
    assert (first_visible wm3 (m_stack (monitor wm3 (selmon wm3))) <> Some c) as Hpick.
    { intros Hfv. apply first_visible_elem in Hfv as [_ Hvis]. congruence. }
    rewrite (static_frame_clients _ _ k (layout_frame_static _ _ H45)).
    rewrite (layout_frame_stack _ _ k H45), (layout_frame_sel _ _ k H45).
    split; [by rewrite Ecl, Hm3|]. split.
    + intros Hin. destruct (Hstk c Hin) as [Hin'|Hp]; [by rewrite Hm3 in Hin'|done].
    + intros Hs. destruct (Hselk c Hs) as [Hs'|Hp]; [by rewrite Hm3 in Hs'|done].
  - intros k x Hx Hin.
    rewrite (static_frame_clients _ _ k (layout_frame_static _ _ H45)).
    rewrite (static_frame_clients _ _ k H34), Hm3. by apply Hkeep2.
  - intros x Hx.
    rewrite (sf_client _ _ (layout_frame_static _ _ H45) x).
    rewrite (sf_client _ _ H34 x). by rewrite Hc3.
Qed.

Lemma unmanage_removes_client_witness :
  let wm' := unmanage 1 true ex_two_tiled in
  heap wm' !! 1 = None
  /\ (1 ∉ m_clients (monitor wm' 0%nat))
  /\ (2 ∈ m_clients (monitor wm' 0%nat)).
Proof.
  assert (c_mon (client ex_two_tiled 1) < length (mons ex_two_tiled))%nat as Hj
    by (vm_compute; lia).
  assert (NoDup (m_clients (monitor ex_two_tiled (c_mon (client ex_two_tiled 1))))) as Hc.
  { change (NoDup [1; 2]). refine (bool_decide_unpack _ _). vm_compute. exact I. }
  assert (NoDup (m_stack (monitor ex_two_tiled (c_mon (client ex_two_tiled 1))))) as Hs.
  { change (NoDup [1; 2]). refine (bool_decide_unpack _ _). vm_compute. exact I. }
  assert (forall k, k <> c_mon (client ex_two_tiled 1) ->
            (1 ∉ m_clients (monitor ex_two_tiled k))
            /\ (1 ∉ m_stack (monitor ex_two_tiled k))
            /\ m_sel (monitor ex_two_tiled k) <> Some 1) as Ho.
  { intros [|k] Hk; [done|]. change (monitor ex_two_tiled (S k)) with zero_monitor.
    simpl. split; [apply not_elem_of_nil|]. split; [apply not_elem_of_nil|done]. }
  destruct (unmanage_removes_client 1 true ex_two_tiled Hj Hc Hs Ho)
    as (H1 & H2 & H3 & _).
  split; [exact H1|]. split; [exact (proj1 (H2 0%nat))|].
  apply (H3 0%nat 2); [done|]. change (2 ∈ [1; 2]). apply elem_of_cons. right.
  apply elem_of_cons. by left.
Defined.
